(** * Transcription pipeline of [transcriber.js]

    A shallow embedding of the [Transcriber] class: the voice-activity gate,
    the WAV container writer, the per-peer audio buffers, the bounded job
    queue with its single worker, the two transcription providers and the
    per-room transcript sessions.

    Modelling conventions.
    - A Node [Buffer] is the list of its bytes; an [Int16Array] view reads
      them in pairs, low byte first (the platform is little-endian).
    - JavaScript strings are [string]s over 8-bit code units (Latin-1).
    - [this.tmpDir] and [this.transcriptsDir] are two distinct directories;
      each is a finite map from file name to file content, and file-system
      calls on them succeed.  The [.txt] file of the [whisper] subprocess
      comes with the event that reports its exit and is not kept.
    - Every frame of a sink owns the bytes of its [samples.buffer].
    - An [async] function runs synchronously up to its first [await]; the
      rest of its body is a suspended activation that a later event of the
      event loop resumes.  The handlers of the class are the events of a
      transition system over the state of the [Transcriber] object. *)

From Stdlib Require Import ZArith QArith Lia.
From Stdlib Require Import Strings.Byte Ascii String.
From stdpp Require Import base option list gmap strings pretty.

Open Scope Z_scope.

(** ** Exceptions *)

Inductive exn :=
  | RangeError      (* ERR_OUT_OF_RANGE / ERR_BUFFER_OUT_OF_BOUNDS *)
  | ENOENT          (* fs.readFileSync on a missing file *)
  | ProviderError   (* rejected provider call: network or service error,
                       non-zero exit code, spawn error *).

Inductive result (A : Type) :=
  | Ok (a : A)
  | Throw (e : exn).
Arguments Ok {A} a.
Arguments Throw {A} e.

Global Instance result_ret : MRet result := fun _ a => Ok a.
Global Instance result_bind : MBind result := fun _ _ f m =>
  match m with
  | Ok a => f a
  | Throw e => Throw e
  end.

(** ** Bytes and buffers *)

Definition byte_to_Z (b : byte) : Z := Z.of_N (Byte.to_N b).

(** Storing a number into a [Uint8Array] slot keeps its low eight bits. *)
Definition byte_of_Z (z : Z) : byte :=
  match Byte.of_N (Z.to_N (Z.land z 255)) with
  | Some b => b
  | None => x00
  end.

(** [Buffer.alloc(n)]: [n] zero bytes. *)
Definition Buffer_alloc (n : nat) : list byte := replicate n x00.

(** [Buffer.concat(list)]. *)
Definition Buffer_concat (l : list (list byte)) : list byte := concat l.

(** Overwrite [bs] into [buf] starting at [offset]; the caller has checked
    that it fits. *)
Definition splice (buf : list byte) (offset : nat) (bs : list byte) : list byte :=
  take offset buf ++ bs ++ drop (offset + length bs) buf.

(** [buf.write(str, offset)] with the default encoding, for a string that
    fits: the code units are stored as bytes. *)
Definition Buffer_write (buf : list byte) (s : string) (offset : nat) : list byte :=
  if decide (offset + length (String.list_byte_of_string s) <= length buf)%nat
  then splice buf offset (String.list_byte_of_string s)
  else buf.

(** The [width] low-order bytes of [value], least significant first:
    [buf[offset++] = value; value = value >>> 8; ...]. *)
Fixpoint le_bytes (width : nat) (value : Z) : list byte :=
  match width with
  | O => []
  | S w => byte_of_Z value :: le_bytes w (Z.shiftr value 8)
  end.

(** [buf.writeUIntNLE(value, offset)] for N = 8 * [width]: Node checks the
    value against [0, 2^N - 1] and the offset against the buffer, and throws
    a [RangeError] when either check fails. *)
Definition writeUIntLE (width : nat) (buf : list byte) (value : Z) (offset : nat)
  : result (list byte) :=
  if decide (0 <= value <= 2 ^ (8 * Z.of_nat width) - 1) then
    if decide (offset + width <= length buf)%nat
    then Ok (splice buf offset (le_bytes width value))
    else Throw RangeError
  else Throw RangeError.

Definition writeUInt32LE := writeUIntLE 4.
Definition writeUInt16LE := writeUIntLE 2.

(** [buf.readUIntNLE(offset)], used to decode a header. *)
Fixpoint le_value (bs : list byte) : Z :=
  match bs with
  | [] => 0
  | b :: r => byte_to_Z b + 256 * le_value r
  end.

Definition readUIntLE (width : nat) (buf : list byte) (offset : nat) : Z :=
  le_value (take width (drop offset buf)).

Definition readUInt32LE := readUIntLE 4.
Definition readUInt16LE := readUIntLE 2.

(** ** JavaScript numbers of the voice-activity gate

    [sum] is a sum of at most 2^31 integers of magnitude at most 2^15, so it
    is an exact double.  [sum / n] is the correctly rounded quotient; for
    1 <= n < 2^48 it exceeds 50 exactly when the rational quotient does, so
    a finite quotient is kept as its numerator and denominator.  A zero
    divisor gives [NaN] or an infinity. *)

Inductive jsnum :=
  | JNaN
  | JPosInf
  | JNegInf
  | JQuot (a b : Z).   (* a / b with b <> 0 *)

Definition js_div (a b : Z) : jsnum :=
  if b =? 0 then
    if a =? 0 then JNaN else if 0 <? a then JPosInf else JNegInf
  else JQuot a b.

(** [x > k] for an integer constant [k]; every comparison with [NaN] is
    false. *)
Definition js_gt (x : jsnum) (k : Z) : bool :=
  match x with
  | JNaN => false
  | JPosInf => true
  | JNegInf => false
  | JQuot a b => if 0 <? b then k * b <? a else a <? k * b
  end.

(** ** VoiceActivityGate: [hasVoiceActivity] *)

(** One element of an [Int16Array]: two bytes, low byte first, two's
    complement. *)
Definition int16_of (lo hi : byte) : Z :=
  let u := byte_to_Z lo + 256 * byte_to_Z hi in
  if u <? 32768 then u else u - 65536.

(** [new Int16Array(pcmBuffer.buffer, pcmBuffer.byteOffset,
    pcmBuffer.length / 2)]: the element count is truncated to an integer, so
    a trailing odd byte is not part of the view.  The buffers that reach
    the gate come from [Buffer.concat] and [fs.readFileSync], whose byte
    offsets are even, so the constructor does not throw. *)
Fixpoint Int16Array (pcmBuffer : list byte) : list Z :=
  match pcmBuffer with
  | lo :: hi :: rest => int16_of lo hi :: Int16Array rest
  | _ => []
  end.

(** The loop [for (i = 0; i < samples.length; i++) sum += Math.abs(samples[i])]. *)
Definition sumAbs (samples : list Z) : Z :=
  fold_left (fun sum s => sum + Z.abs s) samples 0.

Definition avgEnergy (pcmBuffer : list byte) : jsnum :=
  let samples := Int16Array pcmBuffer in
  js_div (sumAbs samples) (Z.of_nat (length samples)).

Definition hasVoiceActivity (pcmBuffer : list byte) : bool :=
  js_gt (avgEnergy pcmBuffer) 50.

(** ** ContainerEncoder: [writeWav] *)

Definition writeWav (dir : gmap string (list byte)) (filePath : string)
    (pcmBuffer : list byte) (sampleRate channelCount : Z)
  : result (gmap string (list byte)) :=
  let bitsPerSample := 16 in
  let byteRate := sampleRate * channelCount * (bitsPerSample / 8) in
  let blockAlign := channelCount * (bitsPerSample / 8) in
  let dataSize := Z.of_nat (length pcmBuffer) in
  let fileSize := 36 + dataSize in
  let header := Buffer_alloc 44 in
  let header := Buffer_write header "RIFF" 0 in
  header ← writeUInt32LE header fileSize 4;
  let header := Buffer_write header "WAVE" 8 in
  let header := Buffer_write header "fmt " 12 in
  header ← writeUInt32LE header 16 16;
  header ← writeUInt16LE header 1 20;
  header ← writeUInt16LE header channelCount 22;
  header ← writeUInt32LE header sampleRate 24;
  header ← writeUInt32LE header byteRate 28;
  header ← writeUInt16LE header blockAlign 32;
  header ← writeUInt16LE header bitsPerSample 34;
  let header := Buffer_write header "data" 36 in
  header ← writeUInt32LE header dataSize 40;
  mret (<[filePath := Buffer_concat [header; pcmBuffer]]> dir).

(** Reading a container back: the payload is the [dataSize] bytes that
    follow the 44-byte header. *)
Definition wavHeader (file : list byte) : list byte := take 44 file.
Definition wavPayload (file : list byte) : list byte :=
  take (Z.to_nat (readUInt32LE file 40)) (drop 44 file).


(** ** Strings: [trim] and [toLowerCase] *)

(** White space and line terminators among the 8-bit code units. *)
Definition isWhiteSpace (a : ascii) : bool :=
  let n := N_of_ascii a in
  ((9 <=? n) && (n <=? 13) || (n =? 32) || (n =? 160))%N.

Fixpoint trimStart (s : string) : string :=
  match s with
  | EmptyString => EmptyString
  | String a r => if isWhiteSpace a then trimStart r else s
  end.

Fixpoint trimEnd (s : string) : string :=
  match s with
  | EmptyString => EmptyString
  | String a r =>
      match trimEnd r with
      | EmptyString => if isWhiteSpace a then EmptyString else String a EmptyString
      | r' => String a r'
      end
  end.

Definition trim (s : string) : string := trimEnd (trimStart s).

Definition toLowerCase_char (a : ascii) : ascii :=
  let n := N_of_ascii a in
  if ((65 <=? n) && (n <=? 90)
      || (192 <=? n) && (n <=? 222) && negb (n =? 215))%N
  then ascii_of_N (n + 32) else a.

Fixpoint toLowerCase (s : string) : string :=
  match s with
  | EmptyString => EmptyString
  | String a r => String (toLowerCase_char a) (toLowerCase r)
  end.

(** A string in a boolean context: the empty string is falsy. *)
Definition truthy (s : string) : bool :=
  match s with
  | EmptyString => false
  | _ => true
  end.

(** [str.replace(/[:.]/g, '-')]. *)
Fixpoint replace_colon_period (s : string) : string :=
  match s with
  | EmptyString => EmptyString
  | String a r =>
      String (if (Ascii.eqb a ":" || Ascii.eqb a ".")%char then "-"%char else a)
             (replace_colon_period r)
  end.

(** ** Session documents *)

Record TranscriptEntry := {
  entry_timestamp : string;
  entry_userId : string;
  entry_text : string
}.

(** The object handed to [yaml.dump]; [endedAt] is only present in the
    document written by [endSession]. *)
Record sessionData := {
  sd_room : string;
  sd_startedAt : string;
  sd_endedAt : option string;
  sd_transcriptions : list TranscriptEntry
}.

(** The payload of the [transcription] event sent to a room. *)
Record transcriptionMsg := {
  msg_userId : string;
  msg_text : string;
  msg_timestamp : Z
}.

(** A frame delivered by [RTCAudioSink]: the bytes of [data.samples.buffer],
    [data.samples.length], [data.sampleRate], [data.channelCount]. *)
Record audioData := {
  samples_buffer : list byte;
  samples_length : Z;
  data_sampleRate : Z;
  data_channelCount : Z
}.

(** A queued job. *)
Record job := {
  job_socketId : string;
  job_userId : string;
  job_roomId : string;
  job_audioBuffer : list byte;
  job_sampleRate : Z;
  job_channelCount : Z
}.

(** What a suspended [processQueue] activation is waiting for. *)
Inductive awaiting :=
  | AwaitSettled (r : result string)
      (* [transcribeWithGroq] finished before reaching its own [await] *)
  | AwaitGroq      (* [groq.audio.transcriptions.create] is in flight *)
  | AwaitWhisper.  (* the [whisper] subprocess is running *)

Record activation := {
  act_item : job;
  act_wavPath : string;
  act_await : awaiting
}.

(** What the environment answers to a provider call. *)
Inductive providerOutcome :=
  | GroqResolved (transcription : string)
  | GroqRejected
  | WhisperClose (code : Z) (txt : option string)
      (* exit code, and the content of the [.txt] file when it exists *)
  | WhisperError.

(** ** The runtime

    The arithmetic on durations is IEEE double arithmetic, and dates and
    YAML are rendered by library code; the model is parametric in them. *)
Class Runtime := {
  number : Type;
  num_of_Z : Z -> number;
  num_add : number -> number -> number;
  num_div : number -> number -> number;
  num_ge : number -> number -> bool;
  toISOString : Z -> string;
  yaml_dump : sessionData -> string
}.

Section Model.
Context {RT : Runtime}.

(** ** State of the [Transcriber] object and of its environment *)

(** The [peerData] object of [createPeer]; the connection [pc] and the
    [audioSink] are owned by the WebRTC library and are left out. *)
Record peerData := {
  pd_buffer : list (list byte);
  pd_bufferDuration : number;
  pd_userId : string;
  pd_roomId : string;
  pd_sampleRate : Z;
  pd_channelCount : Z
}.

Record session := {
  filePath : string;
  startedAt : Z;
  transcriptions : list TranscriptEntry
}.

(** [peers] maps a socket id to a [peerData] object; the objects live in
    [heap], because the [ondata] closure of a sink keeps its object alive
    and mutates it whether or not [peers] still refers to it.

    Besides the fields of the class, the state holds the two directories,
    the messages emitted to rooms, the suspended [processQueue] activations,
    the pending [fs.unlink] calls, the arguments of the [hasVoiceActivity]
    calls made so far (each call prints one "Audio energy" line), and the
    number of [processQueue] promises that were rejected. *)
Record Transcriber := {
  peers : gmap string nat;
  heap : list peerData;
  sessions : gmap string session;
  isProcessing : bool;
  queue : list job;
  provider : string;
  bufferDuration : number;
  tmpDir : gmap string (list byte);
  transcriptsDir : gmap string (list byte);
  emitted : list (string * transcriptionMsg);
  suspended : list activation;
  unlinks : list string;
  gateLog : list (list byte);
  rejections : nat
}.

Definition set_peers (v : gmap string nat) (t : Transcriber) : Transcriber :=
  {| peers := v; heap := heap t; sessions := sessions t;
     isProcessing := isProcessing t; queue := queue t; provider := provider t;
     bufferDuration := bufferDuration t; tmpDir := tmpDir t;
     transcriptsDir := transcriptsDir t; emitted := emitted t;
     suspended := suspended t; unlinks := unlinks t; gateLog := gateLog t;
     rejections := rejections t |}.

Definition set_heap (v : list peerData) (t : Transcriber) : Transcriber :=
  {| peers := peers t; heap := v; sessions := sessions t;
     isProcessing := isProcessing t; queue := queue t; provider := provider t;
     bufferDuration := bufferDuration t; tmpDir := tmpDir t;
     transcriptsDir := transcriptsDir t; emitted := emitted t;
     suspended := suspended t; unlinks := unlinks t; gateLog := gateLog t;
     rejections := rejections t |}.

Definition set_sessions (v : gmap string session) (t : Transcriber) : Transcriber :=
  {| peers := peers t; heap := heap t; sessions := v;
     isProcessing := isProcessing t; queue := queue t; provider := provider t;
     bufferDuration := bufferDuration t; tmpDir := tmpDir t;
     transcriptsDir := transcriptsDir t; emitted := emitted t;
     suspended := suspended t; unlinks := unlinks t; gateLog := gateLog t;
     rejections := rejections t |}.

Definition set_isProcessing (v : bool) (t : Transcriber) : Transcriber :=
  {| peers := peers t; heap := heap t; sessions := sessions t;
     isProcessing := v; queue := queue t; provider := provider t;
     bufferDuration := bufferDuration t; tmpDir := tmpDir t;
     transcriptsDir := transcriptsDir t; emitted := emitted t;
     suspended := suspended t; unlinks := unlinks t; gateLog := gateLog t;
     rejections := rejections t |}.

Definition set_queue (v : list job) (t : Transcriber) : Transcriber :=
  {| peers := peers t; heap := heap t; sessions := sessions t;
     isProcessing := isProcessing t; queue := v; provider := provider t;
     bufferDuration := bufferDuration t; tmpDir := tmpDir t;
     transcriptsDir := transcriptsDir t; emitted := emitted t;
     suspended := suspended t; unlinks := unlinks t; gateLog := gateLog t;
     rejections := rejections t |}.

Definition set_tmpDir (v : gmap string (list byte)) (t : Transcriber) : Transcriber :=
  {| peers := peers t; heap := heap t; sessions := sessions t;
     isProcessing := isProcessing t; queue := queue t; provider := provider t;
     bufferDuration := bufferDuration t; tmpDir := v;
     transcriptsDir := transcriptsDir t; emitted := emitted t;
     suspended := suspended t; unlinks := unlinks t; gateLog := gateLog t;
     rejections := rejections t |}.

Definition set_transcriptsDir (v : gmap string (list byte)) (t : Transcriber)
  : Transcriber :=
  {| peers := peers t; heap := heap t; sessions := sessions t;
     isProcessing := isProcessing t; queue := queue t; provider := provider t;
     bufferDuration := bufferDuration t; tmpDir := tmpDir t;
     transcriptsDir := v; emitted := emitted t;
     suspended := suspended t; unlinks := unlinks t; gateLog := gateLog t;
     rejections := rejections t |}.

Definition set_emitted (v : list (string * transcriptionMsg)) (t : Transcriber)
  : Transcriber :=
  {| peers := peers t; heap := heap t; sessions := sessions t;
     isProcessing := isProcessing t; queue := queue t; provider := provider t;
     bufferDuration := bufferDuration t; tmpDir := tmpDir t;
     transcriptsDir := transcriptsDir t; emitted := v;
     suspended := suspended t; unlinks := unlinks t; gateLog := gateLog t;
     rejections := rejections t |}.

Definition set_suspended (v : list activation) (t : Transcriber) : Transcriber :=
  {| peers := peers t; heap := heap t; sessions := sessions t;
     isProcessing := isProcessing t; queue := queue t; provider := provider t;
     bufferDuration := bufferDuration t; tmpDir := tmpDir t;
     transcriptsDir := transcriptsDir t; emitted := emitted t;
     suspended := v; unlinks := unlinks t; gateLog := gateLog t;
     rejections := rejections t |}.

Definition set_unlinks (v : list string) (t : Transcriber) : Transcriber :=
  {| peers := peers t; heap := heap t; sessions := sessions t;
     isProcessing := isProcessing t; queue := queue t; provider := provider t;
     bufferDuration := bufferDuration t; tmpDir := tmpDir t;
     transcriptsDir := transcriptsDir t; emitted := emitted t;
     suspended := suspended t; unlinks := v; gateLog := gateLog t;
     rejections := rejections t |}.

Definition set_gateLog (v : list (list byte)) (t : Transcriber) : Transcriber :=
  {| peers := peers t; heap := heap t; sessions := sessions t;
     isProcessing := isProcessing t; queue := queue t; provider := provider t;
     bufferDuration := bufferDuration t; tmpDir := tmpDir t;
     transcriptsDir := transcriptsDir t; emitted := emitted t;
     suspended := suspended t; unlinks := unlinks t; gateLog := v;
     rejections := rejections t |}.

Definition set_rejections (v : nat) (t : Transcriber) : Transcriber :=
  {| peers := peers t; heap := heap t; sessions := sessions t;
     isProcessing := isProcessing t; queue := queue t; provider := provider t;
     bufferDuration := bufferDuration t; tmpDir := tmpDir t;
     transcriptsDir := transcriptsDir t; emitted := emitted t;
     suspended := suspended t; unlinks := unlinks t; gateLog := gateLog t;
     rejections := v |}.

(** [fs.writeFileSync(path, text)] into the transcripts directory. *)
Definition writeTranscript (path : string) (doc : sessionData) (t : Transcriber)
  : Transcriber :=
  set_transcriptsDir
    (<[path := String.list_byte_of_string (yaml_dump doc)]> (transcriptsDir t)) t.

(** [hasVoiceActivity] as called on [this]: the pure decision, and one more
    line in the log of calls. *)
Definition callGate (pcmBuffer : list byte) (t : Transcriber) : Transcriber * bool :=
  (set_gateLog (gateLog t ++ [pcmBuffer]) t, hasVoiceActivity pcmBuffer).

(** ** The constructor *)

(** [v || default] for a possibly undefined string [v]. *)
Definition or_default (v : option string) (default : string) : string :=
  match v with
  | Some s => if truthy s then s else default
  | None => default
  end.

Definition config_provider (TRANSCRIPTION_PROVIDER : option string) : string :=
  or_default TRANSCRIPTION_PROVIDER "groq".
Definition config_bufferDuration : number := num_of_Z 5.
Definition config_groq_apiKey (GROQ_API_KEY : option string) : string :=
  or_default GROQ_API_KEY "".

(** [new Transcriber(io, transcriptsDir)], given the environment variables
    and the content of the two directories. *)
Definition new_Transcriber (TRANSCRIPTION_PROVIDER GROQ_API_KEY : option string)
    (tmp transcripts : gmap string (list byte)) : Transcriber :=
  let p := config_provider TRANSCRIPTION_PROVIDER in
  let p :=
    if String.eqb p "groq" then
      if truthy (config_groq_apiKey GROQ_API_KEY) then p else "local-whisper"
    else p in
  {| peers := ∅; heap := []; sessions := ∅; isProcessing := false; queue := [];
     provider := p; bufferDuration := config_bufferDuration;
     tmpDir := tmp; transcriptsDir := transcripts; emitted := [];
     suspended := []; unlinks := []; gateLog := []; rejections := 0 |}.

(** ** SessionStore *)

Definition startSession (t : Transcriber) (roomId : string) (now : Z)
  : Transcriber * session :=
  match sessions t !! roomId with
  | Some s => (t, s)
  | None =>
      let startedAt := now in
      let timestamp := replace_colon_period (toISOString startedAt) in
      let fileName := roomId +:+ "_" +:+ timestamp +:+ ".yaml" in
      let filePath := fileName in
      let session :=
        {| filePath := filePath; startedAt := startedAt; transcriptions := [] |} in
      let sessionData :=
        {| sd_room := roomId; sd_startedAt := toISOString startedAt;
           sd_endedAt := None; sd_transcriptions := [] |} in
      let t := writeTranscript filePath sessionData t in
      (set_sessions (<[roomId := session]> (sessions t)) t, session)
  end.

Definition endSession (t : Transcriber) (roomId : string) (now : Z) : Transcriber :=
  match sessions t !! roomId with
  | Some session =>
      let sessionData :=
        {| sd_room := roomId; sd_startedAt := toISOString (startedAt session);
           sd_endedAt := Some (toISOString now);
           sd_transcriptions := transcriptions session |} in
      let t := writeTranscript (filePath session) sessionData t in
      set_sessions (delete roomId (sessions t)) t
  | None => t
  end.

Definition saveTranscription (t : Transcriber) (roomId userId text : string)
    (timestamp : Z) : Transcriber :=
  match sessions t !! roomId with
  | None => t
  | Some session =>
      let entry :=
        {| entry_timestamp := toISOString timestamp; entry_userId := userId;
           entry_text := text |} in
      let session :=
        {| filePath := filePath session; startedAt := startedAt session;
           transcriptions := transcriptions session ++ [entry] |} in
      let t := set_sessions (<[roomId := session]> (sessions t)) t in
      let sessionData :=
        {| sd_room := roomId; sd_startedAt := toISOString (startedAt session);
           sd_endedAt := None; sd_transcriptions := transcriptions session |} in
      writeTranscript (filePath session) sessionData t
  end.

(** ** RoomPresenceTracker *)

Definition roomHasPeers (t : Transcriber) (roomId : string) : bool :=
  existsb
    (fun entry : string * nat =>
       match heap t !! entry.2 with
       | Some peerData => String.eqb (pd_roomId peerData) roomId
       | None => false
       end)
    (map_to_list (peers t)).

(** ** Providers *)

(** [transcribeWithGroq] up to its [await]: the file is read back, the gate
    is run on the bytes of the file, and the call to the service starts
    only when the gate accepts. *)
Definition transcribeWithGroq (t : Transcriber) (audioPath : string)
  : Transcriber * awaiting :=
  match tmpDir t !! audioPath with
  | None => (t, AwaitSettled (Throw ENOENT))
  | Some audioBuffer =>
      let '(t, voiced) := callGate audioBuffer t in
      if negb voiced then (t, AwaitSettled (Ok ""%string))
      else (t, AwaitGroq)
  end.

Definition hallucinations : list string :=
  [ "thank you"; "thanks for watching"; "thanks for listening";
    "subscribe"; "like and subscribe"; "see you next time";
    "bye"; "goodbye"; "the end" ]%string.

(** [transcribeWithGroq] after its [await], when the service answered
    with [transcription]. *)
Definition transcribeWithGroq_resume (transcription : string) : string :=
  let text := toLowerCase (trim transcription) in
  if existsb (fun h => String.eqb text h || String.eqb text (h +:+ "."))
             hallucinations
  then ""%string
  else transcription.

(** [transcribeWithLocalWhisper]: the subprocess is spawned at once. *)
Definition transcribeWithLocalWhisper (t : Transcriber) (audioPath : string)
  : Transcriber * awaiting :=
  (t, AwaitWhisper).

(** The [close] handler of the subprocess. *)
Definition whisper_close (code : Z) (txt : option string) : result string :=
  if negb (code =? 0) then Throw ProviderError
  else match txt with
       | Some transcript => Ok transcript
       | None => Ok ""%string
       end.

(** How an awaited promise settles, given the answer of the environment;
    [None] when the answer is not one the awaited call can produce. *)
Definition settle (a : awaiting) (o : providerOutcome) : option (result string) :=
  match a, o with
  | AwaitSettled r, _ => Some r
  | AwaitGroq, GroqResolved transcription =>
      Some (Ok (transcribeWithGroq_resume transcription))
  | AwaitGroq, GroqRejected => Some (Throw ProviderError)
  | AwaitWhisper, WhisperClose code txt => Some (whisper_close code txt)
  | AwaitWhisper, WhisperError => Some (Throw ProviderError)
  | _, _ => None
  end.

(** ** TranscriptionQueue and its worker *)

(** [processQueue] up to its [await].  A [RangeError] of [writeWav] is
    thrown outside the [try]: the promise of the call is rejected and
    [isProcessing] stays set. *)
Definition processQueue (t : Transcriber) (now : Z) : Transcriber :=
  if isProcessing t then t else
  match queue t with
  | [] => t
  | item :: rest =>
      let t := set_isProcessing true t in
      let t := set_queue rest t in
      let wavPath := job_socketId item +:+ "-" +:+ pretty now +:+ ".wav" in
      match writeWav (tmpDir t) wavPath (job_audioBuffer item)
                     (job_sampleRate item) (job_channelCount item) with
      | Throw _ => set_rejections (S (rejections t)) t
      | Ok dir =>
          let t := set_tmpDir dir t in
          let '(t, a) :=
            if String.eqb (provider t) "groq"
            then transcribeWithGroq t wavPath
            else transcribeWithLocalWhisper t wavPath in
          set_suspended
            (suspended t ++
             [{| act_item := item; act_wavPath := wavPath; act_await := a |}]) t
      end
  end.

(** The [io.to(roomId).emit('transcription', ...)] call. *)
Definition emit_transcription (roomId : string) (m : transcriptionMsg)
    (t : Transcriber) : Transcriber :=
  set_emitted (emitted t ++ [(roomId, m)]) t.

(** The [try] block after the [await], and the [catch]. *)
Definition processQueue_try (t : Transcriber) (item : job)
    (transcript : result string) (now : Z) : Transcriber :=
  match transcript with
  | Ok transcript =>
      if truthy transcript && truthy (trim transcript) then
        let text := trim transcript in
        let timestamp := now in
        let t := saveTranscription t (job_roomId item) (job_userId item)
                                   text timestamp in
        emit_transcription (job_roomId item)
          {| msg_userId := job_userId item; msg_text := text;
             msg_timestamp := timestamp |} t
      else t
  | Throw _ => t
  end.

(** The [finally] block up to the recursive call. *)
Definition processQueue_finally (t : Transcriber) (a : activation) : Transcriber :=
  let t := set_unlinks (unlinks t ++ [act_wavPath a]) t in
  set_isProcessing false t.

(** The rest of [processQueue] once the awaited promise of the [i]-th
    suspended activation has settled; [now] is read in the [try] block and
    [now'] by the recursive call. *)
Definition processQueue_resume (t : Transcriber) (i : nat) (o : providerOutcome)
    (now now' : Z) : Transcriber :=
  match suspended t !! i with
  | None => t
  | Some a =>
      match settle (act_await a) o with
      | None => t
      | Some transcript =>
          let t := set_suspended (delete i (suspended t)) t in
          let t := processQueue_try t (act_item a) transcript now in
          let t := processQueue_finally t a in
          processQueue t now'
      end
  end.

(** ** PeerAudioSession *)

Definition queueTranscription (t : Transcriber) (socketId : string) (id : nat)
    (now : Z) : Transcriber :=
  match heap t !! id with
  | None => t
  | Some peerData =>
      match pd_buffer peerData with
      | [] => t
      | _ =>
          let audioBuffer := Buffer_concat (pd_buffer peerData) in
          let peerData :=
            {| pd_buffer := []; pd_bufferDuration := num_of_Z 0;
               pd_userId := pd_userId peerData; pd_roomId := pd_roomId peerData;
               pd_sampleRate := pd_sampleRate peerData;
               pd_channelCount := pd_channelCount peerData |} in
          let t := set_heap (<[id := peerData]> (heap t)) t in
          let '(t, voiced) := callGate audioBuffer t in
          if negb voiced then t else
          let t := if (3 <=? length (queue t))%nat
                   then set_queue (tail (queue t)) t else t in
          let t :=
            set_queue
              (queue t ++
               [{| job_socketId := socketId; job_userId := pd_userId peerData;
                   job_roomId := pd_roomId peerData;
                   job_audioBuffer := audioBuffer;
                   job_sampleRate := pd_sampleRate peerData;
                   job_channelCount := pd_channelCount peerData |}]) t in
          processQueue t now
      end
  end.

(** The [sink.ondata] handler installed by [setupAudioSink] for the
    [peerData] object [id]. *)
Definition ondata (t : Transcriber) (socketId : string) (id : nat)
    (data : audioData) (now : Z) : Transcriber :=
  match heap t !! id with
  | None => t
  | Some peerData =>
      let peerData :=
        {| pd_buffer := pd_buffer peerData ++ [samples_buffer data];
           pd_bufferDuration :=
             num_add (pd_bufferDuration peerData)
                     (num_div (num_of_Z (samples_length data))
                              (num_of_Z (data_sampleRate data)));
           pd_userId := pd_userId peerData; pd_roomId := pd_roomId peerData;
           pd_sampleRate := data_sampleRate data;
           pd_channelCount := data_channelCount data |} in
      let t := set_heap (<[id := peerData]> (heap t)) t in
      if num_ge (pd_bufferDuration peerData) (bufferDuration t)
      then queueTranscription t socketId id now
      else t
  end.

(** ** Peers *)

Definition createPeer (t : Transcriber) (socketId roomId : string)
    (userId : option string) (now : Z) : Transcriber :=
  let t := if roomHasPeers t roomId then t else (startSession t roomId now).1 in
  let peerData :=
    {| pd_buffer := []; pd_bufferDuration := num_of_Z 0;
       pd_userId := or_default userId socketId; pd_roomId := roomId;
       pd_sampleRate := 48000; pd_channelCount := 1 |} in
  let id := length (heap t) in
  let t := set_heap (heap t ++ [peerData]) t in
  set_peers (<[socketId := id]> (peers t)) t.

Definition removePeer (t : Transcriber) (socketId : string) (now : Z) : Transcriber :=
  match peers t !! socketId with
  | None => t
  | Some id =>
      match heap t !! id with
      | None => t
      | Some peerData =>
          let roomId := pd_roomId peerData in
          let t := set_peers (delete socketId (peers t)) t in
          if roomHasPeers t roomId then t else endSession t roomId now
      end
  end.

(** The [k]-th pending [fs.unlink] completes. *)
Definition run_unlink (t : Transcriber) (k : nat) : Transcriber :=
  match unlinks t !! k with
  | None => t
  | Some p => set_unlinks (delete k (unlinks t)) (set_tmpDir (delete p (tmpDir t)) t)
  end.

(** ** The event loop *)

Inductive event :=
  | EvCreatePeer (socketId roomId : string) (userId : option string) (now : Z)
  | EvRemovePeer (socketId : string) (now : Z)
  | EvData (socketId : string) (id : nat) (data : audioData) (now : Z)
  | EvSettled (i : nat) (o : providerOutcome) (now now' : Z)
  | EvUnlinked (k : nat).

Definition step (t : Transcriber) (e : event) : Transcriber :=
  match e with
  | EvCreatePeer socketId roomId userId now => createPeer t socketId roomId userId now
  | EvRemovePeer socketId now => removePeer t socketId now
  | EvData socketId id data now => ondata t socketId id data now
  | EvSettled i o now now' => processQueue_resume t i o now now'
  | EvUnlinked k => run_unlink t k
  end.

Definition run (t : Transcriber) (es : list event) : Transcriber :=
  fold_left step es t.

(** In-flight provider calls: the suspended activations that wait for the
    service or for the subprocess. *)
Definition isProviderCall (a : activation) : bool :=
  match act_await a with
  | AwaitSettled _ => false
  | AwaitGroq | AwaitWhisper => true
  end.

Definition inFlight (t : Transcriber) : nat :=
  length (filter (fun a => isProviderCall a = true) (suspended t)).

(** ** Notions used to state the properties *)

(** The job that [queueTranscription] pushes for the segment [audioBuffer]
    of [peerData]. *)
Definition job_of (socketId : string) (peerData : peerData)
    (audioBuffer : list byte) : job :=
  {| job_socketId := socketId; job_userId := pd_userId peerData;
     job_roomId := pd_roomId peerData; job_audioBuffer := audioBuffer;
     job_sampleRate := pd_sampleRate peerData;
     job_channelCount := pd_channelCount peerData |}.

(** The [peerData] object after a flush. *)
Definition reset_buffer (p : peerData) : peerData :=
  {| pd_buffer := []; pd_bufferDuration := num_of_Z 0;
     pd_userId := pd_userId p; pd_roomId := pd_roomId p;
     pd_sampleRate := pd_sampleRate p;
     pd_channelCount := pd_channelCount p |}.

(** The name of the temporary file of a job started at [now]. *)
Definition wavPath_of (item : job) (now : Z) : string :=
  job_socketId item +:+ "-" +:+ pretty now +:+ ".wav".

(** The invariant of the worker. *)
Definition worker_inv (t : Transcriber) : Prop :=
  (length (suspended t) <= 1)%nat
  /\ (isProcessing t = false -> suspended t = [] /\ queue t = [])
  /\ (length (queue t) <= 3)%nat.

(** [t'] has the worker fields of [t]. *)
Definition same_worker (t t' : Transcriber) : Prop :=
  isProcessing t' = isProcessing t /\ queue t' = queue t
  /\ suspended t' = suspended t /\ provider t' = provider t
  /\ bufferDuration t' = bufferDuration t /\ gateLog t' = gateLog t.

(** The jobs that wait in the queue or are being processed. *)
Definition jobs_of (t : Transcriber) : list job :=
  queue t ++ (act_item <$> suspended t).

(** Every such job carries a payload on which the gate was called and
    which the gate accepted. *)
Definition gated (t : Transcriber) : Prop :=
  Forall (fun j => hasVoiceActivity (job_audioBuffer j) = true
                   /\ job_audioBuffer j ∈ gateLog t) (jobs_of t).

(** The duration accumulated from [d0] over [frames], as [ondata] adds it
    up. *)
Definition accumulate (d0 : number) (frames : list audioData) : number :=
  fold_left
    (fun d data =>
       num_add d (num_div (num_of_Z (samples_length data))
                          (num_of_Z (data_sampleRate data))))
    frames d0.

(** [ondata] pushes the frame before it tests the threshold, so the buffer
    of the session is empty after a frame exactly when that frame made the
    session flush. *)
Definition flushed (t : Transcriber) (id : nat) : bool :=
  match heap t !! id with
  | Some peerData =>
      match pd_buffer peerData with
      | [] => true
      | _ => false
      end
  | None => false
  end.

(** The number of flushes of session [id] while [frames] are delivered to
    it one after the other; each frame comes with the clock reading of its
    handler. *)
Fixpoint flushes (t : Transcriber) (socketId : string) (id : nat)
    (frames : list (audioData * Z)) : nat :=
  match frames with
  | [] => 0%nat
  | (data, now) :: rest =>
      let t := ondata t socketId id data now in
      ((if flushed t id then 1 else 0) + flushes t socketId id rest)%nat
  end.

Definition deliver (t : Transcriber) (socketId : string) (id : nat)
    (frames : list (audioData * Z)) : Transcriber :=
  run t (map (fun f : audioData * Z => EvData socketId id f.1 f.2) frames).

(** A provider call that fails: the service rejects, the subprocess cannot
    be spawned, or it exits with a non-zero code. *)
Definition failed (o : providerOutcome) : bool :=
  match o with
  | GroqResolved _ => false
  | GroqRejected => true
  | WhisperClose code _ => negb (code =? 0)
  | WhisperError => true
  end.

End Model.

(** ** A runtime for worked examples

    Durations are exact rationals, a date is rendered from its millisecond
    count, and the YAML document lists the fields line by line. *)

Definition example_date (ms : Z) : string :=
  "1970-01-01T00:00:" +:+ pretty (ms / 1000) +:+ "." +:+ pretty (ms mod 1000) +:+ "Z".

Definition example_entry (e : TranscriptEntry) : string :=
  "  - timestamp: " +:+ entry_timestamp e +:+ " userId: " +:+ entry_userId e
  +:+ " text: " +:+ entry_text e +:+ ";".

Definition example_yaml (d : sessionData) : string :=
  "room: " +:+ sd_room d +:+ "; startedAt: " +:+ sd_startedAt d
  +:+ match sd_endedAt d with
      | Some e => "; endedAt: " +:+ e
      | None => ""
      end
  +:+ "; transcriptions:"
  +:+ fold_right (fun e acc => example_entry e +:+ acc) "" (sd_transcriptions d).

Definition exampleRuntime : Runtime :=
  {| number := Q;
     num_of_Z := inject_Z;
     num_add := Qplus;
     num_div := Qdiv;
     num_ge := fun a b => Qle_bool b a;
     toISOString := example_date;
     yaml_dump := example_yaml |}.

(** Example data: a frame of [n] samples of amplitude 80 that announces
    [len] samples at 48 kHz mono, and a silent one. *)
Definition loud (n : nat) : list byte := concat (replicate n [x50; x00]).
Definition quiet (n : nat) : list byte := replicate (2 * n) x00.
Definition frame (samples : list byte) (len : Z) : audioData :=
  {| samples_buffer := samples; samples_length := len;
     data_sampleRate := 48000; data_channelCount := 1 |}.

(** Peer "s1" of user "A" joins room "standup" at time 1000 and then sends
    five seconds of speech per frame. *)
Definition ex_local : Transcriber :=
  new_Transcriber (RT := exampleRuntime) (Some "local-whisper"%string) None ∅ ∅.
Definition ex_groq : Transcriber :=
  new_Transcriber (RT := exampleRuntime) (Some "groq"%string) (Some "gsk"%string) ∅ ∅.
Definition ex_join : event := EvCreatePeer "s1" "standup" (Some "A"%string) 1000.
Definition ex_speech (now : Z) : event := EvData "s1" 0 (frame (loud 4) 240000) now.
Definition ex_peer : peerData (RT := exampleRuntime) :=
  {| pd_buffer := []; pd_bufferDuration := num_of_Z (Runtime := exampleRuntime) 0;
     pd_userId := "A"; pd_roomId := "standup";
     pd_sampleRate := 48000; pd_channelCount := 1 |}.
Definition ex_job : job := job_of (RT := exampleRuntime) "s1" ex_peer (loud 4).
Definition ex_activation (a : awaiting) : activation :=
  {| act_item := ex_job; act_wavPath := "s1-2000.wav"; act_await := a |}.
Definition ex_session : session :=
  {| filePath := "standup_1970-01-01T00-00-1-0Z.yaml"; startedAt := 1000;
     transcriptions := [] |}.
(** The directory after [writeWav] stored the container of [ex_job]. *)
Definition ex_tmpDir : gmap string (list byte) :=
  match writeWav ∅ "s1-2000.wav" (loud 4) 48000 1 with
  | Ok dir => dir
  | Throw _ => ∅
  end.

(** ** Further notions *)

(** The header fields of a container for [P], [R], [C] fit their widths. *)
Definition wav_fields_fit (P : list byte) (R C : Z) : Prop :=
  0 <= R <= 2 ^ 32 - 1 /\ 0 <= C /\ R * C * 2 <= 2 ^ 32 - 1
  /\ C * 2 <= 2 ^ 16 - 1 /\ 36 + Z.of_nat (length P) <= 2 ^ 32 - 1.

(** A text that the deny-list of [transcribeWithGroq] matches. *)
Definition denylisted (text : string) : bool :=
  existsb (fun h => String.eqb text h || String.eqb text (h +:+ "."))
          hallucinations.

Section FurtherNotions.
Context {RT : Runtime}.

(** The three states of the worker: idle with nothing queued; busy with
    one suspended activation; or stuck, with [isProcessing] set, nothing
    suspended, and a rejected [processQueue] promise behind it. *)
Definition worker_state (t : Transcriber) : Prop :=
  (isProcessing t = false /\ queue t = [] /\ suspended t = [])
  \/ (isProcessing t = true /\ exists a, suspended t = [a])
  \/ (isProcessing t = true /\ suspended t = [] /\ (0 < rejections t)%nat).

(** [t'] has emitted and persisted what [t] has, and no more promise of
    [processQueue] was rejected. *)
Definition same_outputs (t t' : Transcriber) : Prop :=
  emitted t' = emitted t /\ rejections t' = rejections t.

(** What [processQueue] can be waiting for under the "groq" provider. *)
Definition groq_await (a : activation) : Prop :=
  match act_await a with
  | AwaitWhisper => False
  | AwaitSettled (Ok s) => s = ""%string
  | _ => True
  end.

(** The message that [processQueue] emits for [item] and [transcript]. *)
Definition message_of (item : job) (transcript : string) (now : Z)
  : string * transcriptionMsg :=
  (job_roomId item,
   {| msg_userId := job_userId item; msg_text := trim transcript;
      msg_timestamp := now |}).

(** Every entry of [peers] refers to an object of the heap. *)
Definition peers_valid (t : Transcriber) : Prop :=
  forall (socketId : string) (id : nat),
    peers t !! socketId = Some id -> (id < length (heap t))%nat.

(** A room with a peer has an open session. *)
Definition presence_inv (t : Transcriber) : Prop :=
  peers_valid t
  /\ forall roomId : string,
       roomHasPeers t roomId = true -> is_Some (sessions t !! roomId).

(** [cleanup]: [removePeer] for every socket id of [peers], in the order in
    which the [Map] yields them; each call reads the clock. *)
Definition cleanup (t : Transcriber) (order : list (string * Z)) : Transcriber :=
  fold_left (fun t (s : string * Z) => removePeer t s.1 s.2) order t.

(** Several calls of [saveTranscription] for one room, one after the
    other; an item is a user id, a text and a time stamp. *)
Definition save_all (t : Transcriber) (roomId : string)
    (items : list (string * string * Z)) : Transcriber :=
  fold_left
    (fun t (x : string * string * Z) => saveTranscription t roomId x.1.1 x.1.2 x.2)
    items t.

Definition entry_of (x : string * string * Z) : TranscriptEntry :=
  {| entry_timestamp := toISOString x.2; entry_userId := x.1.1;
     entry_text := x.1.2 |}.

(** The document that [saveTranscription] and [startSession] write for an
    open session, and the one that [endSession] writes. *)
Definition open_document (roomId : string) (s : session) : sessionData :=
  {| sd_room := roomId; sd_startedAt := toISOString (startedAt s);
     sd_endedAt := None; sd_transcriptions := transcriptions s |}.


(** The bytes of a file that holds the YAML of a document. *)
Definition yaml_file (doc : sessionData) : list byte :=
  String.list_byte_of_string (yaml_dump doc).

(** The [peerData] object after [ondata] has pushed a frame. *)
Definition push_frame (p : peerData) (data : audioData) : peerData :=
  {| pd_buffer := pd_buffer p ++ [samples_buffer data];
     pd_bufferDuration :=
       num_add (pd_bufferDuration p)
               (num_div (num_of_Z (samples_length data))
                        (num_of_Z (data_sampleRate data)));
     pd_userId := pd_userId p; pd_roomId := pd_roomId p;
     pd_sampleRate := data_sampleRate data;
     pd_channelCount := data_channelCount data |}.

End FurtherNotions.

(** * The room registry of the server

    The server keeps [rooms], a [Map] from room id to name and creation
    time, next to the rooms of the socket layer.  A [Map] is modelled as an
    association list in insertion order.  What the socket layer answers to
    [io.sockets.adapter.rooms.get(id)] comes with the request: the number
    of sockets of the set, when there is a set. *)

Record roomData := {
  room_name : string;
  room_createdAt : Z
}.

Definition rooms_get (rooms : list (string * roomData)) (id : string)
  : option roomData :=
  snd <$> List.find (fun e : string * roomData => String.eqb e.1 id) rooms.

Definition rooms_has (rooms : list (string * roomData)) (id : string) : bool :=
  match rooms_get rooms id with
  | Some _ => true
  | None => false
  end.

(** [rooms.set(id, data)]: an existing key keeps its place. *)
Definition rooms_set (rooms : list (string * roomData)) (id : string)
    (data : roomData) : list (string * roomData) :=
  if rooms_has rooms id
  then map (fun e : string * roomData =>
              if String.eqb e.1 id then (id, data) else e) rooms
  else rooms ++ [(id, data)].

Definition rooms_delete (rooms : list (string * roomData)) (id : string)
  : list (string * roomData) :=
  List.filter (fun e : string * roomData => negb (String.eqb e.1 id)) rooms.

(** The registry when the server starts. *)
Definition rooms_initial (now : Z) : list (string * roomData) :=
  rooms_set [] "default" {| room_name := "Default Room"; room_createdAt := now |}.

Record roomListing := {
  listing_id : string;
  listing_name : string;
  listing_userCount : nat;
  listing_createdAt : Z
}.

Inductive request :=
  | GetRooms (socketsInRoom : string -> option nat)
  | PostRoom (id name : option string) (now : Z)
  | DeleteRoom (id : string) (socketsInRoom : option nat)
  | JoinRoom (socketId roomId : string) (now : Z)
  | LeaveRoom (socketId roomId : string).

Inductive response :=
  | RoomList (l : list roomListing)
  | Status (code : nat) (error : string)
  | Created (id name : string)
  | Deleted (id : string)
  | RoomsUpdated.   (* the [rooms-updated] broadcast *)

(** The handlers that read or write [rooms]. *)
Definition handle (rooms : list (string * roomData)) (r : request)
  : list (string * roomData) * response :=
  match r with
  | GetRooms socketsInRoom =>
      (rooms,
       RoomList
         (map (fun e : string * roomData =>
                 {| listing_id := e.1; listing_name := room_name e.2;
                    listing_userCount :=
                      match socketsInRoom e.1 with
                      | Some size => size
                      | None => 0%nat
                      end;
                    listing_createdAt := room_createdAt e.2 |}) rooms))
  | PostRoom id name now =>
      let id := or_default id "" in
      if negb (truthy id) then (rooms, Status 400 "Room ID required")
      else if rooms_has rooms id then (rooms, Status 409 "Room already exists")
      else (rooms_set rooms id
              {| room_name := or_default name id; room_createdAt := now |},
            Created id (or_default name id))
  | DeleteRoom id socketsInRoom =>
      if String.eqb id "default" then (rooms, Status 400 "Cannot delete default room")
      else match socketsInRoom with
           | Some (S _) => (rooms, Status 400 "Room not empty")
           | _ => (rooms_delete rooms id, Deleted id)
           end
  | JoinRoom socketId roomId now =>
      (if negb (rooms_has rooms roomId)
       then rooms_set rooms roomId
              {| room_name := roomId; room_createdAt := now |}
       else rooms,
       RoomsUpdated)
  | LeaveRoom socketId roomId => (rooms, RoomsUpdated)
  end.

Definition serve (rooms : list (string * roomData)) (rs : list request)
  : list (string * roomData) :=
  fold_left (fun rooms r => (handle rooms r).1) rs rooms.

(** A request that deletes room [id] when it goes through. *)
Definition deletes (id : string) (r : request) : bool :=
  match r with
  | DeleteRoom id' _ => String.eqb id' id
  | _ => false
  end.

(** * Properties *)

(** ** Bytes *)

Lemma byte_to_of_Z (z : Z) : byte_to_Z (byte_of_Z z) = Z.land z 255.
Proof.
  unfold byte_to_Z, byte_of_Z.
  assert (Hr : 0 <= Z.land z 255 < 256).
  { change 255 with (Z.ones 8). rewrite Z.land_ones by lia.
    apply Z.mod_pos_bound. lia. }
  destruct (Byte.of_N (Z.to_N (Z.land z 255))) as [b|] eqn:E.
  - apply Byte.to_of_N in E. rewrite E. lia.
  - apply Byte.of_N_None_iff in E. lia.
Qed.

Lemma byte_to_Z_range (b : byte) : 0 <= byte_to_Z b <= 255.
Proof.
  unfold byte_to_Z. pose proof (Byte.to_N_bounded b). lia.
Qed.

Lemma le_value_le_bytes (w : nat) (v : Z) :
  0 <= v -> le_value (le_bytes w v) = v mod 2 ^ (8 * Z.of_nat w).
Proof.
  revert v. induction w as [|w IH]; intros v Hv.
  - simpl. rewrite Z.mod_1_r. reflexivity.
  - cbn [le_bytes le_value]. rewrite byte_to_of_Z.
    rewrite IH by (apply Z.shiftr_nonneg; lia).
    change 255 with (Z.ones 8). rewrite Z.land_ones by lia.
    rewrite Z.shiftr_div_pow2 by lia.
    replace (8 * Z.of_nat (S w)) with (8 + 8 * Z.of_nat w) by lia.
    rewrite Z.pow_add_r by lia.
    rewrite Z.rem_mul_r by lia. reflexivity.
Qed.

Lemma le_value_le_bytes_id (w : nat) (v : Z) :
  0 <= v <= 2 ^ (8 * Z.of_nat w) - 1 -> le_value (le_bytes w v) = v.
Proof.
  intros Hv. rewrite le_value_le_bytes by lia. apply Z.mod_small. lia.
Qed.

Lemma length_le_bytes (w : nat) (v : Z) : length (le_bytes w v) = w.
Proof. revert v. induction w; intros; simpl; auto. Qed.

Lemma writeUIntLE_Ok (w : nat) (buf : list byte) (v : Z) (off : nat) (buf' : list byte) :
  writeUIntLE w buf v off = Ok buf' ->
  0 <= v <= 2 ^ (8 * Z.of_nat w) - 1 /\ buf' = splice buf off (le_bytes w v).
Proof.
  unfold writeUIntLE. repeat case_decide; intros Hw; inversion Hw; auto.
Qed.

Lemma writeUIntLE_in_range (w : nat) (buf : list byte) (v : Z) (off : nat) :
  0 <= v <= 2 ^ (8 * Z.of_nat w) - 1 -> (off + w <= length buf)%nat ->
  writeUIntLE w buf v off = Ok (splice buf off (le_bytes w v)).
Proof.
  intros Hv Hoff. unfold writeUIntLE. rewrite !decide_True by assumption.
  reflexivity.
Qed.

Lemma bind_Ok {A B} (m : result A) (f : A -> result B) (b : B) :
  m ≫= f = Ok b -> exists a, m = Ok a /\ f a = Ok b.
Proof. destruct m as [a|e]; simpl; [eauto | discriminate]. Qed.

(** The header that [writeWav] builds, field by field. *)
Lemma writeWav_Ok dir filePath pcmBuffer sampleRate channelCount dir' :
  writeWav dir filePath pcmBuffer sampleRate channelCount = Ok dir' ->
  let dataSize := Z.of_nat (length pcmBuffer) in
  (0 <= 36 + dataSize <= 2 ^ 32 - 1
   /\ 0 <= channelCount <= 2 ^ 16 - 1
   /\ 0 <= sampleRate <= 2 ^ 32 - 1
   /\ 0 <= sampleRate * channelCount * 2 <= 2 ^ 32 - 1
   /\ 0 <= channelCount * 2 <= 2 ^ 16 - 1)
  /\ dir' = <[filePath :=
       (String.list_byte_of_string "RIFF" ++ le_bytes 4 (36 + dataSize)
        ++ String.list_byte_of_string "WAVE"
        ++ String.list_byte_of_string "fmt " ++ le_bytes 4 16 ++ le_bytes 2 1
        ++ le_bytes 2 channelCount ++ le_bytes 4 sampleRate
        ++ le_bytes 4 (sampleRate * channelCount * 2)
        ++ le_bytes 2 (channelCount * 2) ++ le_bytes 2 16
        ++ String.list_byte_of_string "data" ++ le_bytes 4 dataSize)
       ++ pcmBuffer]> dir.
Proof.
  unfold writeWav, writeUInt32LE, writeUInt16LE.
  change (16 / 8) with 2. cbv zeta. intros Hw.
  repeat (apply bind_Ok in Hw as (? & E & Hw);
          apply writeUIntLE_Ok in E as [? ->]).
  inversion Hw; subst; clear Hw.
  split; [repeat split; lia|].
  f_equal. unfold Buffer_concat. simpl concat. rewrite app_nil_r.
  f_equal.
Qed.

Lemma writeWav_in_range dir filePath pcmBuffer sampleRate channelCount :
  0 <= sampleRate <= 2 ^ 32 - 1 -> 0 <= channelCount ->
  sampleRate * channelCount * 2 <= 2 ^ 32 - 1 ->
  channelCount * 2 <= 2 ^ 16 - 1 ->
  36 + Z.of_nat (length pcmBuffer) <= 2 ^ 32 - 1 ->
  exists dir', writeWav dir filePath pcmBuffer sampleRate channelCount = Ok dir'.
Proof.
  intros HR HC HRC HC2 HP.
  unfold writeWav, writeUInt32LE, writeUInt16LE.
  change (16 / 8) with 2. cbv zeta.
  repeat (rewrite writeUIntLE_in_range;
          [cbn [mbind result_bind]
          | change (2 ^ (8 * Z.of_nat 4) - 1) with (2 ^ 32 - 1);
            change (2 ^ (8 * Z.of_nat 2) - 1) with (2 ^ 16 - 1); nia
          | vm_compute; lia ]).
  eexists. reflexivity.
Qed.

(** C6. For every payload [P], sample rate [R] and channel count [C], the
    container that [writeWav] writes has a 44-byte header whose data-chunk
    length field is [len P], whose byte-rate field is [R * C * 2], whose
    block-align field is [C * 2] and whose file-size field is [36 + len P];
    the bytes after the header are [P], and decoding the container returns
    [P].  ([writeWav] writes a container whenever the fields fit their
    widths; otherwise Node's range-checked writes throw.) *)
Theorem writeWav_container dir filePath (P : list byte) (R C : Z) :
  (0 <= R <= 2 ^ 32 - 1 -> 0 <= C -> R * C * 2 <= 2 ^ 32 - 1 ->
   C * 2 <= 2 ^ 16 - 1 -> 36 + Z.of_nat (length P) <= 2 ^ 32 - 1 ->
   exists dir', writeWav dir filePath P R C = Ok dir')
  /\ forall dir', writeWav dir filePath P R C = Ok dir' ->
     exists file,
       dir' = <[filePath := file]> dir
       /\ length (wavHeader file) = 44%nat
       /\ readUInt32LE file 40 = Z.of_nat (length P)
       /\ readUInt32LE file 28 = R * C * 2
       /\ readUInt16LE file 32 = C * 2
       /\ readUInt32LE file 4 = 36 + Z.of_nat (length P)
       /\ drop 44 file = P
       /\ wavPayload file = P.
Proof.
  split; [apply writeWav_in_range|].
  intros dir' Hw. apply writeWav_Ok in Hw as [(HF & HC & HR & HB & HA) ->].
  eexists. split; [reflexivity|].
  assert (Hd : forall X : Z, 0 <= X <= 2 ^ 32 - 1 -> le_value (le_bytes 4 X) = X)
    by (intros; apply le_value_le_bytes_id; assumption).
  assert (Hs : forall X : Z, 0 <= X <= 2 ^ 16 - 1 -> le_value (le_bytes 2 X) = X)
    by (intros; apply le_value_le_bytes_id; assumption).
  unfold wavPayload, wavHeader, readUInt32LE, readUInt16LE, readUIntLE.
  repeat match goal with
  | |- context [String.list_byte_of_string ?s] =>
      let v := eval vm_compute in (String.list_byte_of_string s) in
      change (String.list_byte_of_string s) with v
  end.
  cbn [le_bytes app firstn skipn length]. cbn [le_bytes] in Hd, Hs.
  rewrite !Hd, !Hs by lia. rewrite Nat2Z.id, firstn_all.
  repeat split; reflexivity.
Qed.

(** ** The voice-activity gate *)

Lemma hasVoiceActivity_spec (pcmBuffer : list byte) :
  hasVoiceActivity pcmBuffer = true <->
  (0 < length (Int16Array pcmBuffer))%nat
  /\ 50 * Z.of_nat (length (Int16Array pcmBuffer)) < sumAbs (Int16Array pcmBuffer).
Proof.
  unfold hasVoiceActivity, avgEnergy, js_div, js_gt.
  destruct (Int16Array pcmBuffer) as [|s samples] eqn:E.
  - simpl. split; [discriminate | intros [Hn _]; inversion Hn].
  - destruct (Z.eqb_spec (Z.of_nat (length (s :: samples))) 0) as [H0|H0];
      [simpl in H0; lia|].
    destruct (Z.ltb_spec 0 (Z.of_nat (length (s :: samples)))) as [Hp|Hp];
      [|simpl in Hp; lia].
    rewrite Z.ltb_lt. simpl length. split; [intros; split; lia | intros [_ ?]; lia].
Qed.

Lemma sumAbs_from (samples : list Z) (s0 : Z) :
  fold_left (fun sum s => sum + Z.abs s) samples s0 = s0 + sumAbs samples.
Proof.
  unfold sumAbs. revert s0. induction samples as [|s samples IH]; intros s0.
  - simpl. lia.
  - cbn [fold_left]. rewrite IH, (IH (0 + Z.abs s)). lia.
Qed.

Lemma sumAbs_cons (s : Z) (samples : list Z) :
  sumAbs (s :: samples) = Z.abs s + sumAbs samples.
Proof. unfold sumAbs at 1. simpl. apply sumAbs_from. Qed.

Lemma sumAbs_nonneg (samples : list Z) : 0 <= sumAbs samples.
Proof.
  induction samples as [|s samples IH]; [unfold sumAbs; simpl; lia|].
  rewrite sumAbs_cons. lia.
Qed.

(** The 44 bytes of a header are 22 samples in front of those of the
    payload; the first of them is "RI", of magnitude 18770, so a container
    whose payload passes the gate passes it too. *)
Lemma hasVoiceActivity_container dir filePath pcmBuffer sampleRate channelCount dir' :
  writeWav dir filePath pcmBuffer sampleRate channelCount = Ok dir' ->
  hasVoiceActivity pcmBuffer = true ->
  exists file, dir' !! filePath = Some file /\ drop 44 file = pcmBuffer
    /\ length file = (44 + length pcmBuffer)%nat
    /\ hasVoiceActivity file = true.
Proof.
  intros Hw Hv. apply writeWav_Ok in Hw as [_ ->].
  eexists. split; [apply lookup_insert_eq|].
  repeat match goal with
  | |- context [String.list_byte_of_string ?s] =>
      let v := eval vm_compute in (String.list_byte_of_string s) in
      change (String.list_byte_of_string s) with v
  end.
  cbn [le_bytes app]. split; [reflexivity|]. split; [reflexivity|].
  apply hasVoiceActivity_spec in Hv as [Hn Hs].
  apply hasVoiceActivity_spec. cbn [Int16Array length].
  split; [lia|].
  rewrite !sumAbs_cons.
  change (Z.abs (int16_of "R" "I")) with 18770.
  repeat match goal with
  | |- context [Z.abs ?x] => pose proof (Z.abs_nonneg x); generalize dependent (Z.abs x); intros
  end.
  lia.
Qed.

Section Properties.
Context {RT : Runtime}.

(** ** The worker *)

Lemma processQueue_busy (t : Transcriber) (now : Z) :
  isProcessing t = true -> processQueue t now = t.
Proof. intros H. unfold processQueue. rewrite H. reflexivity. Qed.

Lemma processQueue_empty (t : Transcriber) (now : Z) :
  queue t = [] -> processQueue t now = t.
Proof. intros H. unfold processQueue. rewrite H. destruct (isProcessing t); reflexivity. Qed.

Lemma transcribeWithGroq_fields (t t' : Transcriber) (p : string) (a : awaiting) :
  transcribeWithGroq t p = (t', a) ->
  t' = t \/ exists file, tmpDir t !! p = Some file
                         /\ t' = set_gateLog (gateLog t ++ [file]) t.
Proof.
  unfold transcribeWithGroq, callGate.
  destruct (tmpDir t !! p) as [file|]; [|intros [= <- _]; auto].
  destruct (negb (hasVoiceActivity file)); intros [= <- _]; eauto.
Qed.

(** What a call of [processQueue] that starts a job does. *)
Lemma processQueue_start (t : Transcriber) (now : Z) (item : job) (rest : list job) :
  isProcessing t = false -> queue t = item :: rest ->
  let t' := processQueue t now in
  isProcessing t' = true /\ queue t' = rest
  /\ peers t' = peers t /\ heap t' = heap t /\ sessions t' = sessions t
  /\ provider t' = provider t /\ bufferDuration t' = bufferDuration t
  /\ transcriptsDir t' = transcriptsDir t /\ emitted t' = emitted t
  /\ unlinks t' = unlinks t
  /\ ((suspended t' = suspended t /\ rejections t' = S (rejections t)
       /\ gateLog t' = gateLog t
       /\ exists e, writeWav (tmpDir t) (wavPath_of item now) (job_audioBuffer item)
                      (job_sampleRate item) (job_channelCount item) = Throw e)
      \/ (exists a, suspended t' = suspended t ++
                      [{| act_item := item; act_wavPath := wavPath_of item now;
                          act_await := a |}]
           /\ rejections t' = rejections t
           /\ writeWav (tmpDir t) (wavPath_of item now) (job_audioBuffer item)
                (job_sampleRate item) (job_channelCount item) = Ok (tmpDir t'))).
Proof.
  intros Hp Hq t'. subst t'. unfold processQueue. rewrite Hp, Hq.
  fold (wavPath_of item now). cbn [tmpDir set_queue set_isProcessing].
  destruct (writeWav _ _ _ _ _) as [dir|e] eqn:Hw.
  - destruct (String.eqb _ _).
    + destruct (transcribeWithGroq _ _) as [t1 a] eqn:Hg.
      apply transcribeWithGroq_fields in Hg as [-> | (file & _ & ->)];
        cbn; repeat split; right; exists a; repeat split.
    + cbn. repeat split. right. eexists. repeat split.
  - cbn. repeat split. left. repeat split. eauto.
Qed.

Lemma processQueue_inv (t : Transcriber) (now : Z) :
  (length (suspended t) <= 1)%nat ->
  (isProcessing t = false -> suspended t = []) ->
  (length (queue t) <= 3)%nat ->
  worker_inv (processQueue t now).
Proof.
  intros Hs Hi Hq. destruct (isProcessing t) eqn:Hp.
  - rewrite processQueue_busy by assumption.
    unfold worker_inv. rewrite Hp. repeat split; auto; discriminate.
  - destruct (queue t) as [|item rest] eqn:Eq.
    + rewrite processQueue_empty by assumption.
      unfold worker_inv. rewrite Eq. repeat split; auto.
    + destruct (processQueue_start t now item rest Hp Eq)
        as (Hp' & Hq' & _ & _ & _ & _ & _ & _ & _ & _ & Hsus).
      unfold worker_inv. rewrite Hp', Hq'. rewrite Hi in Hsus by reflexivity.
      simpl in Hq.
      destruct Hsus as [(-> & _) | (a & -> & _)]; simpl;
        repeat split; try lia; discriminate.
Qed.

(** The fields that [processQueue] never touches. *)
Lemma processQueue_frame (t : Transcriber) (now : Z) :
  let t' := processQueue t now in
  peers t' = peers t /\ heap t' = heap t /\ sessions t' = sessions t
  /\ provider t' = provider t /\ bufferDuration t' = bufferDuration t
  /\ transcriptsDir t' = transcriptsDir t /\ emitted t' = emitted t
  /\ unlinks t' = unlinks t.
Proof.
  intros t'. subst t'. destruct (isProcessing t) eqn:Hp.
  - rewrite processQueue_busy by assumption. repeat split.
  - destruct (queue t) as [|item rest] eqn:Eq.
    + rewrite processQueue_empty by assumption. repeat split.
    + destruct (processQueue_start t now item rest Hp Eq)
        as (_ & _ & ? & ? & ? & ? & ? & ? & ? & ? & _).
      repeat split; assumption.
Qed.

(** ** Sessions and peers leave the worker alone *)

Lemma same_worker_inv (t t' : Transcriber) :
  same_worker t t' -> worker_inv t -> worker_inv t'.
Proof.
  unfold same_worker, worker_inv. intros (-> & -> & -> & _) H. exact H.
Qed.

Lemma startSession_worker (t : Transcriber) (roomId : string) (now : Z) :
  same_worker t (startSession t roomId now).1.
Proof.
  unfold startSession. destruct (sessions t !! roomId); repeat split.
Qed.

Lemma endSession_worker (t : Transcriber) (roomId : string) (now : Z) :
  same_worker t (endSession t roomId now).
Proof.
  unfold endSession. destruct (sessions t !! roomId); repeat split.
Qed.

Lemma saveTranscription_worker (t : Transcriber) (roomId userId text : string)
    (timestamp : Z) :
  same_worker t (saveTranscription t roomId userId text timestamp).
Proof.
  unfold saveTranscription. destruct (sessions t !! roomId); repeat split.
Qed.

Lemma createPeer_worker (t : Transcriber) (socketId roomId : string)
    (userId : option string) (now : Z) :
  same_worker t (createPeer t socketId roomId userId now).
Proof.
  unfold createPeer. destruct (roomHasPeers t roomId); [repeat split|].
  destruct (startSession_worker t roomId now) as (? & ? & ? & ? & ? & ?).
  repeat split; assumption.
Qed.

Lemma removePeer_worker (t : Transcriber) (socketId : string) (now : Z) :
  same_worker t (removePeer t socketId now).
Proof.
  unfold removePeer. destruct (peers t !! socketId) as [id|]; [|repeat split].
  destruct (heap t !! id) as [peerData|]; [|repeat split].
  destruct (roomHasPeers _ _); [repeat split|].
  match goal with
  | |- same_worker _ (endSession ?u ?r ?n) =>
      destruct (endSession_worker u r n) as (? & ? & ? & ? & ? & ?)
  end.
  repeat split; assumption.
Qed.

Lemma run_unlink_worker (t : Transcriber) (k : nat) :
  same_worker t (run_unlink t k).
Proof. unfold run_unlink. destruct (unlinks t !! k); repeat split. Qed.

Lemma processQueue_try_worker (t : Transcriber) (item : job)
    (transcript : result string) (now : Z) :
  same_worker t (processQueue_try t item transcript now).
Proof.
  unfold processQueue_try. destruct transcript as [s|e]; [|repeat split].
  destruct (truthy s && truthy (trim s)); [|repeat split].
  unfold emit_transcription.
  match goal with
  | |- same_worker _ (set_emitted _ (saveTranscription ?u ?r ?w ?x ?n)) =>
      destruct (saveTranscription_worker u r w x n) as (? & ? & ? & ? & ? & ?)
  end.
  repeat split; assumption.
Qed.

(** ** The invariant of the worker holds in every state *)

Lemma queueTranscription_inv (t : Transcriber) (socketId : string) (id : nat)
    (now : Z) :
  worker_inv t -> worker_inv (queueTranscription t socketId id now).
Proof.
  intros Hinv. pose proof Hinv as (Hs & Hi & Hq).
  unfold queueTranscription.
  destruct (heap t !! id) as [peerData|]; [|assumption].
  destruct (pd_buffer peerData) as [|chunk chunks]; [assumption|].
  unfold callGate. destruct (negb (hasVoiceActivity _)); [exact Hinv|].
  apply processQueue_inv.
  - destruct (3 <=? length (queue _))%nat; exact Hs.
  - destruct (3 <=? length (queue _))%nat; cbn; intros H; apply Hi in H; tauto.
  - cbn [queue set_queue set_gateLog set_heap].
    destruct (Nat.leb_spec 3 (length (queue t))); cbn [queue set_queue set_gateLog set_heap];
      rewrite length_app; simpl; [|lia].
    destruct (queue t); simpl in *; lia.
Qed.

Lemma ondata_inv (t : Transcriber) (socketId : string) (id : nat)
    (data : audioData) (now : Z) :
  worker_inv t -> worker_inv (ondata t socketId id data now).
Proof.
  intros Hinv. unfold ondata.
  destruct (heap t !! id) as [peerData|]; [|assumption].
  destruct (num_ge _ _); [apply queueTranscription_inv|]; exact Hinv.
Qed.

Lemma processQueue_resume_inv (t : Transcriber) (i : nat) (o : providerOutcome)
    (now now' : Z) :
  worker_inv t -> worker_inv (processQueue_resume t i o now now').
Proof.
  intros Hinv. pose proof Hinv as (Hs & Hi & Hq).
  unfold processQueue_resume.
  destruct (suspended t !! i) as [a|] eqn:Ea; [|assumption].
  destruct (settle _ _) as [transcript|]; [|assumption].
  assert (Hdel : delete i (suspended t) = []).
  { destruct (suspended t) as [|a0 [|a1 l]]; simpl in *; try lia;
      [discriminate|]. destruct i; [reflexivity|discriminate]. }
  rewrite Hdel.
  match goal with
  | |- worker_inv (processQueue (processQueue_finally
                     (processQueue_try ?u ?it ?tr ?n) ?a) ?n') =>
      destruct (processQueue_try_worker u it tr n) as (Hp1 & Hq1 & Hs1 & _)
  end.
  apply processQueue_inv; unfold processQueue_finally; cbn.
  - rewrite Hs1. cbn. lia.
  - intros _. rewrite Hs1. reflexivity.
  - rewrite Hq1. exact Hq.
Qed.

Lemma step_inv (t : Transcriber) (e : event) :
  worker_inv t -> worker_inv (step t e).
Proof.
  destruct e as [socketId roomId userId now | socketId now
                | socketId id data now | i o now now' | k]; cbn [step].
  - apply same_worker_inv, createPeer_worker.
  - apply same_worker_inv, removePeer_worker.
  - apply ondata_inv.
  - apply processQueue_resume_inv.
  - apply same_worker_inv, run_unlink_worker.
Qed.

Lemma run_inv (es : list event) (t : Transcriber) :
  worker_inv t -> worker_inv (run t es).
Proof.
  revert t. induction es as [|e es IH]; intros t Hinv; [exact Hinv|].
  apply IH, step_inv, Hinv.
Qed.

Lemma new_Transcriber_inv (TP GK : option string) (tmp transcripts : gmap string (list byte)) :
  worker_inv (new_Transcriber TP GK tmp transcripts).
Proof. unfold worker_inv. cbn. repeat split; lia. Qed.

Lemma reachable_inv (TP GK : option string) (tmp transcripts : gmap string (list byte))
    (es : list event) :
  worker_inv (run (new_Transcriber TP GK tmp transcripts) es).
Proof. apply run_inv, new_Transcriber_inv. Qed.

Lemma delete_only (i : nat) (a : activation) (l : list activation) :
  (length l <= 1)%nat -> l !! i = Some a -> delete i l = [] /\ l = [a].
Proof.
  intros Hl Hi. destruct l as [|a0 [|a1 l]]; simpl in *; try lia; [discriminate|].
  destruct i; [|discriminate]. inversion Hi. auto.
Qed.

(** C1. In every state the event loop can reach, at most one provider call
    is in flight; [processQueue] starts nothing while [isProcessing] is set;
    and the handler that runs when the awaited call settles, with a result
    or with an error, takes the next queued job within that same handler. *)
Theorem single_flight (TP GK : option string)
    (tmp transcripts : gmap string (list byte)) (es : list event) :
  let t := run (new_Transcriber TP GK tmp transcripts) es in
  (inFlight t <= 1)%nat
  /\ (forall (u : Transcriber) (now : Z),
        isProcessing u = true -> processQueue u now = u)
  /\ (forall (i : nat) (a : activation) (o : providerOutcome)
             (transcript : result string) (now now' : Z),
        suspended t !! i = Some a ->
        settle (act_await a) o = Some transcript ->
        let t' := step t (EvSettled i o now now') in
        match queue t with
        | [] => isProcessing t' = false /\ suspended t' = [] /\ queue t' = []
        | next :: rest =>
            isProcessing t' = true /\ queue t' = rest
            /\ ((exists aw,
                   suspended t' =
                     [{| act_item := next; act_wavPath := wavPath_of next now';
                         act_await := aw |}])
                \/ (suspended t' = []
                    /\ exists e,
                         writeWav (tmpDir t) (wavPath_of next now')
                           (job_audioBuffer next) (job_sampleRate next)
                           (job_channelCount next) = Throw e))
        end).
Proof.
  intros t. pose proof (reachable_inv TP GK tmp transcripts es) as Hinv.
  fold t in Hinv. destruct Hinv as (Hs & Hi & Hq).
  split; [|split].
  - unfold inFlight. etransitivity; [apply length_filter|exact Hs].
  - apply processQueue_busy.
  - intros i a o transcript now now' Ha Hset t'. subst t'.
    cbn [step]. unfold processQueue_resume. rewrite Ha, Hset.
    destruct (delete_only i a _ Hs Ha) as [-> _].
    set (u := processQueue_try (set_suspended [] t) (act_item a) transcript now).
    destruct (processQueue_try_worker (set_suspended [] t) (act_item a)
                transcript now) as (Hp1 & Hq1 & Hs1 & _).
    fold u in Hp1, Hq1, Hs1. cbn in Hp1, Hq1, Hs1.
    set (v := processQueue_finally u a).
    assert (Hvp : isProcessing v = false) by reflexivity.
    assert (Hvq : queue v = queue t) by (cbn; exact Hq1).
    assert (Hvs : suspended v = []) by (cbn; exact Hs1).
    assert (Hvd : tmpDir v = tmpDir t).
    { subst v u. unfold processQueue_finally, processQueue_try, emit_transcription,
        saveTranscription, writeTranscript. cbn.
      destruct transcript as [s|e]; [|reflexivity].
      destruct (truthy s && truthy (trim s)); [|reflexivity].
      cbn. destruct (sessions t !! _); reflexivity. }
    destruct (queue t) as [|next rest] eqn:Eq.
    + rewrite processQueue_empty by assumption. auto.
    + destruct (processQueue_start v now' next rest Hvp Hvq)
        as (Hp' & Hq' & _ & _ & _ & _ & _ & _ & _ & _ & Hsus).
      rewrite Hvs, Hvd in Hsus. split; [exact Hp'|]. split; [exact Hq'|].
      destruct Hsus as [(-> & _ & _ & e & He) | (aw & -> & _)]; eauto.
Qed.

(** C2. The queue never holds more than three jobs, whatever the sequence
    of events; and a flush that passes the gate while three jobs are queued
    removes the oldest of them, keeps the other two in their order, and
    puts the new job last. *)
Theorem queue_bounded_drop_oldest (TP GK : option string)
    (tmp transcripts : gmap string (list byte)) (es : list event) :
  let t := run (new_Transcriber TP GK tmp transcripts) es in
  (length (queue t) <= 3)%nat
  /\ forall (socketId : string) (id : nat) (now : Z) (peerData : peerData),
       heap t !! id = Some peerData ->
       pd_buffer peerData <> [] ->
       hasVoiceActivity (Buffer_concat (pd_buffer peerData)) = true ->
       length (queue t) = 3%nat ->
       exists oldest rest,
         queue t = oldest :: rest
         /\ queue (queueTranscription t socketId id now)
            = rest ++ [job_of socketId peerData (Buffer_concat (pd_buffer peerData))].
Proof.
  intros t. pose proof (reachable_inv TP GK tmp transcripts es) as Hinv.
  fold t in Hinv. destruct Hinv as (Hs & Hi & Hq).
  split; [exact Hq|].
  intros socketId id now peerData Hh Hb Hv Hl.
  destruct (queue t) as [|oldest rest] eqn:Eq; [discriminate|].
  exists oldest, rest. split; [reflexivity|].
  assert (Hp : isProcessing t = true).
  { destruct (isProcessing t); [reflexivity|].
    destruct Hi as [_ Hi]; [reflexivity|]. rewrite Hi in Eq. discriminate. }
  unfold queueTranscription. rewrite Hh.
  destruct (pd_buffer peerData) as [|chunk chunks] eqn:Eb; [congruence|].
  unfold callGate. rewrite Hv. cbn [negb].
  cbn [queue set_gateLog set_heap]. rewrite Eq, Hl. cbn [Nat.leb].
  rewrite processQueue_busy by exact Hp. reflexivity.
Qed.

(** ** Sessions *)

Lemma key_filter_absent {V : Type} (k : string) (l : list (string * V)) :
  k ∉ l.*1 -> filter (fun kv => kv.1 = k) l = [].
Proof.
  induction l as [|[k' v] l IH]; intros Hk; [reflexivity|].
  cbn [fmap list_fmap fst] in Hk. apply not_elem_of_cons in Hk as [Hne Hk].
  rewrite filter_cons. cbn [fst]. rewrite decide_False by congruence.
  apply IH, Hk.
Qed.

Lemma key_filter_NoDup {V : Type} (k : string) (l : list (string * V)) :
  NoDup l.*1 -> (length (filter (fun kv => kv.1 = k) l) <= 1)%nat.
Proof.
  induction l as [|[k' v] l IH]; intros Hnd; [simpl; lia|].
  cbn [fmap list_fmap fst] in Hnd. apply NoDup_cons in Hnd as [Hk Hnd].
  rewrite filter_cons. cbn [fst]. destruct (decide (k' = k)) as [->|Hne].
  - rewrite key_filter_absent by exact Hk. simpl. lia.
  - apply IH, Hnd.
Qed.

(** C8. [startSession] on a room whose session is open returns that
    session and leaves the whole state, and so every file, as it is;
    opening a room twice is the same as opening it once; and the open
    sessions of a room id are never more than one. *)
Theorem startSession_idempotent (t : Transcriber) (roomId : string) (now now' : Z) :
  (forall s : session,
     sessions t !! roomId = Some s -> startSession t roomId now = (t, s))
  /\ startSession (startSession t roomId now).1 roomId now'
     = startSession t roomId now
  /\ (length (filter (fun kv => kv.1 = roomId) (map_to_list (sessions t))) <= 1)%nat.
Proof.
  split; [|split].
  - intros s Hs. unfold startSession. rewrite Hs. reflexivity.
  - unfold startSession at 2 3. destruct (sessions t !! roomId) as [s|] eqn:Es.
    + cbn [fst]. unfold startSession. rewrite Es. reflexivity.
    + cbn [fst]. unfold startSession. cbn [sessions set_sessions writeTranscript
        set_transcriptsDir]. rewrite lookup_insert_eq. reflexivity.
  - apply key_filter_NoDup, NoDup_fst_map_to_list.
Qed.

Lemma saveTranscription_closed (t : Transcriber) (roomId userId text : string)
    (timestamp : Z) :
  sessions t !! roomId = None ->
  saveTranscription t roomId userId text timestamp = t.
Proof. intros H. unfold saveTranscription. rewrite H. reflexivity. Qed.

(** C9. When the awaited call of a job settles with a transcript that is
    not blank and the room of the job has no open session, the transcript
    is emitted to the room and nothing is persisted: [saveTranscription]
    returns the state as it is, and neither the sessions nor the transcript
    files change. *)
Theorem broadcast_without_session (t : Transcriber) (i : nat) (a : activation)
    (o : providerOutcome) (transcript : string) (now now' : Z) :
  suspended t !! i = Some a ->
  settle (act_await a) o = Some (Ok transcript) ->
  truthy transcript && truthy (trim transcript) = true ->
  sessions t !! job_roomId (act_item a) = None ->
  let item := act_item a in
  let t' := step t (EvSettled i o now now') in
  emitted t' = emitted t ++
    [(job_roomId item,
      {| msg_userId := job_userId item; msg_text := trim transcript;
         msg_timestamp := now |})]
  /\ sessions t' = sessions t
  /\ transcriptsDir t' = transcriptsDir t
  /\ saveTranscription t (job_roomId item) (job_userId item) (trim transcript) now = t.
Proof.
  intros Ha Hset Htr Hroom item t'. subst t' item.
  cbn [step]. unfold processQueue_resume. rewrite Ha, Hset.
  match goal with
  | |- context [processQueue ?u now'] =>
      destruct (processQueue_frame u now') as (_ & _ & -> & _ & _ & -> & -> & _)
  end.
  unfold processQueue_finally, processQueue_try. rewrite Htr.
  rewrite saveTranscription_closed by exact Hroom.
  rewrite saveTranscription_closed by exact Hroom.
  repeat split.
Qed.

(** ** Provider failures *)

Lemma settle_failed (a : awaiting) (o : providerOutcome) (r : result string) :
  match a with AwaitSettled _ => False | _ => True end ->
  failed o = true -> settle a o = Some r -> r = Throw ProviderError.
Proof.
  destruct a as [r0| |]; intros Hcall Hf Hs; [contradiction| |];
    destruct o as [s| |code txt|]; simpl in *; try discriminate;
    try (inversion Hs; reflexivity).
  unfold whisper_close in Hs. rewrite Hf in Hs. inversion Hs. reflexivity.
Qed.

(** C5. When the provider call of a job fails, the awaited promise rejects
    and the error stays in the handler: the job is removed, its temporary
    file is handed to [unlink], nothing is saved or emitted for it, nothing
    is put back on the queue, and the same handler goes on to the next
    queued job. *)
Theorem provider_failure_dropped (t : Transcriber) (i : nat) (a : activation)
    (o : providerOutcome) (r : result string) (now now' : Z) :
  suspended t !! i = Some a ->
  isProviderCall a = true ->
  failed o = true ->
  settle (act_await a) o = Some r ->
  let t' := step t (EvSettled i o now now') in
  r = Throw ProviderError
  /\ t' = processQueue
            (set_isProcessing false
               (set_unlinks (unlinks t ++ [act_wavPath a])
                  (set_suspended (delete i (suspended t)) t))) now'
  /\ sessions t' = sessions t
  /\ transcriptsDir t' = transcriptsDir t
  /\ emitted t' = emitted t
  /\ queue t' = tail (queue t)
  /\ (queue t <> [] -> isProcessing t' = true).
Proof.
  intros Ha Hcall Hf Hset t'. subst t'.
  assert (Hr : r = Throw ProviderError).
  { eapply settle_failed; [|exact Hf|exact Hset].
    unfold isProviderCall in Hcall. destruct (act_await a); [discriminate|exact I..]. }
  subst r. split; [reflexivity|].
  cbn [step]. unfold processQueue_resume. rewrite Ha, Hset.
  unfold processQueue_try, processQueue_finally.
  split; [reflexivity|].
  set (u := set_isProcessing false _).
  destruct (processQueue_frame u now') as (_ & _ & -> & _ & _ & -> & -> & _).
  split; [reflexivity|]. split; [reflexivity|]. split; [reflexivity|].
  destruct (queue t) as [|next rest] eqn:Eq.
  - rewrite processQueue_empty by exact Eq. split; [exact Eq|congruence].
  - destruct (processQueue_start u now' next rest eq_refl Eq) as (Hp' & Hq' & _).
    split; [exact Hq'|intros _; exact Hp'].
Qed.

(** ** The per-peer buffer *)

Lemma queueTranscription_heap (t : Transcriber) (socketId : string) (id : nat)
    (now : Z) (peerData : peerData) :
  heap t !! id = Some peerData -> pd_buffer peerData <> [] ->
  let t' := queueTranscription t socketId id now in
  heap t' = <[id :=
    {| pd_buffer := []; pd_bufferDuration := num_of_Z 0;
       pd_userId := pd_userId peerData; pd_roomId := pd_roomId peerData;
       pd_sampleRate := pd_sampleRate peerData;
       pd_channelCount := pd_channelCount peerData |}]> (heap t)
  /\ bufferDuration t' = bufferDuration t.
Proof.
  intros Hh Hb t'. subst t'. unfold queueTranscription. rewrite Hh.
  destruct (pd_buffer peerData) as [|chunk chunks] eqn:Eb; [congruence|].
  unfold callGate. destruct (negb (hasVoiceActivity _)); [split; reflexivity|].
  match goal with
  | |- context [processQueue ?u now] =>
      destruct (processQueue_frame u now) as (_ & -> & _ & _ & -> & _)
  end.
  destruct (3 <=? length (queue _))%nat; split; reflexivity.
Qed.

Lemma ondata_below (t : Transcriber) (socketId : string) (id : nat)
    (data : audioData) (now : Z) (peerData : peerData) :
  heap t !! id = Some peerData ->
  num_ge (accumulate (pd_bufferDuration peerData) [data]) (bufferDuration t) = false ->
  let t' := ondata t socketId id data now in
  flushed t' id = false
  /\ bufferDuration t' = bufferDuration t
  /\ exists peerData',
       heap t' !! id = Some peerData'
       /\ pd_bufferDuration peerData' = accumulate (pd_bufferDuration peerData) [data].
Proof.
  intros Hh Hge t'. subst t'. unfold ondata. rewrite Hh.
  cbn [accumulate fold_left] in Hge. cbn [pd_bufferDuration bufferDuration set_heap].
  rewrite Hge. unfold flushed. cbn [heap set_heap bufferDuration].
  rewrite list_lookup_insert_eq by (eapply lookup_lt_Some; exact Hh).
  cbn [pd_buffer]. split; [destruct (pd_buffer peerData); reflexivity|].
  split; [reflexivity|]. eexists. split; reflexivity.
Qed.

Lemma ondata_reaches (t : Transcriber) (socketId : string) (id : nat)
    (data : audioData) (now : Z) (peerData : peerData) :
  heap t !! id = Some peerData ->
  num_ge (accumulate (pd_bufferDuration peerData) [data]) (bufferDuration t) = true ->
  let t' := ondata t socketId id data now in
  flushed t' id = true
  /\ exists peerData',
       heap t' !! id = Some peerData'
       /\ pd_buffer peerData' = []
       /\ pd_bufferDuration peerData' = num_of_Z 0.
Proof.
  intros Hh Hge t'. subst t'. unfold ondata. rewrite Hh.
  cbn [accumulate fold_left] in Hge. cbn [pd_bufferDuration bufferDuration set_heap].
  rewrite Hge.
  assert (Hlt : (id < length (heap t))%nat) by (eapply lookup_lt_Some; exact Hh).
  match goal with
  | |- context [queueTranscription ?u socketId id now] =>
      edestruct (queueTranscription_heap u socketId id now) as [Hheap _]
  end.
  { cbn [heap set_heap]. apply list_lookup_insert_eq. exact Hlt. }
  { cbn [pd_buffer]. intros Hnil. apply app_eq_nil in Hnil as [_ Hnil]. discriminate. }
  unfold flushed. rewrite Hheap. cbn [heap set_heap].
  rewrite list_lookup_insert_eq by (rewrite length_insert; exact Hlt).
  cbn. split; [reflexivity|]. eexists. repeat split.
Qed.

(** C7. When frames are delivered to a session and the accumulated duration
    first reaches the threshold at the last of them, the session flushes
    once, at that last frame, and the flush leaves an empty buffer and a
    duration of zero. *)
Theorem flush_once_at_threshold (t : Transcriber) (socketId : string) (id : nat)
    (peerData : peerData) (frames : list (audioData * Z)) (last : audioData * Z) :
  heap t !! id = Some peerData ->
  (forall k : nat, (0 < k <= length frames)%nat ->
     num_ge (accumulate (pd_bufferDuration peerData) (take k frames.*1))
            (bufferDuration t) = false) ->
  num_ge (accumulate (pd_bufferDuration peerData) (frames.*1 ++ [last.1]))
         (bufferDuration t) = true ->
  flushes t socketId id frames = 0%nat
  /\ flushes t socketId id (frames ++ [last]) = 1%nat
  /\ exists peerData',
       heap (deliver t socketId id (frames ++ [last])) !! id = Some peerData'
       /\ pd_buffer peerData' = []
       /\ pd_bufferDuration peerData' = num_of_Z 0.
Proof.
  revert t peerData. induction frames as [|[data now] frames IH];
    intros t peerData Hh Hbelow Hreach.
  - destruct last as [data now]. cbn [fmap list_fmap app fst] in Hreach.
    destruct (ondata_reaches t socketId id data now peerData Hh Hreach)
      as (Hfl & peerData' & Hh' & Hb' & Hd').
    cbn [flushes app]. rewrite Hfl. split; [reflexivity|]. split; [reflexivity|].
    exists peerData'. unfold deliver. cbn. auto.
  - assert (H1 : num_ge (accumulate (pd_bufferDuration peerData) [data])
                        (bufferDuration t) = false).
    { apply (Hbelow 1%nat). simpl. lia. }
    destruct (ondata_below t socketId id data now peerData Hh H1)
      as (Hfl & Hthr & peerData1 & Hh1 & Hd1).
    destruct (IH (ondata t socketId id data now) peerData1 Hh1) as (F0 & F1 & Hpost).
    + intros k Hk. rewrite Hthr, Hd1. apply (Hbelow (S k)). simpl. lia.
    + rewrite Hthr, Hd1. exact Hreach.
    + cbn [flushes app]. rewrite Hfl, F0, F1. split; [reflexivity|]. split; [reflexivity|]. exact Hpost.
Qed.

(** ** Empty segments *)

Lemma Int16Array_length_div2 (pcmBuffer : list byte) :
  length (Int16Array pcmBuffer) = Nat.div2 (length pcmBuffer)
  /\ forall b : byte,
       length (Int16Array (b :: pcmBuffer)) = Nat.div2 (S (length pcmBuffer)).
Proof.
  induction pcmBuffer as [|b0 rest [IH1 IH2]]; [split; reflexivity|].
  split; [apply IH2|]. intros b. cbn [Int16Array length Nat.div2]. rewrite IH1.
  reflexivity.
Qed.

(** C10. [hasVoiceActivity] returns a decision for every buffer: it compares
    the mean of the absolute values of the [length / 2] samples with 50.  On
    the empty buffer the mean is 0 / 0, that is [NaN], the comparison is
    false, and a flush whose segment is empty puts no job on the queue. *)
Theorem empty_segment_rejected :
  (forall pcmBuffer : list byte,
     length (Int16Array pcmBuffer) = (length pcmBuffer / 2)%nat
     /\ hasVoiceActivity pcmBuffer
        = js_gt (js_div (sumAbs (Int16Array pcmBuffer))
                        (Z.of_nat (length pcmBuffer / 2))) 50)
  /\ avgEnergy [] = JNaN
  /\ hasVoiceActivity [] = false
  /\ forall (t : Transcriber) (socketId : string) (id : nat) (now : Z)
            (peerData : peerData),
       heap t !! id = Some peerData ->
       Buffer_concat (pd_buffer peerData) = [] ->
       queue (queueTranscription t socketId id now) = queue t
       /\ suspended (queueTranscription t socketId id now) = suspended t.
Proof.
  split; [|split; [reflexivity|split; [reflexivity|]]].
  - intros pcmBuffer.
    assert (Hlen : length (Int16Array pcmBuffer) = (length pcmBuffer / 2)%nat).
    { rewrite <- Nat.div2_div. apply Int16Array_length_div2. }
    split; [exact Hlen|]. unfold hasVoiceActivity, avgEnergy. rewrite Hlen. reflexivity.
  - intros t socketId id now peerData Hh Hnil.
    unfold queueTranscription. rewrite Hh.
    destruct (pd_buffer peerData) as [|chunk chunks]; [split; reflexivity|].
    unfold callGate. rewrite Hnil. cbn. split; reflexivity.
Qed.

(** ** The gate and the worker *)

Lemma gated_mono (t t' : Transcriber) :
  (forall j, j ∈ jobs_of t' -> j ∈ jobs_of t) ->
  (forall b, b ∈ gateLog t -> b ∈ gateLog t') ->
  gated t -> gated t'.
Proof.
  unfold gated. rewrite !Forall_forall. intros Hj Hl H j Hin.
  destruct (H j (Hj j Hin)) as [Hv Hlog]. split; [exact Hv|apply Hl, Hlog].
Qed.

Lemma same_worker_gated (t t' : Transcriber) :
  same_worker t t' -> gated t -> gated t'.
Proof.
  intros (_ & Hq & Hs & _ & _ & Hl). apply gated_mono.
  - unfold jobs_of. rewrite Hq, Hs. auto.
  - rewrite Hl. auto.
Qed.

(** The worker starting a job, provider by provider. *)
Lemma processQueue_gate (u : Transcriber) (now : Z) (item : job) (rest : list job)
    (dir' : gmap string (list byte)) :
  isProcessing u = false -> queue u = item :: rest ->
  writeWav (tmpDir u) (wavPath_of item now) (job_audioBuffer item)
           (job_sampleRate item) (job_channelCount item) = Ok dir' ->
  let u' := processQueue u now in
  if String.eqb (provider u) "groq" then
    exists file,
      dir' !! wavPath_of item now = Some file
      /\ gateLog u' = gateLog u ++ [file]
      /\ suspended u' = suspended u ++
           [{| act_item := item; act_wavPath := wavPath_of item now;
               act_await := if hasVoiceActivity file then AwaitGroq
                            else AwaitSettled (Ok ""%string) |}]
  else
    gateLog u' = gateLog u
    /\ suspended u' = suspended u ++
         [{| act_item := item; act_wavPath := wavPath_of item now;
             act_await := AwaitWhisper |}].
Proof.
  intros Hp Hq Hw u'. subst u'. unfold processQueue. rewrite Hp, Hq.
  fold (wavPath_of item now). cbn [tmpDir set_queue set_isProcessing].
  rewrite Hw. cbn [provider set_tmpDir set_queue set_isProcessing].
  destruct (String.eqb (provider u) "groq").
  - assert (Hlook : exists file, dir' !! wavPath_of item now = Some file).
    { apply writeWav_Ok in Hw as [_ ->]. eexists. apply lookup_insert_eq. }
    destruct Hlook as [file Hlook]. exists file. split; [exact Hlook|].
    unfold transcribeWithGroq, callGate. cbn [tmpDir set_tmpDir].
    rewrite Hlook. destruct (hasVoiceActivity file); cbn; split; reflexivity.
  - cbn. split; reflexivity.
Qed.

Lemma processQueue_gated (u : Transcriber) (now : Z) :
  gated u -> gated (processQueue u now).
Proof.
  destruct (isProcessing u) eqn:Hp;
    [rewrite processQueue_busy by assumption; auto|].
  destruct (queue u) as [|item rest] eqn:Eq;
    [rewrite processQueue_empty by assumption; auto|].
  destruct (processQueue_start u now item rest Hp Eq)
    as (_ & Hq' & _ & _ & _ & _ & _ & _ & _ & _ & Hsus).
  destruct Hsus as [(Hs' & _ & Hl' & _) | (a & Hs' & _ & Hw)].
  - apply gated_mono.
    + unfold jobs_of. rewrite Hq', Hs', Eq. intros j Hin.
      rewrite <- app_comm_cons. apply elem_of_cons. right. exact Hin.
    + rewrite Hl'. auto.
  - apply gated_mono.
    + unfold jobs_of. rewrite Hq', Hs', Eq, fmap_app. cbn [fmap list_fmap act_item].
      intros j Hin. rewrite <- app_comm_cons. apply elem_of_cons.
      apply elem_of_app in Hin as [Hin | Hin]; [right; apply elem_of_app; auto|].
      apply elem_of_app in Hin as [Hin | Hin]; [right; apply elem_of_app; auto|].
      apply list_elem_of_singleton in Hin. auto.
    + pose proof (processQueue_gate u now item rest _ Hp Eq Hw) as Hg.
      cbv zeta in Hg. destruct (String.eqb _ _).
      * destruct Hg as (file & _ & -> & _). intros b Hb. apply elem_of_app. auto.
      * destruct Hg as [-> _]. auto.
Qed.

(** [queueTranscription] on a session whose buffer is not empty, step by
    step: reset, gate, drop the oldest job when three are queued, push,
    and call the worker. *)
Lemma queueTranscription_flush (t : Transcriber) (socketId : string) (id : nat)
    (now : Z) (peerData : peerData) :
  heap t !! id = Some peerData -> pd_buffer peerData <> [] ->
  let payload := Buffer_concat (pd_buffer peerData) in
  let t1 := set_gateLog (gateLog t ++ [payload])
              (set_heap (<[id := reset_buffer peerData]> (heap t)) t) in
  queueTranscription t socketId id now =
    if hasVoiceActivity payload then
      processQueue
        (set_queue
           ((if (3 <=? length (queue t))%nat then tail (queue t) else queue t)
            ++ [job_of socketId peerData payload]) t1) now
    else t1.
Proof.
  intros Hh Hb payload t1. subst payload t1. unfold queueTranscription. rewrite Hh.
  destruct (pd_buffer peerData) as [|chunk chunks] eqn:Eb; [congruence|].
  unfold callGate. destruct (hasVoiceActivity _); cbn [negb]; [|reflexivity].
  cbn [queue set_gateLog set_heap].
  destruct (3 <=? length (queue t))%nat; reflexivity.
Qed.

Lemma queueTranscription_gated (t : Transcriber) (socketId : string) (id : nat)
    (now : Z) :
  gated t -> gated (queueTranscription t socketId id now).
Proof.
  intros Hg.
  destruct (heap t !! id) as [peerData|] eqn:Hh;
    [|unfold queueTranscription; rewrite Hh; exact Hg].
  destruct (pd_buffer peerData) as [|chunk chunks] eqn:Eb;
    [unfold queueTranscription; rewrite Hh, Eb; exact Hg|].
  rewrite (queueTranscription_flush t socketId id now peerData Hh)
    by (rewrite Eb; discriminate).
  cbv zeta. rewrite Eb.
  destruct (hasVoiceActivity _) eqn:Hv.
  - apply processQueue_gated. unfold gated, jobs_of in *.
    cbn [queue suspended gateLog set_queue set_gateLog set_heap].
    rewrite Forall_forall in *. intros j Hin.
    apply elem_of_app in Hin as [Hin | Hin];
      [apply elem_of_app in Hin as [Hin | Hin]|].
    + assert (Hold : j ∈ queue t).
      { destruct (3 <=? length (queue t))%nat; [|exact Hin].
        destruct (queue t); [exact Hin|]. apply elem_of_cons. right. exact Hin. }
      destruct (Hg j) as [? ?]; [apply elem_of_app; auto|].
      split; [assumption|apply elem_of_app; auto].
    + apply list_elem_of_singleton in Hin. subst j. cbn [job_of job_audioBuffer].
      split; [exact Hv|].
      apply elem_of_app. right. apply list_elem_of_singleton. reflexivity.
    + destruct (Hg j) as [? ?]; [apply elem_of_app; auto|].
      split; [assumption|apply elem_of_app; auto].
  - revert Hg. apply gated_mono; cbn; [auto|].
    intros b Hb. apply elem_of_app. auto.
Qed.

Lemma step_gated (t : Transcriber) (e : event) : gated t -> gated (step t e).
Proof.
  destruct e as [socketId roomId userId now | socketId now
                | socketId id data now | i o now now' | k]; cbn [step].
  - apply same_worker_gated, createPeer_worker.
  - apply same_worker_gated, removePeer_worker.
  - intros Hg. unfold ondata. destruct (heap t !! id) as [peerData|]; [|exact Hg].
    destruct (num_ge _ _); [apply queueTranscription_gated|]; exact Hg.
  - intros Hg. unfold processQueue_resume.
    destruct (suspended t !! i) as [a|] eqn:Ea; [|exact Hg].
    destruct (settle _ _) as [transcript|]; [|exact Hg].
    apply processQueue_gated.
    match goal with
    | |- gated (processQueue_finally (processQueue_try ?u ?it ?tr ?n) ?a) =>
        destruct (processQueue_try_worker u it tr n) as (_ & Hq1 & Hs1 & _ & _ & Hl1)
    end.
    revert Hg. apply gated_mono.
    + unfold jobs_of, processQueue_finally.
      cbn [queue suspended set_isProcessing set_unlinks]. rewrite Hq1, Hs1.
      cbn [queue suspended set_suspended].
      intros j Hin. apply elem_of_app in Hin as [Hin | Hin];
        apply elem_of_app; [left; exact Hin|right].
      apply list_elem_of_fmap in Hin as (a' & -> & Hin).
      apply list_elem_of_fmap_2. eapply list_elem_of_delete_inv. exact Hin.
    + unfold processQueue_finally. cbn [gateLog set_isProcessing set_unlinks].
      rewrite Hl1. auto.
  - apply same_worker_gated, run_unlink_worker.
Qed.

Lemma reachable_gated (TP GK : option string) (tmp transcripts : gmap string (list byte))
    (es : list event) :
  gated (run (new_Transcriber TP GK tmp transcripts) es).
Proof.
  assert (Hrun : forall es t, gated t -> gated (run t es)).
  { clear es. intros es. induction es as [|e es IH]; intros t Hg; [exact Hg|].
    apply IH, step_gated, Hg. }
  apply Hrun. unfold gated, jobs_of. cbn. constructor.
Qed.

(** C3, as the code has it.  Every job that waits or is being processed
    carries a payload on which the gate was called, and which it accepted,
    when the session flushed: the call on the payload is the first thing a
    flush logs, before the job is queued.  When the worker starts a job
    under the "groq" provider, the gate is called once more, right before
    the call to the service, on the bytes of the container file, that is
    the 44-byte header followed by the payload, and it accepts them because
    it accepted the payload. *)
Theorem gate_before_queue_and_before_groq (TP GK : option string)
    (tmp transcripts : gmap string (list byte)) (es : list event) :
  let t := run (new_Transcriber TP GK tmp transcripts) es in
  (forall j : job,
     j ∈ jobs_of t ->
     hasVoiceActivity (job_audioBuffer j) = true /\ job_audioBuffer j ∈ gateLog t)
  /\ (forall (socketId : string) (id : nat) (now : Z) (peerData : peerData),
        heap t !! id = Some peerData -> pd_buffer peerData <> [] ->
        exists later,
          gateLog (queueTranscription t socketId id now)
          = gateLog t ++ Buffer_concat (pd_buffer peerData) :: later)
  /\ (forall (u : Transcriber) (now : Z) (item : job) (rest : list job)
             (dir' : gmap string (list byte)),
        provider u = "groq"%string ->
        isProcessing u = false -> queue u = item :: rest ->
        hasVoiceActivity (job_audioBuffer item) = true ->
        writeWav (tmpDir u) (wavPath_of item now) (job_audioBuffer item)
                 (job_sampleRate item) (job_channelCount item) = Ok dir' ->
        let u' := processQueue u now in
        exists file,
          dir' !! wavPath_of item now = Some file
          /\ length file = (44 + length (job_audioBuffer item))%nat
          /\ drop 44 file = job_audioBuffer item
          /\ gateLog u' = gateLog u ++ [file]
          /\ hasVoiceActivity file = true
          /\ suspended u' = suspended u ++
               [{| act_item := item; act_wavPath := wavPath_of item now;
                   act_await := AwaitGroq |}]).
Proof.
  intros t. split; [|split].
  - pose proof (reachable_gated TP GK tmp transcripts es) as Hg. fold t in Hg.
    unfold gated in Hg. rewrite Forall_forall in Hg. exact Hg.
  - intros socketId id now peerData Hh Hb.
    rewrite (queueTranscription_flush t socketId id now peerData Hh Hb). cbv zeta.
    destruct (hasVoiceActivity _); [|exists []; reflexivity].
    set (u := set_queue _ _).
    destruct (isProcessing u) eqn:Hp;
      [rewrite processQueue_busy by assumption; exists []; reflexivity|].
    destruct (queue u) as [|item rest] eqn:Eq;
      [rewrite processQueue_empty by assumption; exists []; reflexivity|].
    destruct (processQueue_start u now item rest Hp Eq)
      as (_ & _ & _ & _ & _ & _ & _ & _ & _ & _ & Hsus).
    destruct Hsus as [(_ & _ & -> & _) | (a & _ & _ & Hw)]; [exists []; reflexivity|].
    pose proof (processQueue_gate u now item rest _ Hp Eq Hw) as Hg.
    cbv zeta in Hg. destruct (String.eqb _ _).
    + destruct Hg as (file & _ & -> & _). exists [file].
      subst u. cbn [gateLog set_queue set_gateLog]. rewrite <- app_assoc. reflexivity.
    + destruct Hg as [-> _]. exists []. reflexivity.
  - intros u now item rest dir' Hgroq Hp Hq Hv Hw u'. subst u'.
    pose proof (processQueue_gate u now item rest dir' Hp Hq Hw) as Hg.
    cbv zeta in Hg. rewrite Hgroq in Hg. cbn [String.eqb Ascii.eqb Bool.eqb] in Hg.
    destruct Hg as (file & Hlook & Hlog & Hsus).
    destruct (hasVoiceActivity_container _ _ _ _ _ _ Hw Hv)
      as (file' & Hlook' & Hdrop & Hlen & Hfile).
    rewrite Hlook in Hlook'. inversion Hlook'; subst file'.
    rewrite Hfile in Hsus. exists file. auto 10.
Qed.

(** ** The deny-list *)

Lemma transcribeWithGroq_resume_filtered (transcription h : string) :
  In h hallucinations ->
  toLowerCase (trim transcription) = h
  \/ toLowerCase (trim transcription) = (h +:+ ".")%string ->
  transcribeWithGroq_resume transcription = ""%string.
Proof.
  intros Hin Hm. unfold transcribeWithGroq_resume.
  assert (Hex : existsb
            (fun h0 => String.eqb (toLowerCase (trim transcription)) h0
                       || String.eqb (toLowerCase (trim transcription)) (h0 +:+ "."))
            hallucinations = true).
  { apply existsb_exists. exists h. split; [exact Hin|].
    destruct Hm as [-> | ->]; rewrite String.eqb_refl;
      [reflexivity|apply orb_true_r]. }
  rewrite Hex. reflexivity.
Qed.

(** Under the "groq" provider a transcript that matches the deny-list is
    neither saved nor emitted. *)
Lemma groq_hallucination_dropped (t : Transcriber) (i : nat) (a : activation)
    (transcription h : string) (now now' : Z) :
  suspended t !! i = Some a -> act_await a = AwaitGroq ->
  In h hallucinations ->
  toLowerCase (trim transcription) = h
  \/ toLowerCase (trim transcription) = (h +:+ ".")%string ->
  let t' := step t (EvSettled i (GroqResolved transcription) now now') in
  emitted t' = emitted t /\ sessions t' = sessions t
  /\ transcriptsDir t' = transcriptsDir t.
Proof.
  intros Ha Haw Hin Hm t'. subst t'. cbn [step]. unfold processQueue_resume.
  rewrite Ha, Haw. cbn [settle].
  rewrite (transcribeWithGroq_resume_filtered transcription h Hin Hm).
  match goal with
  | |- context [processQueue ?u now'] =>
      destruct (processQueue_frame u now') as (_ & _ & -> & _ & _ & -> & -> & _)
  end.
  repeat split.
Qed.

End Properties.

(** * Further properties *)

(** ** The gate on quiet and on loud segments *)

Lemma sumAbs_le (k : Z) (samples : list Z) :
  Forall (fun s => Z.abs s <= k) samples ->
  sumAbs samples <= k * Z.of_nat (length samples).
Proof.
  induction 1 as [|s samples Hs _ IH]; [unfold sumAbs; simpl; lia|].
  rewrite sumAbs_cons. cbn [length]. lia.
Qed.

Lemma sumAbs_ge (k : Z) (samples : list Z) :
  Forall (fun s => k <= Z.abs s) samples ->
  k * Z.of_nat (length samples) <= sumAbs samples.
Proof.
  induction 1 as [|s samples Hs _ IH]; [unfold sumAbs; simpl; lia|].
  rewrite sumAbs_cons. cbn [length]. lia.
Qed.

(** X1. A segment none of whose samples exceeds 50 in magnitude, silence
    in particular, is rejected by the gate, whatever its length. *)
Theorem quiet_segment_rejected (pcmBuffer : list byte) :
  Forall (fun s => Z.abs s <= 50) (Int16Array pcmBuffer) ->
  hasVoiceActivity pcmBuffer = false.
Proof.
  intros Hq. destruct (hasVoiceActivity pcmBuffer) eqn:Hv; [|reflexivity].
  apply hasVoiceActivity_spec in Hv as [_ Hv].
  pose proof (sumAbs_le 50 _ Hq). lia.
Qed.

(** X2. A segment of at least one sample all of whose samples have a
    magnitude of 51 or more is accepted by the gate. *)
Theorem loud_segment_accepted (pcmBuffer : list byte) :
  (2 <= length pcmBuffer)%nat ->
  Forall (fun s => 51 <= Z.abs s) (Int16Array pcmBuffer) ->
  hasVoiceActivity pcmBuffer = true.
Proof.
  intros Hlen Hl. apply hasVoiceActivity_spec.
  assert (Hn : (0 < length (Int16Array pcmBuffer))%nat).
  { destruct pcmBuffer as [|lo [|hi rest]]; simpl in *; lia. }
  split; [exact Hn|]. pose proof (sumAbs_ge 51 _ Hl). lia.
Qed.

Lemma Int16Array_snoc_even (pcmBuffer : list byte) (b : byte) :
  Nat.Even (length pcmBuffer) -> Int16Array (pcmBuffer ++ [b]) = Int16Array pcmBuffer.
Proof.
  intros [k Hk]. revert pcmBuffer Hk.
  induction k as [|k IH]; intros pcmBuffer Hk.
  - destruct pcmBuffer; [reflexivity|simpl in Hk; lia].
  - destruct pcmBuffer as [|lo [|hi rest]]; simpl in Hk; try lia.
    cbn [app Int16Array]. f_equal. apply IH. lia.
Qed.

(** X3. A byte left over after the last whole sample does not count: the
    gate decides on a segment of even length and on that segment followed
    by one more byte in the same way. *)
Theorem trailing_byte_ignored (pcmBuffer : list byte) (b : byte) :
  Nat.Even (length pcmBuffer) ->
  hasVoiceActivity (pcmBuffer ++ [b]) = hasVoiceActivity pcmBuffer.
Proof.
  intros He. unfold hasVoiceActivity, avgEnergy.
  rewrite Int16Array_snoc_even by exact He. reflexivity.
Qed.

(** ** The container writer: errors and the remaining fields *)

Lemma writeUIntLE_Throw (w : nat) (buf : list byte) (v : Z) (off : nat) (e : exn) :
  writeUIntLE w buf v off = Throw e -> e = RangeError.
Proof.
  unfold writeUIntLE. repeat case_decide; intros Hw; inversion Hw; reflexivity.
Qed.

Lemma bind_Throw {A B} (m : result A) (f : A -> result B) (e : exn) :
  m ≫= f = Throw e -> m = Throw e \/ exists a, m = Ok a /\ f a = Throw e.
Proof. destruct m as [a|e0]; simpl; [eauto | intros [= ->]; auto]. Qed.

Lemma writeWav_Throw dir filePath pcmBuffer sampleRate channelCount e :
  writeWav dir filePath pcmBuffer sampleRate channelCount = Throw e ->
  e = RangeError.
Proof.
  unfold writeWav, writeUInt32LE, writeUInt16LE. cbv zeta. intros Hw.
  repeat (apply bind_Throw in Hw as [Hw | (? & _ & Hw)];
          [apply writeUIntLE_Throw in Hw; exact Hw|]).
  discriminate.
Qed.

(** X4. [writeWav] throws, and always a [RangeError], exactly when a header
    field does not fit its width; otherwise it writes the file. *)
Theorem writeWav_throws_iff dir filePath (P : list byte) (R C : Z) :
  (writeWav dir filePath P R C = Throw RangeError <-> ~ wav_fields_fit P R C)
  /\ ((exists dir', writeWav dir filePath P R C = Ok dir') <-> wav_fields_fit P R C).
Proof.
  assert (Hok : (exists dir', writeWav dir filePath P R C = Ok dir')
                <-> wav_fields_fit P R C).
  { split.
    - intros [dir' Hw]. apply writeWav_Ok in Hw as [(HF & HC & HR & HB & HA) _].
      unfold wav_fields_fit. lia.
    - intros (HR & HC & HB & HA & HF). apply writeWav_in_range; assumption. }
  split; [|exact Hok]. split.
  - intros Hw Hfit. apply Hok in Hfit as [dir' Hd]. congruence.
  - intros Hn. destruct (writeWav dir filePath P R C) as [dir'|e] eqn:Hw.
    + exfalso. apply Hn, Hok. eauto.
    + apply writeWav_Throw in Hw. subst e. reflexivity.
Qed.

(** X5. The rest of the header that [writeWav] writes: the four chunk
    tags, a format chunk of 16 bytes for PCM (format 1) with the channel
    count, the sample rate and 16 bits per sample; the file is 44 bytes
    longer than the payload, and no other file of the directory changes. *)
Theorem writeWav_format_fields dir filePath (P : list byte) (R C : Z) dir' :
  writeWav dir filePath P R C = Ok dir' ->
  exists file,
    dir' !! filePath = Some file
    /\ length file = (44 + length P)%nat
    /\ take 4 file = String.list_byte_of_string "RIFF"
    /\ take 8 (drop 8 file) = String.list_byte_of_string "WAVEfmt "
    /\ take 4 (drop 36 file) = String.list_byte_of_string "data"
    /\ readUInt32LE file 16 = 16
    /\ readUInt16LE file 20 = 1
    /\ readUInt16LE file 22 = C
    /\ readUInt32LE file 24 = R
    /\ readUInt16LE file 34 = 16
    /\ forall other : string, other <> filePath -> dir' !! other = dir !! other.
Proof.
  intros Hw. apply writeWav_Ok in Hw as [(HF & HC & HR & HB & HA) ->].
  eexists. split; [apply lookup_insert_eq|].
  assert (Hd : forall X : Z, 0 <= X <= 2 ^ 32 - 1 -> le_value (le_bytes 4 X) = X)
    by (intros; apply le_value_le_bytes_id; assumption).
  assert (Hs : forall X : Z, 0 <= X <= 2 ^ 16 - 1 -> le_value (le_bytes 2 X) = X)
    by (intros; apply le_value_le_bytes_id; assumption).
  unfold readUInt32LE, readUInt16LE, readUIntLE.
  repeat match goal with
  | |- context [String.list_byte_of_string ?s] =>
      let v := eval vm_compute in (String.list_byte_of_string s) in
      change (String.list_byte_of_string s) with v
  end.
  cbn [le_bytes app firstn skipn length]. cbn [le_bytes] in Hd, Hs.
  rewrite !Hd, !Hs by lia.
  repeat (split; [reflexivity|]).
  intros other Hne. apply lookup_insert_ne. congruence.
Qed.

Section FurtherProperties.
Context {RT : Runtime}.

(** ** What sessions and peers leave alone *)

Lemma startSession_outputs (t : Transcriber) (roomId : string) (now : Z) :
  same_outputs t (startSession t roomId now).1.
Proof. unfold startSession. destruct (sessions t !! roomId); split; reflexivity. Qed.

Lemma endSession_outputs (t : Transcriber) (roomId : string) (now : Z) :
  same_outputs t (endSession t roomId now).
Proof. unfold endSession. destruct (sessions t !! roomId); split; reflexivity. Qed.

Lemma createPeer_outputs (t : Transcriber) (socketId roomId : string)
    (userId : option string) (now : Z) :
  same_outputs t (createPeer t socketId roomId userId now).
Proof.
  unfold createPeer. destruct (roomHasPeers t roomId); [split; reflexivity|].
  destruct (startSession_outputs t roomId now) as [He Hr]. split; assumption.
Qed.

Lemma removePeer_outputs (t : Transcriber) (socketId : string) (now : Z) :
  same_outputs t (removePeer t socketId now).
Proof.
  unfold removePeer. destruct (peers t !! socketId) as [id|]; [|split; reflexivity].
  destruct (heap t !! id) as [peerData|]; [|split; reflexivity].
  destruct (roomHasPeers _ _); [split; reflexivity|].
  match goal with
  | |- same_outputs _ (endSession ?u ?r ?n) =>
      destruct (endSession_outputs u r n) as [He Hr]
  end.
  split; assumption.
Qed.

Lemma run_unlink_outputs (t : Transcriber) (k : nat) :
  same_outputs t (run_unlink t k).
Proof. unfold run_unlink. destruct (unlinks t !! k); split; reflexivity. Qed.

Lemma processQueue_try_rejections (t : Transcriber) (item : job)
    (transcript : result string) (now : Z) :
  rejections (processQueue_try t item transcript now) = rejections t.
Proof.
  unfold processQueue_try. destruct transcript as [s|e]; [|reflexivity].
  destruct (truthy s && truthy (trim s)); [|reflexivity].
  unfold emit_transcription, saveTranscription. cbn.
  destruct (sessions t !! job_roomId item); reflexivity.
Qed.

(** ** The states of the worker *)

Lemma processQueue_state (u : Transcriber) (now : Z) :
  (isProcessing u = false -> suspended u = []) ->
  (isProcessing u = true -> worker_state u) ->
  worker_state (processQueue u now).
Proof.
  intros Hidle Hbusy. destruct (isProcessing u) eqn:Hp.
  - rewrite processQueue_busy by assumption. auto.
  - destruct (queue u) as [|item rest] eqn:Eq.
    + rewrite processQueue_empty by assumption. left. auto.
    + destruct (processQueue_start u now item rest Hp Eq)
        as (Hp' & _ & _ & _ & _ & _ & _ & _ & _ & _ & Hsus).
      rewrite Hidle in Hsus by reflexivity.
      destruct Hsus as [(Hs & Hr & _) | (a & Hs & _)].
      * right. right. rewrite Hp', Hs, Hr. repeat split. lia.
      * right. left. rewrite Hp', Hs. split; [reflexivity|eauto].
Qed.

Lemma worker_state_same (t t' : Transcriber) :
  same_worker t t' -> same_outputs t t' -> worker_state t -> worker_state t'.
Proof.
  unfold worker_state. intros (-> & -> & -> & _) (_ & ->) H. exact H.
Qed.

Lemma queueTranscription_state (t : Transcriber) (socketId : string) (id : nat)
    (now : Z) :
  worker_state t -> worker_state (queueTranscription t socketId id now).
Proof.
  intros Hw.
  destruct (heap t !! id) as [peerData|] eqn:Hh;
    [|unfold queueTranscription; rewrite Hh; exact Hw].
  destruct (pd_buffer peerData) as [|chunk chunks] eqn:Eb;
    [unfold queueTranscription; rewrite Hh, Eb; exact Hw|].
  rewrite (queueTranscription_flush t socketId id now peerData Hh)
    by (rewrite Eb; discriminate).
  cbv zeta. destruct (hasVoiceActivity _); [|exact Hw].
  apply processQueue_state; cbn [isProcessing suspended set_queue set_gateLog set_heap].
  - intros Hp. destruct Hw as [(_ & _ & Hs) | [(Hp' & _) | (Hp' & _)]];
      [exact Hs|congruence..].
  - intros Hp. destruct Hw as [(Hp' & _) | [Hb | Hb]]; [congruence| |].
    + right. left. exact Hb.
    + right. right. exact Hb.
Qed.

Lemma step_state (t : Transcriber) (e : event) :
  worker_state t -> worker_state (step t e).
Proof.
  destruct e as [socketId roomId userId now | socketId now
                | socketId id data now | i o now now' | k]; cbn [step].
  - apply worker_state_same; [apply createPeer_worker|apply createPeer_outputs].
  - apply worker_state_same; [apply removePeer_worker|apply removePeer_outputs].
  - intros Hw. unfold ondata. destruct (heap t !! id) as [peerData|]; [|exact Hw].
    destruct (num_ge _ _); [apply queueTranscription_state|]; exact Hw.
  - intros Hw. unfold processQueue_resume.
    destruct (suspended t !! i) as [a|] eqn:Ea; [|exact Hw].
    destruct (settle _ _) as [transcript|]; [|exact Hw].
    match goal with
    | |- worker_state (processQueue (processQueue_finally
                         (processQueue_try ?u ?it ?tr ?n) ?a) ?n') =>
        destruct (processQueue_try_worker u it tr n) as (_ & _ & Hs1 & _)
    end.
    assert (Hdel : delete i (suspended t) = []).
    { destruct Hw as [(_ & _ & Hs) | [(_ & a0 & Hs) | (_ & Hs & _)]];
        rewrite Hs in Ea; try discriminate.
      rewrite Hs. destruct i; [reflexivity|discriminate]. }
    apply processQueue_state; unfold processQueue_finally; cbn.
    + intros _. rewrite Hs1. cbn. exact Hdel.
    + discriminate.
  - apply worker_state_same; [apply run_unlink_worker|apply run_unlink_outputs].
Qed.

(** X6. In every state the event loop can reach, the worker is idle with
    an empty queue and nothing suspended, or busy with exactly one
    suspended activation, or stuck after a rejected [processQueue] promise:
    no job waits in the queue while the worker is idle. *)
Theorem worker_idle_busy_or_stuck (TP GK : option string)
    (tmp transcripts : gmap string (list byte)) (es : list event) :
  worker_state (run (new_Transcriber TP GK tmp transcripts) es).
Proof.
  assert (Hrun : forall es t, worker_state t -> worker_state (run t es)).
  { clear es. intros es. induction es as [|e es IH]; intros t Hw; [exact Hw|].
    apply IH, step_state, Hw. }
  apply Hrun. left. cbn. auto.
Qed.

(** ** A worker that is stuck stays stuck *)

Lemma stuck_step (t : Transcriber) (e : event) :
  isProcessing t = true -> suspended t = [] ->
  isProcessing (step t e) = true /\ suspended (step t e) = []
  /\ emitted (step t e) = emitted t /\ rejections (step t e) = rejections t.
Proof.
  intros Hp Hs.
  assert (Hsame : forall t', same_worker t t' -> same_outputs t t' ->
            isProcessing t' = true /\ suspended t' = []
            /\ emitted t' = emitted t /\ rejections t' = rejections t).
  { intros t' (-> & _ & -> & _) (-> & ->). auto. }
  destruct e as [socketId roomId userId now | socketId now
                | socketId id data now | i o now now' | k]; cbn [step].
  - apply Hsame; [apply createPeer_worker|apply createPeer_outputs].
  - apply Hsame; [apply removePeer_worker|apply removePeer_outputs].
  - unfold ondata. destruct (heap t !! id) as [peerData|] eqn:Hh; [|auto].
    destruct (num_ge _ _); [|auto].
    match goal with
    | |- context [queueTranscription ?u socketId id now] => set (u0 := u)
    end.
    destruct (heap u0 !! id) as [peerData'|] eqn:Hh';
      [|unfold queueTranscription; rewrite Hh'; auto].
    destruct (pd_buffer peerData') as [|chunk chunks] eqn:Eb;
      [unfold queueTranscription; rewrite Hh', Eb; auto|].
    rewrite (queueTranscription_flush u0 socketId id now peerData' Hh')
      by (rewrite Eb; discriminate).
    cbv zeta. destruct (hasVoiceActivity _); [|auto].
    rewrite processQueue_busy by exact Hp. auto.
  - unfold processQueue_resume. rewrite Hs. cbn. auto.
  - apply Hsame; [apply run_unlink_worker|apply run_unlink_outputs].
Qed.

(** X7. When [writeWav] throws for the job that [processQueue] has just
    taken, the promise of that call is rejected with nobody to handle it
    and [isProcessing] stays set for good: whatever events the object
    handles afterwards, no job is started, no provider call is in flight
    and nothing more is emitted. *)
Theorem stuck_after_RangeError (t : Transcriber) (now : Z) (item : job)
    (rest : list job) (es : list event) :
  isProcessing t = false -> suspended t = [] -> queue t = item :: rest ->
  ~ wav_fields_fit (job_audioBuffer item) (job_sampleRate item)
                   (job_channelCount item) ->
  let t' := run (processQueue t now) es in
  isProcessing t' = true /\ suspended t' = [] /\ inFlight t' = 0%nat
  /\ emitted t' = emitted t /\ rejections t' = S (rejections t).
Proof.
  intros Hp Hs Hq Hfit t'.
  destruct (processQueue_start t now item rest Hp Hq)
    as (Hp' & _ & _ & _ & _ & _ & _ & _ & He' & _ & Hsus).
  destruct Hsus as [(Hs' & Hr' & _) | (a & _ & _ & Hok)].
  - rewrite Hs in Hs'.
    assert (Hrun : forall es u, isProcessing u = true -> suspended u = [] ->
              isProcessing (run u es) = true /\ suspended (run u es) = []
              /\ emitted (run u es) = emitted u
              /\ rejections (run u es) = rejections u).
    { clear. intros es. induction es as [|e es IH]; intros u Hp Hs; [auto|].
      destruct (stuck_step u e Hp Hs) as (Hp1 & Hs1 & He1 & Hr1).
      destruct (IH (step u e) Hp1 Hs1) as (? & ? & ? & ?).
      change (run u (e :: es)) with (run (step u e) es).
      repeat split; try assumption; congruence. }
    destruct (Hrun es _ Hp' Hs') as (Hp2 & Hs2 & He2 & Hr2). subst t'.
    unfold inFlight. rewrite Hs2. repeat split; try assumption; congruence.
  - exfalso. apply Hfit.
    apply writeWav_Ok in Hok as [(HF & HC & HR & HB & HA) _].
    unfold wav_fields_fit. lia.
Qed.

(** ** The provider is chosen once *)

Lemma queueTranscription_frame (t : Transcriber) (socketId : string) (id : nat)
    (now : Z) :
  let t' := queueTranscription t socketId id now in
  peers t' = peers t /\ sessions t' = sessions t /\ provider t' = provider t
  /\ bufferDuration t' = bufferDuration t
  /\ transcriptsDir t' = transcriptsDir t /\ emitted t' = emitted t
  /\ length (heap t') = length (heap t).
Proof.
  intros t'. subst t'.
  destruct (heap t !! id) as [peerData|] eqn:Hh;
    [|unfold queueTranscription; rewrite Hh; repeat split].
  destruct (pd_buffer peerData) as [|chunk chunks] eqn:Eb;
    [unfold queueTranscription; rewrite Hh, Eb; repeat split|].
  rewrite (queueTranscription_flush t socketId id now peerData Hh)
    by (rewrite Eb; discriminate).
  cbv zeta. destruct (hasVoiceActivity _);
    [|cbn; rewrite length_insert; repeat split].
  match goal with
  | |- context [processQueue ?u now] =>
      destruct (processQueue_frame u now) as (-> & -> & -> & -> & -> & -> & -> & _)
  end.
  cbn. rewrite length_insert. repeat split.
Qed.

Lemma ondata_frame (t : Transcriber) (socketId : string) (id : nat)
    (data : audioData) (now : Z) :
  let t' := ondata t socketId id data now in
  peers t' = peers t /\ sessions t' = sessions t /\ provider t' = provider t
  /\ bufferDuration t' = bufferDuration t
  /\ transcriptsDir t' = transcriptsDir t /\ emitted t' = emitted t
  /\ length (heap t') = length (heap t).
Proof.
  intros t'. subst t'. unfold ondata.
  destruct (heap t !! id) as [peerData|]; [|repeat split].
  destruct (num_ge _ _); [|cbn; rewrite length_insert; repeat split].
  match goal with
  | |- context [queueTranscription ?u socketId id now] =>
      destruct (queueTranscription_frame u socketId id now)
        as (-> & -> & -> & -> & -> & -> & ->)
  end.
  cbn. rewrite length_insert. repeat split.
Qed.

Lemma processQueue_resume_config (t : Transcriber) (i : nat) (o : providerOutcome)
    (now now' : Z) :
  provider (processQueue_resume t i o now now') = provider t
  /\ bufferDuration (processQueue_resume t i o now now') = bufferDuration t.
Proof.
  unfold processQueue_resume.
  destruct (suspended t !! i) as [a|]; [|split; reflexivity].
  destruct (settle _ _) as [transcript|]; [|split; reflexivity].
  match goal with
  | |- context [processQueue ?u now'] =>
      destruct (processQueue_frame u now') as (_ & _ & _ & -> & -> & _)
  end.
  match goal with
  | |- context [processQueue_try ?u ?it ?tr ?n] =>
      destruct (processQueue_try_worker u it tr n) as (_ & _ & _ & Hp & Hb & _)
  end.
  unfold processQueue_finally. cbn. rewrite Hp, Hb. split; reflexivity.
Qed.

Lemma step_config (t : Transcriber) (e : event) :
  provider (step t e) = provider t /\ bufferDuration (step t e) = bufferDuration t.
Proof.
  destruct e as [socketId roomId userId now | socketId now
                | socketId id data now | i o now now' | k]; cbn [step].
  - destruct (createPeer_worker t socketId roomId userId now) as (_ & _ & _ & ? & ? & _).
    auto.
  - destruct (removePeer_worker t socketId now) as (_ & _ & _ & ? & ? & _). auto.
  - destruct (ondata_frame t socketId id data now) as (_ & _ & ? & ? & _). auto.
  - apply processQueue_resume_config.
  - destruct (run_unlink_worker t k) as (_ & _ & _ & ? & ? & _). auto.
Qed.

Lemma run_config (es : list event) (t : Transcriber) :
  provider (run t es) = provider t /\ bufferDuration (run t es) = bufferDuration t.
Proof.
  revert t. induction es as [|e es IH]; intros t; [split; reflexivity|].
  change (run t (e :: es)) with (run (step t e) es).
  destruct (IH (step t e)) as [-> ->]. apply step_config.
Qed.

(** X8. The provider and the flush threshold are fixed by the constructor
    and no event changes them: the provider is "groq" exactly when "groq"
    is configured (or nothing is) and an API key is set; a configured
    "groq" without a key becomes "local-whisper"; any other configured name
    is kept; and the threshold is the configured five seconds. *)
Theorem provider_chosen_at_startup (TP GK : option string)
    (tmp transcripts : gmap string (list byte)) (es : list event) :
  let t := run (new_Transcriber TP GK tmp transcripts) es in
  let configured := or_default TP "groq" in
  let key := or_default GK "" in
  (provider t = "groq"%string <-> configured = "groq"%string /\ key <> ""%string)
  /\ (configured = "groq"%string -> key = ""%string ->
      provider t = "local-whisper"%string)
  /\ (configured <> "groq"%string -> provider t = configured)
  /\ bufferDuration t = num_of_Z 5.
Proof.
  intros t configured key.
  destruct (run_config es (new_Transcriber TP GK tmp transcripts)) as [Hp Hb].
  fold t in Hp, Hb. rewrite Hp, Hb.
  cbn [provider bufferDuration new_Transcriber].
  unfold config_provider, config_groq_apiKey, config_bufferDuration.
  fold configured key.
  destruct (String.eqb_spec configured "groq") as [Hc|Hc].
  - destruct key as [|c k]; cbn [truthy].
    + repeat split; try congruence; intros; try discriminate.
      * destruct H as [_ H]. congruence.
    + repeat split; try congruence; intros; discriminate.
  - repeat split; try congruence. intros [? _]. congruence.
Qed.

(** ** What the worker does with a transcript *)

Lemma trimEnd_head (a : ascii) (r : string) :
  isWhiteSpace a = false -> exists r', trimEnd (String a r) = String a r'.
Proof.
  intros Ha. cbn [trimEnd]. destruct (trimEnd r); rewrite ?Ha; eauto.
Qed.

Lemma trimStart_head (s : string) :
  trimStart s = ""%string
  \/ exists a r, trimStart s = String a r /\ isWhiteSpace a = false.
Proof.
  induction s as [|a r IH]; [left; reflexivity|].
  cbn [trimStart]. destruct (isWhiteSpace a) eqn:Ha; [exact IH|eauto].
Qed.

Lemma trimEnd_idempotent (s : string) : trimEnd (trimEnd s) = trimEnd s.
Proof.
  induction s as [|a r IH]; [reflexivity|].
  cbn [trimEnd]. destruct (trimEnd r) as [|b r'] eqn:Er.
  - destruct (isWhiteSpace a) eqn:Ha; [reflexivity|].
    cbn [trimEnd]. rewrite Ha. reflexivity.
  - cbn [trimEnd] in IH |- *. cbn [trimEnd]. rewrite IH. reflexivity.
Qed.

Lemma trim_idempotent (s : string) : trim (trim s) = trim s.
Proof.
  unfold trim. destruct (trimStart_head s) as [-> | (a & r & -> & Ha)];
    [reflexivity|].
  destruct (trimEnd_head a r Ha) as [r' Hr]. rewrite Hr.
  cbn [trimStart]. rewrite Ha. rewrite <- Hr. apply trimEnd_idempotent.
Qed.

Lemma truthy_true (s : string) : truthy s = true <-> s <> ""%string.
Proof. destruct s; simpl; split; congruence. Qed.

Lemma accepted_iff (transcript : string) :
  truthy transcript && truthy (trim transcript) = true
  <-> trim transcript <> ""%string.
Proof.
  rewrite andb_true_iff, !truthy_true. split; [tauto|].
  intros H. split; [|exact H]. intros ->. apply H. reflexivity.
Qed.

(** X9. A transcript that is empty or only white space, such as the empty
    text of a subprocess that left no output file, is neither saved nor
    emitted, and the worker goes on to the next job. *)
Theorem blank_transcript_dropped (t : Transcriber) (i : nat) (a : activation)
    (o : providerOutcome) (transcript : string) (now now' : Z) :
  suspended t !! i = Some a ->
  settle (act_await a) o = Some (Ok transcript) ->
  trim transcript = ""%string ->
  let t' := step t (EvSettled i o now now') in
  emitted t' = emitted t /\ sessions t' = sessions t
  /\ transcriptsDir t' = transcriptsDir t
  /\ t' = processQueue
            (set_isProcessing false
               (set_unlinks (unlinks t ++ [act_wavPath a])
                  (set_suspended (delete i (suspended t)) t))) now'.
Proof.
  intros Ha Hset Hblank t'. subst t'. cbn [step]. unfold processQueue_resume.
  rewrite Ha, Hset. unfold processQueue_try, processQueue_finally.
  assert (Hno : truthy transcript && truthy (trim transcript) = false).
  { rewrite Hblank. apply andb_false_r. }
  rewrite Hno.
  match goal with
  | |- context [processQueue ?u now'] =>
      destruct (processQueue_frame u now') as (_ & _ & -> & _ & _ & -> & -> & _)
  end.
  repeat split.
Qed.

(** The session of the room after an accepted transcript. *)
Lemma settled_transcript_saved (t : Transcriber) (i : nat)
    (a : activation) (o : providerOutcome) (transcript : string) (now now' : Z)
    (s : session) :
  suspended t !! i = Some a ->
  settle (act_await a) o = Some (Ok transcript) ->
  trim transcript <> ""%string ->
  sessions t !! job_roomId (act_item a) = Some s ->
  sessions (step t (EvSettled i o now now')) !! job_roomId (act_item a)
  = Some {| filePath := filePath s; startedAt := startedAt s;
            transcriptions :=
              transcriptions s ++
                [{| entry_timestamp := toISOString now;
                    entry_userId := job_userId (act_item a);
                    entry_text := trim transcript |}] |}.
Proof.
  intros Ha Hset Hnb Hroom.
  cbn [step]. unfold processQueue_resume. rewrite Ha, Hset.
  match goal with
  | |- context [processQueue ?u now'] =>
      destruct (processQueue_frame u now') as (_ & _ & -> & _)
  end.
  unfold processQueue_finally, processQueue_try.
  rewrite (proj2 (accepted_iff transcript) Hnb).
  unfold emit_transcription, saveTranscription, writeTranscript.
  cbn [sessions set_suspended set_unlinks set_isProcessing
       set_emitted set_sessions set_transcriptsDir].
  rewrite Hroom.
  cbn [sessions set_suspended set_unlinks set_isProcessing
       set_emitted set_sessions set_transcriptsDir filePath startedAt transcriptions].
  apply lookup_insert_eq.
Qed.

(** X10. A transcript that is not blank, for a room whose session is open,
    is appended, trimmed, as the last entry of the session, the session
    file is rewritten with all the entries, and the same text goes to the
    room with the same time stamp; the sessions of other rooms stay as
    they are. *)
Theorem accepted_transcript_saved_and_emitted (t : Transcriber) (i : nat)
    (a : activation) (o : providerOutcome) (transcript : string) (now now' : Z)
    (s : session) :
  suspended t !! i = Some a ->
  settle (act_await a) o = Some (Ok transcript) ->
  trim transcript <> ""%string ->
  sessions t !! job_roomId (act_item a) = Some s ->
  let item := act_item a in
  let t' := step t (EvSettled i o now now') in
  let entries :=
    transcriptions s ++
      [{| entry_timestamp := toISOString now; entry_userId := job_userId item;
          entry_text := trim transcript |}] in
  sessions t' !! job_roomId item
    = Some {| filePath := filePath s; startedAt := startedAt s;
              transcriptions := entries |}
  /\ transcriptsDir t' !! filePath s
     = Some (String.list_byte_of_string
               (yaml_dump {| sd_room := job_roomId item;
                             sd_startedAt := toISOString (startedAt s);
                             sd_endedAt := None; sd_transcriptions := entries |}))
  /\ emitted t' = emitted t ++ [message_of item transcript now]
  /\ forall other : string,
       other <> job_roomId item -> sessions t' !! other = sessions t !! other.
Proof.
  intros Ha Hset Hnb Hroom item t' entries. subst t' entries item.
  cbn [step]. unfold processQueue_resume. rewrite Ha, Hset.
  match goal with
  | |- context [processQueue ?u now'] =>
      destruct (processQueue_frame u now') as (_ & _ & -> & _ & _ & -> & -> & _)
  end.
  unfold processQueue_finally, processQueue_try.
  rewrite (proj2 (accepted_iff transcript) Hnb).
  unfold emit_transcription, saveTranscription, writeTranscript.
  cbn [sessions transcriptsDir emitted set_suspended set_unlinks set_isProcessing
       set_emitted set_sessions set_transcriptsDir].
  rewrite Hroom.
  cbn [sessions transcriptsDir emitted set_suspended set_unlinks set_isProcessing
       set_emitted set_sessions set_transcriptsDir filePath startedAt transcriptions].
  rewrite !lookup_insert_eq. repeat split.
  intros other Hne. apply lookup_insert_ne. congruence.
Qed.

(** ** What is emitted *)

(** Only a settled call with a transcript that is not blank emits. *)
Lemma step_emitted (t : Transcriber) (e : event) :
  emitted (step t e) = emitted t
  \/ exists i a o transcript now now',
       e = EvSettled i o now now' /\ suspended t !! i = Some a
       /\ settle (act_await a) o = Some (Ok transcript)
       /\ trim transcript <> ""%string
       /\ emitted (step t e) = emitted t ++ [message_of (act_item a) transcript now].
Proof.
  destruct e as [socketId roomId userId now | socketId now
                | socketId id data now | i o now now' | k]; cbn [step].
  - left. apply createPeer_outputs.
  - left. apply removePeer_outputs.
  - left. apply ondata_frame.
  - unfold processQueue_resume.
    destruct (suspended t !! i) as [a|] eqn:Ea; [|left; reflexivity].
    destruct (settle _ _) as [transcript|] eqn:Es; [|left; reflexivity].
    match goal with
    | |- context [processQueue ?u now'] =>
        destruct (processQueue_frame u now') as (_ & _ & _ & _ & _ & _ & -> & _)
    end.
    unfold processQueue_finally, processQueue_try.
    cbn [emitted set_isProcessing set_unlinks].
    destruct transcript as [s|err]; [|left; reflexivity].
    destruct (truthy s && truthy (trim s)) eqn:Hacc; [|left; reflexivity].
    right. exists i, a, o, s, now, now'.
    split; [reflexivity|]. split; [exact Ea|]. split; [exact Es|].
    split; [apply accepted_iff, Hacc|].
    unfold emit_transcription, saveTranscription, writeTranscript, message_of.
    cbn. destruct (sessions t !! job_roomId (act_item a)); reflexivity.
  - left. apply run_unlink_outputs.
Qed.

(** X11. Every message that is ever emitted to a room carries a text that
    is not empty and has no white space at either end. *)
Theorem emitted_text_trimmed (TP GK : option string)
    (tmp transcripts : gmap string (list byte)) (es : list event) :
  Forall (fun m : string * transcriptionMsg =>
            msg_text m.2 <> ""%string /\ trim (msg_text m.2) = msg_text m.2)
         (emitted (run (new_Transcriber TP GK tmp transcripts) es)).
Proof.
  assert (Hrun : forall es t,
            Forall (fun m : string * transcriptionMsg =>
                      msg_text m.2 <> ""%string /\ trim (msg_text m.2) = msg_text m.2)
                   (emitted t) ->
            Forall (fun m : string * transcriptionMsg =>
                      msg_text m.2 <> ""%string /\ trim (msg_text m.2) = msg_text m.2)
                   (emitted (run t es))).
  { clear es. intros es. induction es as [|e es IH]; intros t Ht; [exact Ht|].
    change (run t (e :: es)) with (run (step t e) es). apply IH.
    destruct (step_emitted t e)
      as [-> | (i & a & o & tr & now & now' & _ & _ & _ & Hnb & ->)]; [exact Ht|].
    apply Forall_app. split; [exact Ht|].
    constructor; [|constructor]. cbn. split; [exact Hnb|apply trim_idempotent]. }
  apply Hrun. constructor.
Qed.

(** ** Under "groq" nothing of the deny-list is emitted *)

Lemma processQueue_groq (u : Transcriber) (now : Z) :
  provider u = "groq"%string ->
  Forall groq_await (suspended u) ->
  Forall groq_await (suspended (processQueue u now)).
Proof.
  intros Hg Hs. destruct (isProcessing u) eqn:Hp;
    [rewrite processQueue_busy by assumption; exact Hs|].
  destruct (queue u) as [|item rest] eqn:Eq;
    [rewrite processQueue_empty by assumption; exact Hs|].
  destruct (processQueue_start u now item rest Hp Eq)
    as (_ & _ & _ & _ & _ & _ & _ & _ & _ & _ & Hsus).
  destruct Hsus as [(-> & _) | (a & _ & _ & Hw)]; [exact Hs|].
  pose proof (processQueue_gate u now item rest _ Hp Eq Hw) as Hgate.
  cbv zeta in Hgate. rewrite Hg in Hgate. cbn [String.eqb Ascii.eqb Bool.eqb] in Hgate.
  destruct Hgate as (file & _ & _ & ->).
  apply Forall_app. split; [exact Hs|]. constructor; [|constructor].
  unfold groq_await. cbn. destruct (hasVoiceActivity file); [exact I|reflexivity].
Qed.

Lemma step_groq (t : Transcriber) (e : event) :
  provider t = "groq"%string ->
  Forall groq_await (suspended t) ->
  Forall groq_await (suspended (step t e)).
Proof.
  intros Hg Hs.
  destruct e as [socketId roomId userId now | socketId now
                | socketId id data now | i o now now' | k]; cbn [step].
  - destruct (createPeer_worker t socketId roomId userId now) as (_ & _ & -> & _).
    exact Hs.
  - destruct (removePeer_worker t socketId now) as (_ & _ & -> & _). exact Hs.
  - unfold ondata. destruct (heap t !! id) as [peerData|]; [|exact Hs].
    destruct (num_ge _ _); [|exact Hs].
    match goal with
    | |- context [queueTranscription ?u socketId id now] => set (u0 := u)
    end.
    destruct (heap u0 !! id) as [peerData'|] eqn:Hh';
      [|unfold queueTranscription; rewrite Hh'; exact Hs].
    destruct (pd_buffer peerData') as [|chunk chunks] eqn:Eb;
      [unfold queueTranscription; rewrite Hh', Eb; exact Hs|].
    rewrite (queueTranscription_flush u0 socketId id now peerData' Hh')
      by (rewrite Eb; discriminate).
    cbv zeta. destruct (hasVoiceActivity _); [|exact Hs].
    apply processQueue_groq; [exact Hg|exact Hs].
  - unfold processQueue_resume.
    destruct (suspended t !! i) as [a|] eqn:Ea; [|exact Hs].
    destruct (settle _ _) as [transcript|]; [|exact Hs].
    match goal with
    | |- context [processQueue_try ?u ?it ?tr ?n] =>
        destruct (processQueue_try_worker u it tr n) as (_ & _ & Hs1 & Hp1 & _)
    end.
    apply processQueue_groq; unfold processQueue_finally; cbn.
    + rewrite Hp1. exact Hg.
    + rewrite Hs1. cbn. rewrite Forall_forall in *. intros a' Hin.
      apply Hs. eapply list_elem_of_delete_inv. exact Hin.
  - destruct (run_unlink_worker t k) as (_ & _ & -> & _). exact Hs.
Qed.

Lemma transcribeWithGroq_resume_kept (transcription : string) :
  transcribeWithGroq_resume transcription <> ""%string ->
  transcribeWithGroq_resume transcription = transcription
  /\ denylisted (toLowerCase (trim transcription)) = false.
Proof.
  unfold transcribeWithGroq_resume, denylisted.
  destruct (existsb _ hallucinations); [congruence|auto].
Qed.

(** X12. When the provider is "groq", no message that is ever emitted to a
    room is, once lower-cased, a phrase of the deny-list, with or without a
    final period. *)
Theorem groq_never_emits_denylisted (TP GK : option string)
    (tmp transcripts : gmap string (list byte)) (es : list event) :
  provider (new_Transcriber TP GK tmp transcripts) = "groq"%string ->
  forall (m : string * transcriptionMsg) (h : string),
    m ∈ emitted (run (new_Transcriber TP GK tmp transcripts) es) ->
    In h hallucinations ->
    toLowerCase (msg_text m.2) <> h
    /\ toLowerCase (msg_text m.2) <> (h +:+ ".")%string.
Proof.
  intros Hg.
  assert (Hrun : forall es t,
            provider t = "groq"%string -> Forall groq_await (suspended t) ->
            Forall (fun m : string * transcriptionMsg =>
                      denylisted (toLowerCase (msg_text m.2)) = false) (emitted t) ->
            Forall (fun m : string * transcriptionMsg =>
                      denylisted (toLowerCase (msg_text m.2)) = false)
                   (emitted (run t es))).
  { clear. intros es. induction es as [|e es IH]; intros t Hg Hs He; [exact He|].
    change (run t (e :: es)) with (run (step t e) es). apply IH.
    - destruct (step_config t e) as [-> _]. exact Hg.
    - apply step_groq; assumption.
    - destruct (step_emitted t e)
        as [-> | (i & a & o & tr & now & now' & _ & Ha & Hset & Hnb & ->)];
        [exact He|].
      apply Forall_app. split; [exact He|]. constructor; [|constructor]. cbn.
      assert (Hga : groq_await a).
      { rewrite Forall_forall in Hs. apply Hs.
        eapply list_elem_of_lookup_2. exact Ha. }
      unfold groq_await in Hga.
      destruct (act_await a) as [[s|err]| |]; cbn [settle] in Hset.
      + inversion Hset; subst. exfalso. apply Hnb. reflexivity.
      + discriminate.
      + destruct o as [transcription| | |]; try discriminate.
        inversion Hset; subst tr.
        destruct (transcribeWithGroq_resume_kept transcription) as [Hk Hd].
        { intros Hempty. apply Hnb. rewrite Hempty. reflexivity. }
        rewrite Hk. exact Hd.
      + contradiction. }
  intros m h Hin Hh.
  assert (Hall := Hrun es _ Hg ltac:(constructor) ltac:(constructor)).
  rewrite Forall_forall in Hall. specialize (Hall m Hin).
  unfold denylisted in Hall.
  split; intros Heq.
  - assert (Hex : existsb (fun h0 => String.eqb (toLowerCase (msg_text m.2)) h0
                    || String.eqb (toLowerCase (msg_text m.2)) (h0 +:+ "."))
                   hallucinations = true).
    { apply existsb_exists. exists h. split; [exact Hh|].
      rewrite Heq, String.eqb_refl. reflexivity. }
    congruence.
  - assert (Hex : existsb (fun h0 => String.eqb (toLowerCase (msg_text m.2)) h0
                    || String.eqb (toLowerCase (msg_text m.2)) (h0 +:+ "."))
                   hallucinations = true).
    { apply existsb_exists. exists h. split; [exact Hh|].
      rewrite Heq, String.eqb_refl. apply orb_true_r. }
    congruence.
Qed.

(** ** Presence *)

Lemma roomHasPeers_true (t : Transcriber) (roomId : string) :
  roomHasPeers t roomId = true <->
  exists socketId id peerData,
    peers t !! socketId = Some id /\ heap t !! id = Some peerData
    /\ pd_roomId peerData = roomId.
Proof.
  unfold roomHasPeers. rewrite existsb_exists. split.
  - intros ([socketId id] & Hin & Hr). cbn [snd] in Hr.
    apply list_elem_of_In, elem_of_map_to_list in Hin.
    destruct (heap t !! id) as [peerData|] eqn:Hh; [|discriminate].
    apply String.eqb_eq in Hr. eauto 6.
  - intros (socketId & id & peerData & Hp & Hh & Hr).
    exists (socketId, id). split.
    + apply list_elem_of_In, elem_of_map_to_list. exact Hp.
    + cbn [snd]. rewrite Hh. apply String.eqb_eq. exact Hr.
Qed.

Lemma roomHasPeers_ext (t t' : Transcriber) (roomId : string) :
  peers t' = peers t -> pd_roomId <$> heap t' = pd_roomId <$> heap t ->
  roomHasPeers t' roomId = roomHasPeers t roomId.
Proof.
  intros Hp Hh.
  assert (Hlook : forall u u' : Transcriber,
            peers u' = peers u -> pd_roomId <$> heap u' = pd_roomId <$> heap u ->
            roomHasPeers u roomId = true -> roomHasPeers u' roomId = true).
  { intros u u' Hp' Hh' H. apply roomHasPeers_true in H
      as (socketId & id & peerData & Hpe & Hhe & Hr).
    assert (Hf : (pd_roomId <$> heap u') !! id = Some roomId).
    { rewrite Hh', list_lookup_fmap, Hhe. cbn. congruence. }
    rewrite list_lookup_fmap in Hf.
    destruct (heap u' !! id) as [peerData'|] eqn:Hhe'; [|discriminate].
    apply roomHasPeers_true. exists socketId, id, peerData'.
    rewrite Hp'. cbn in Hf. repeat split; congruence. }
  destruct (roomHasPeers t roomId) eqn:E.
  - apply (Hlook t t'); assumption.
  - destruct (roomHasPeers t' roomId) eqn:E'; [|reflexivity].
    rewrite (Hlook t' t) in E; auto.
Qed.

Lemma queueTranscription_rooms (t : Transcriber) (socketId : string) (id : nat)
    (now : Z) :
  pd_roomId <$> heap (queueTranscription t socketId id now) = pd_roomId <$> heap t.
Proof.
  destruct (heap t !! id) as [peerData|] eqn:Hh;
    [|unfold queueTranscription; rewrite Hh; reflexivity].
  destruct (pd_buffer peerData) as [|chunk chunks] eqn:Eb;
    [unfold queueTranscription; rewrite Hh, Eb; reflexivity|].
  destruct (queueTranscription_heap t socketId id now peerData Hh) as [-> _];
    [rewrite Eb; discriminate|].
  rewrite list_fmap_insert. cbn [pd_roomId].
  apply list_insert_id. rewrite list_lookup_fmap, Hh. reflexivity.
Qed.

Lemma ondata_rooms (t : Transcriber) (socketId : string) (id : nat)
    (data : audioData) (now : Z) :
  pd_roomId <$> heap (ondata t socketId id data now) = pd_roomId <$> heap t.
Proof.
  unfold ondata. destruct (heap t !! id) as [pd|] eqn:Hh; [|reflexivity].
  assert (Hins : forall p : peerData, pd_roomId p = pd_roomId pd ->
            pd_roomId <$> <[id := p]> (heap t) = pd_roomId <$> heap t).
  { intros p Hp. rewrite list_fmap_insert, Hp.
    apply list_insert_id. rewrite list_lookup_fmap, Hh. reflexivity. }
  destruct (num_ge _ _).
  - rewrite queueTranscription_rooms. cbn [heap set_heap]. apply Hins. reflexivity.
  - cbn [heap set_heap]. apply Hins. reflexivity.
Qed.

Lemma processQueue_try_frame (t : Transcriber) (item : job)
    (transcript : result string) (now : Z) :
  let t' := processQueue_try t item transcript now in
  peers t' = peers t /\ heap t' = heap t
  /\ forall roomId, is_Some (sessions t !! roomId) -> is_Some (sessions t' !! roomId).
Proof.
  intros t'. subst t'. unfold processQueue_try.
  destruct transcript as [s|e]; [|auto].
  destruct (truthy s && truthy (trim s)); [|auto].
  unfold emit_transcription, saveTranscription, writeTranscript.
  destruct (sessions t !! job_roomId item) as [sess|] eqn:Es; cbn; [|auto].
  repeat split. intros roomId Hsome.
  destruct (decide (job_roomId item = roomId)) as [->|Hne].
  - rewrite lookup_insert_eq. eauto.
  - rewrite lookup_insert_ne by exact Hne. exact Hsome.
Qed.

Lemma createPeer_presence (t : Transcriber) (socketId roomId : string)
    (userId : option string) (now : Z) :
  presence_inv t -> presence_inv (createPeer t socketId roomId userId now).
Proof.
  intros [Hv Hs]. unfold createPeer.
  set (t1 := if roomHasPeers t roomId then t else (startSession t roomId now).1).
  assert (H1 : peers t1 = peers t /\ heap t1 = heap t
               /\ is_Some (sessions t1 !! roomId)
               /\ forall r, is_Some (sessions t !! r) -> is_Some (sessions t1 !! r)).
  { subst t1. destruct (roomHasPeers t roomId) eqn:Hr; [auto|].
    unfold startSession. destruct (sessions t !! roomId) as [s|] eqn:Es; cbn.
    - rewrite Es. eauto.
    - repeat split; [rewrite lookup_insert_eq; eauto|].
      intros r Hsome. destruct (decide (roomId = r)) as [->|Hne].
      + rewrite lookup_insert_eq. eauto.
      + rewrite lookup_insert_ne by exact Hne. exact Hsome. }
  destruct H1 as (Hp1 & Hh1 & Hroom & Hkeep).
  split.
  - intros s id. cbn [peers heap set_peers set_heap]. rewrite length_app. cbn.
    rewrite Hp1, Hh1. destruct (decide (socketId = s)) as [->|Hne].
    + rewrite lookup_insert_eq. intros [= <-]. lia.
    + rewrite lookup_insert_ne by exact Hne. intros Hl. apply Hv in Hl. lia.
  - intros r Hr. apply roomHasPeers_true in Hr as (s & id & p & Hps & Hhs & Hrs).
    cbn [peers heap sessions set_peers set_heap] in *.
    rewrite Hp1, Hh1 in *.
    destruct (decide (socketId = s)) as [->|Hne].
    + rewrite lookup_insert_eq in Hps. inversion Hps; subst id.
      rewrite lookup_app_r, Nat.sub_diag in Hhs by lia. cbn in Hhs.
      inversion Hhs; subst p. cbn in Hrs. subst r. exact Hroom.
    + rewrite lookup_insert_ne in Hps by exact Hne.
      pose proof (Hv s id Hps) as Hlt.
      rewrite lookup_app_l in Hhs by exact Hlt.
      apply Hkeep, Hs. apply roomHasPeers_true. eauto 6.
Qed.

(** What [removePeer] does to a registered peer. *)
Lemma removePeer_registered (t : Transcriber) (socketId : string) (now : Z)
    (id : nat) (peerData : peerData) :
  peers t !! socketId = Some id -> heap t !! id = Some peerData ->
  let t' := removePeer t socketId now in
  peers t' = delete socketId (peers t) /\ heap t' = heap t
  /\ (roomHasPeers t' (pd_roomId peerData) = true /\ sessions t' = sessions t
      \/ roomHasPeers t' (pd_roomId peerData) = false
         /\ sessions t' = delete (pd_roomId peerData) (sessions t)).
Proof.
  intros Hp Hh t'. subst t'. unfold removePeer. rewrite Hp, Hh. cbv zeta.
  set (t1 := set_peers _ t).
  destruct (roomHasPeers t1 (pd_roomId peerData)) eqn:Hr.
  - repeat split. left. split; [exact Hr|reflexivity].
  - assert (Hext : roomHasPeers (endSession t1 (pd_roomId peerData) now)
                     (pd_roomId peerData) = false).
    { rewrite <- Hr. apply roomHasPeers_ext;
        unfold endSession; destruct (sessions t1 !! _); reflexivity. }
    unfold endSession in *. destruct (sessions t1 !! pd_roomId peerData) eqn:Es.
    + repeat split. right. split; [exact Hext|reflexivity].
    + repeat split. right. split; [exact Hext|].
      cbn. symmetry. apply delete_id. exact Es.
Qed.

Lemma removePeer_presence (t : Transcriber) (socketId : string) (now : Z) :
  presence_inv t -> presence_inv (removePeer t socketId now).
Proof.
  intros [Hv Hs].
  destruct (peers t !! socketId) as [id|] eqn:Hp;
    [|unfold removePeer; rewrite Hp; split; assumption].
  destruct (heap t !! id) as [peerData|] eqn:Hh;
    [|unfold removePeer; rewrite Hp, Hh; split; assumption].
  destruct (removePeer_registered t socketId now id peerData Hp Hh)
    as (Hp' & Hh' & Hcases).
  split.
  - intros s id'. rewrite Hp', Hh'. intros Hl.
    apply lookup_delete_Some in Hl as [_ Hl]. eapply Hv, Hl.
  - intros r Hr.
    assert (Hold : roomHasPeers t r = true).
    { apply roomHasPeers_true in Hr as (s & id' & p & Hps & Hhs & Hrs).
      rewrite Hp' in Hps. rewrite Hh' in Hhs.
      apply lookup_delete_Some in Hps as [_ Hps].
      apply roomHasPeers_true. eauto 6. }
    destruct Hcases as [[_ ->] | [Hno ->]]; [apply Hs, Hold|].
    rewrite lookup_delete_ne; [apply Hs, Hold|].
    intros Heq. rewrite <- Heq in Hr. congruence.
Qed.

Lemma step_presence (t : Transcriber) (e : event) :
  presence_inv t -> presence_inv (step t e).
Proof.
  destruct e as [socketId roomId userId now | socketId now
                | socketId id data now | i o now now' | k]; cbn [step].
  - apply createPeer_presence.
  - apply removePeer_presence.
  - intros [Hv Hs].
    destruct (ondata_frame t socketId id data now) as (Hp & Hse & _ & _ & _ & _ & Hl).
    split.
    + intros s id'. rewrite Hp, Hl. apply Hv.
    + intros r. rewrite Hse.
      rewrite (roomHasPeers_ext t _ r Hp (ondata_rooms t socketId id data now)).
      apply Hs.
  - intros [Hv Hs]. unfold processQueue_resume.
    destruct (suspended t !! i) as [a|]; [|split; assumption].
    destruct (settle _ _) as [transcript|]; [|split; assumption].
    match goal with
    | |- presence_inv (processQueue ?u now') =>
        destruct (processQueue_frame u now') as (Hp & Hh & Hse & _)
    end.
    match type of Hp with
    | context [processQueue_try ?u ?it ?tr ?n] =>
        destruct (processQueue_try_frame u it tr n) as (Hp1 & Hh1 & Hk1)
    end.
    unfold processQueue_finally in *.
    cbn [peers heap sessions set_isProcessing set_unlinks set_suspended] in *.
    split.
    + intros s id'. rewrite Hp, Hh, Hp1, Hh1. apply Hv.
    + intros r Hr. rewrite Hse. apply Hk1. cbn. apply Hs.
      rewrite <- Hr. symmetry. apply roomHasPeers_ext; congruence.
  - intros [Hv Hs]. unfold run_unlink. destruct (unlinks t !! k); split; assumption.
Qed.

Lemma reachable_presence (TP GK : option string)
    (tmp transcripts : gmap string (list byte)) (es : list event) :
  presence_inv (run (new_Transcriber TP GK tmp transcripts) es).
Proof.
  assert (Hrun : forall es t, presence_inv t -> presence_inv (run t es)).
  { clear es. intros es. induction es as [|e es IH]; intros t Ht; [exact Ht|].
    apply IH, step_presence, Ht. }
  apply Hrun. split.
  - intros s id. cbn. rewrite lookup_empty. discriminate.
  - intros r Hr. apply roomHasPeers_true in Hr as (s & id & p & Hp & _).
    cbn in Hp. rewrite lookup_empty in Hp. discriminate.
Qed.

(** X13. In every state the event loop can reach, a room in which a peer
    is registered has an open session: [roomHasPeers] says exactly that
    some registered peer records the room, and then [sessions] has the
    room. *)
Theorem occupied_room_has_session (TP GK : option string)
    (tmp transcripts : gmap string (list byte)) (es : list event)
    (roomId : string) :
  let t := run (new_Transcriber TP GK tmp transcripts) es in
  (roomHasPeers t roomId = true <->
   exists socketId id peerData,
     peers t !! socketId = Some id /\ heap t !! id = Some peerData
     /\ pd_roomId peerData = roomId)
  /\ (roomHasPeers t roomId = true -> is_Some (sessions t !! roomId)).
Proof.
  intros t. split; [apply roomHasPeers_true|].
  apply (reachable_presence TP GK tmp transcripts es).
Qed.

(** X14. Removing a peer twice is removing it once, and removing a socket
    id that is not registered changes nothing. *)
Theorem removePeer_idempotent (t : Transcriber) (socketId : string) (now now' : Z) :
  removePeer (removePeer t socketId now) socketId now' = removePeer t socketId now
  /\ (peers t !! socketId = None -> removePeer t socketId now = t).
Proof.
  assert (Hnone : forall (u : Transcriber) (n : Z),
            peers u !! socketId = None -> removePeer u socketId n = u).
  { intros u n Hu. unfold removePeer. rewrite Hu. reflexivity. }
  split; [|apply Hnone].
  destruct (peers t !! socketId) as [id|] eqn:Hp;
    [|rewrite (Hnone t now Hp); apply Hnone, Hp].
  destruct (heap t !! id) as [pd|] eqn:Hh.
  - destruct (removePeer_registered t socketId now id pd Hp Hh) as (Hp' & _).
    apply Hnone. rewrite Hp'. apply lookup_delete_eq.
  - assert (Hsame : removePeer t socketId now = t)
      by (unfold removePeer; rewrite Hp, Hh; reflexivity).
    rewrite Hsame. unfold removePeer. rewrite Hp, Hh. reflexivity.
Qed.

(** ** [cleanup] *)

Lemma removePeer_valid (t : Transcriber) (socketId : string) (now : Z) :
  peers_valid t ->
  peers (removePeer t socketId now) = delete socketId (peers t)
  /\ heap (removePeer t socketId now) = heap t
  /\ peers_valid (removePeer t socketId now).
Proof.
  intros Hv. destruct (peers t !! socketId) as [id|] eqn:Hp.
  - destruct (lookup_lt_is_Some_2 (heap t) id (Hv _ _ Hp)) as [pd Hh].
    destruct (removePeer_registered t socketId now id pd Hp Hh) as (Hp' & Hh' & _).
    split; [exact Hp'|]. split; [exact Hh'|].
    intros s id'. rewrite Hp', Hh'. intros Hl.
    apply lookup_delete_Some in Hl as [_ Hl]. eapply Hv, Hl.
  - unfold removePeer. rewrite Hp. rewrite delete_id by exact Hp. auto.
Qed.

Lemma removePeer_keeps (R : string -> Prop) (t : Transcriber) (socketId : string)
    (now : Z) :
  peers_valid t ->
  (forall r, R r -> is_Some (sessions t !! r) -> roomHasPeers t r = true) ->
  forall r, R r -> is_Some (sessions (removePeer t socketId now) !! r) ->
            roomHasPeers (removePeer t socketId now) r = true.
Proof.
  intros Hv HK r HR Hsome.
  destruct (peers t !! socketId) as [id|] eqn:Hp;
    [|unfold removePeer in *; rewrite Hp in *; auto].
  destruct (lookup_lt_is_Some_2 (heap t) id (Hv _ _ Hp)) as [pd Hh].
  destruct (removePeer_registered t socketId now id pd Hp Hh) as (Hp' & Hh' & Hcases).
  destruct (decide (pd_roomId pd = r)) as [Heq|Hne].
  - subst r. destruct Hcases as [[Hyes _] | [_ Hdel]]; [exact Hyes|].
    rewrite Hdel, lookup_delete_eq in Hsome. destruct Hsome as [? ?]. discriminate.
  - assert (Hold : is_Some (sessions t !! r)).
    { destruct Hcases as [[_ Hs] | [_ Hs]]; rewrite Hs in Hsome; [exact Hsome|].
      rewrite lookup_delete_ne in Hsome by exact Hne. exact Hsome. }
    apply (HK r HR) in Hold.
    apply roomHasPeers_true in Hold as (s & id' & p & Hps & Hhs & Hrs).
    apply roomHasPeers_true. exists s, id', p. rewrite Hp', Hh'.
    repeat split; try assumption.
    apply lookup_delete_Some. split; [|exact Hps].
    intros <-. rewrite Hp in Hps. inversion Hps; subst id'.
    rewrite Hh in Hhs. inversion Hhs; subst p. contradiction.
Qed.

Lemma cleanup_spec (R : string -> Prop) (order : list (string * Z)) (t : Transcriber) :
  peers_valid t ->
  (forall r, R r -> is_Some (sessions t !! r) -> roomHasPeers t r = true) ->
  (forall s, peers (cleanup t order) !! s
             = if decide (s ∈ order.*1) then None else peers t !! s)
  /\ (forall r, R r -> is_Some (sessions (cleanup t order) !! r) ->
                roomHasPeers (cleanup t order) r = true).
Proof.
  revert t. induction order as [|[s0 now] order IH]; intros t Hv HK.
  - split; [|exact HK]. intros s. cbn. rewrite decide_False; [reflexivity|].
    apply not_elem_of_nil.
  - destruct (removePeer_valid t s0 now Hv) as (Hp1 & _ & Hv1).
    destruct (IH (removePeer t s0 now) Hv1 (removePeer_keeps R t s0 now Hv HK))
      as [Hpeers Hkeep].
    split; [|exact Hkeep].
    intros s. change (cleanup t ((s0, now) :: order))
      with (cleanup (removePeer t s0 now) order).
    rewrite Hpeers, Hp1. cbn [fmap list_fmap fst].
    destruct (decide (s ∈ order.*1)) as [Hin|Hnin].
    + rewrite decide_True; [reflexivity|]. apply elem_of_cons. auto.
    + destruct (decide (s = s0)) as [->|Hne].
      * rewrite lookup_delete_eq. rewrite decide_True; [reflexivity|].
        apply elem_of_cons. auto.
      * rewrite lookup_delete_ne by congruence. rewrite decide_False; [reflexivity|].
        intros Hin. apply elem_of_cons in Hin as [?|?]; contradiction.
Qed.

(** X15. [cleanup], started in a state the event loop can reach and
    visiting every registered socket id, leaves no peer registered and
    closes the session of every room that had one. *)
Theorem cleanup_closes_everything (TP GK : option string)
    (tmp transcripts : gmap string (list byte)) (es : list event)
    (order : list (string * Z)) :
  let t := run (new_Transcriber TP GK tmp transcripts) es in
  (forall s, is_Some (peers t !! s) -> s ∈ order.*1) ->
  peers (cleanup t order) = ∅
  /\ forall r, roomHasPeers t r = true -> sessions (cleanup t order) !! r = None.
Proof.
  intros t Hcover.
  destruct (reachable_presence TP GK tmp transcripts es) as [Hv _]. fold t in Hv.
  destruct (cleanup_spec (fun r => roomHasPeers t r = true) order t Hv)
    as [Hpeers Hkeep]; [auto|].
  assert (Hempty : peers (cleanup t order) = ∅).
  { apply map_eq. intros s. rewrite Hpeers, lookup_empty.
    destruct (decide (s ∈ order.*1)) as [_|Hnin]; [reflexivity|].
    destruct (peers t !! s) eqn:Hs; [|reflexivity].
    exfalso. apply Hnin, Hcover. eauto. }
  split; [exact Hempty|].
  intros r Hr. destruct (sessions (cleanup t order) !! r) as [sess|] eqn:Es;
    [|reflexivity].
  exfalso. assert (Hhas : roomHasPeers (cleanup t order) r = true)
    by (apply Hkeep; [exact Hr|rewrite Es; eauto]).
  apply roomHasPeers_true in Hhas as (s & id & p & Hp & _).
  rewrite Hempty, lookup_empty in Hp. discriminate.
Qed.

(** X16. While a room has a registered peer, no accepted transcript of the
    room is lost: when the call of a job of that room settles with a text
    that is not blank, the session of the room is open and gets the text
    as its last entry. *)
Theorem transcript_saved_while_room_occupied (TP GK : option string)
    (tmp transcripts : gmap string (list byte)) (es : list event)
    (i : nat) (a : activation) (o : providerOutcome) (transcript : string)
    (now now' : Z) :
  let t := run (new_Transcriber TP GK tmp transcripts) es in
  suspended t !! i = Some a ->
  settle (act_await a) o = Some (Ok transcript) ->
  trim transcript <> ""%string ->
  roomHasPeers t (job_roomId (act_item a)) = true ->
  exists s : session,
    sessions t !! job_roomId (act_item a) = Some s
    /\ sessions (step t (EvSettled i o now now')) !! job_roomId (act_item a)
       = Some {| filePath := filePath s; startedAt := startedAt s;
                 transcriptions :=
                   transcriptions s ++
                     [{| entry_timestamp := toISOString now;
                         entry_userId := job_userId (act_item a);
                         entry_text := trim transcript |}] |}.
Proof.
  intros t Ha Hset Hnb Hocc.
  destruct (reachable_presence TP GK tmp transcripts es) as [_ Hopen]. fold t in Hopen.
  destruct (Hopen _ Hocc) as [s Hs]. exists s. split; [exact Hs|].
  apply (settled_transcript_saved t i a o transcript now now' s Ha Hset Hnb Hs).
Qed.

(** ** Closing and reopening a session *)




(** ** Entries are kept in the order in which they were saved *)

(** X19. Saving texts one after the other for an open room appends them to
    the session in that order, after the entries it had, keeps its file
    name and start time, and leaves in the file the document with all of
    them. *)
Theorem saved_in_order (items : list (string * string * Z)) (t : Transcriber)
    (roomId : string) (s : session) :
  sessions t !! roomId = Some s ->
  let s' := {| filePath := filePath s; startedAt := startedAt s;
               transcriptions := transcriptions s ++ (entry_of <$> items) |} in
  sessions (save_all t roomId items) !! roomId = Some s'
  /\ (items <> [] ->
      transcriptsDir (save_all t roomId items) !! filePath s
      = Some (yaml_file (open_document roomId s'))).
Proof.
  revert t s. induction items as [|x items IH]; intros t s Hs s'; subst s'.
  - cbn. rewrite app_nil_r. split; [|congruence]. rewrite Hs. destruct s; reflexivity.
  - change (save_all t roomId (x :: items))
      with (save_all (saveTranscription t roomId x.1.1 x.1.2 x.2) roomId items).
    set (s1 := {| filePath := filePath s; startedAt := startedAt s;
                  transcriptions := transcriptions s ++ [entry_of x] |}).
    assert (H1 : sessions (saveTranscription t roomId x.1.1 x.1.2 x.2) !! roomId
                 = Some s1
                 /\ transcriptsDir (saveTranscription t roomId x.1.1 x.1.2 x.2)
                      !! filePath s = Some (yaml_file (open_document roomId s1))).
    { unfold saveTranscription, writeTranscript. rewrite Hs. cbn.
      rewrite !lookup_insert_eq. split; reflexivity. }
    destruct H1 as [Hs1 Hf1].
    destruct (IH _ s1 Hs1) as [Hsess Hfile]. cbn [filePath startedAt transcriptions s1] in *.
    cbn [fmap list_fmap]. rewrite <- app_assoc in Hsess, Hfile. cbn [app] in Hsess, Hfile.
    split; [exact Hsess|]. intros _.
    destruct items as [|y items]; [exact Hf1|]. apply Hfile. discriminate.
Qed.

(** ** The payload of a flush *)

Lemma ondata_below_eq (t : Transcriber) (socketId : string) (id : nat)
    (data : audioData) (now : Z) (p : peerData) :
  heap t !! id = Some p ->
  num_ge (accumulate (pd_bufferDuration p) [data]) (bufferDuration t) = false ->
  ondata t socketId id data now = set_heap (<[id := push_frame p data]> (heap t)) t.
Proof.
  intros Hh Hge. unfold ondata. rewrite Hh.
  cbn [accumulate fold_left] in Hge. cbn [pd_bufferDuration bufferDuration set_heap].
  rewrite Hge. reflexivity.
Qed.

Lemma ondata_reaches_eq (t : Transcriber) (socketId : string) (id : nat)
    (data : audioData) (now : Z) (p : peerData) :
  heap t !! id = Some p ->
  num_ge (accumulate (pd_bufferDuration p) [data]) (bufferDuration t) = true ->
  ondata t socketId id data now
  = queueTranscription (set_heap (<[id := push_frame p data]> (heap t)) t)
      socketId id now.
Proof.
  intros Hh Hge. unfold ondata. rewrite Hh.
  cbn [accumulate fold_left] in Hge. cbn [pd_bufferDuration bufferDuration set_heap].
  rewrite Hge. reflexivity.
Qed.

(** X20. When the accumulated duration first reaches the threshold at the
    last of the frames delivered to a session, the gate is called on the
    bytes that were buffered followed by those of the frames, in the order
    of arrival.  A rejected segment leaves the queue as it is; an accepted
    one, while the worker is busy, is queued (the oldest job giving way
    when three are queued) with the user and room of the peer and the
    sample rate and channel count of the last frame. *)
Theorem flush_payload_in_arrival_order (t : Transcriber) (socketId : string)
    (id : nat) (p : peerData) (frames : list (audioData * Z))
    (last : audioData * Z) :
  heap t !! id = Some p ->
  (forall k : nat, (0 < k <= length frames)%nat ->
     num_ge (accumulate (pd_bufferDuration p) (take k frames.*1))
            (bufferDuration t) = false) ->
  num_ge (accumulate (pd_bufferDuration p) (frames.*1 ++ [last.1]))
         (bufferDuration t) = true ->
  let payload :=
    Buffer_concat (pd_buffer p ++ (samples_buffer <$> frames.*1)
                   ++ [samples_buffer last.1]) in
  let t' := deliver t socketId id (frames ++ [last]) in
  (exists later, gateLog t' = gateLog t ++ payload :: later)
  /\ (hasVoiceActivity payload = false ->
      queue t' = queue t /\ suspended t' = suspended t)
  /\ (hasVoiceActivity payload = true -> isProcessing t = true ->
      queue t' =
        (if (3 <=? length (queue t))%nat then tail (queue t) else queue t)
        ++ [{| job_socketId := socketId; job_userId := pd_userId p;
               job_roomId := pd_roomId p; job_audioBuffer := payload;
               job_sampleRate := data_sampleRate last.1;
               job_channelCount := data_channelCount last.1 |}]).
Proof.
  revert t p. induction frames as [|[data now] frames IH];
    intros t p Hh Hbelow Hreach payload t'; subst payload t'.
  - destruct last as [data now]. cbn [fmap list_fmap app fst] in *.
    unfold deliver. cbn [map run fold_left step fst snd].
    rewrite (ondata_reaches_eq t socketId id data now p Hh Hreach).
    set (t1 := set_heap _ t).
    assert (Hh1 : heap t1 !! id = Some (push_frame p data)).
    { subst t1. cbn. apply list_lookup_insert_eq. eapply lookup_lt_Some, Hh. }
    rewrite (queueTranscription_flush t1 socketId id now _ Hh1)
      by (cbn; intros Hnil; apply app_eq_nil in Hnil as [_ Hnil]; discriminate).
    cbv zeta. cbn [pd_buffer push_frame].
    destruct (hasVoiceActivity _) eqn:Hv.
    + split; [|split; [discriminate|]].
      * set (u := set_queue _ _).
        destruct (isProcessing u) eqn:Hp;
          [rewrite processQueue_busy by assumption; exists []; reflexivity|].
        destruct (queue u) as [|item rest] eqn:Eq;
          [rewrite processQueue_empty by assumption; exists []; reflexivity|].
        destruct (processQueue_start u now item rest Hp Eq)
          as (_ & _ & _ & _ & _ & _ & _ & _ & _ & _ & Hsus).
        destruct Hsus as [(_ & _ & -> & _) | (a & _ & _ & Hw)];
          [exists []; reflexivity|].
        pose proof (processQueue_gate u now item rest _ Hp Eq Hw) as Hg.
        cbv zeta in Hg. destruct (String.eqb _ _).
        -- destruct Hg as (file & _ & -> & _). exists [file].
           subst u. cbn [gateLog set_queue set_gateLog]. rewrite <- app_assoc.
           reflexivity.
        -- destruct Hg as [-> _]. exists []. reflexivity.
      * intros _ Hp. rewrite processQueue_busy by exact Hp. reflexivity.
    + split; [exists []; reflexivity|]. split; [|discriminate].
      intros _. split; reflexivity.
  - assert (H1 : num_ge (accumulate (pd_bufferDuration p) [data])
                        (bufferDuration t) = false).
    { apply (Hbelow 1%nat). simpl. lia. }
    pose proof (ondata_below_eq t socketId id data now p Hh H1) as Hstep.
    set (t1 := set_heap (<[id := push_frame p data]> (heap t)) t) in *.
    assert (Hh1 : heap t1 !! id = Some (push_frame p data)).
    { subst t1. cbn. apply list_lookup_insert_eq. eapply lookup_lt_Some, Hh. }
    destruct (IH t1 (push_frame p data) Hh1) as (Hlog & Hrej & Hacc).
    + intros k Hk. apply (Hbelow (S k)). simpl. lia.
    + exact Hreach.
    + cbn [pd_buffer push_frame pd_userId pd_roomId] in Hlog, Hrej, Hacc.
      rewrite <- app_assoc in Hlog, Hrej, Hacc. cbn [app] in Hlog, Hrej, Hacc.
      unfold deliver in *. cbn [map run fold_left step fst snd app fmap list_fmap].
      cbn [map run fold_left app] in Hlog, Hrej, Hacc.
      rewrite Hstep. fold t1. split; [exact Hlog|]. split; [exact Hrej|exact Hacc].
Qed.

(** ** Joining and leaving *)




(** ** The temporary file of a job *)

(** X27. Whatever the outcome of a job, a result or an error, when its
    call settles its temporary file is handed to [unlink] once, as the
    last pending call; and when a pending [unlink] completes, its file is
    gone from the directory, the other files are kept, and the call is no
    longer pending. *)
Theorem wav_file_unlinked (t : Transcriber) (i : nat) (a : activation)
    (o : providerOutcome) (transcript : result string) (now now' : Z) :
  suspended t !! i = Some a ->
  settle (act_await a) o = Some transcript ->
  unlinks (step t (EvSettled i o now now')) = unlinks t ++ [act_wavPath a]
  /\ forall (u : Transcriber) (k : nat) (path : string),
       unlinks u !! k = Some path ->
       tmpDir (step u (EvUnlinked k)) !! path = None
       /\ (forall other, other <> path ->
             tmpDir (step u (EvUnlinked k)) !! other = tmpDir u !! other)
       /\ unlinks (step u (EvUnlinked k)) = delete k (unlinks u).
Proof.
  intros Ha Hset. split.
  - cbn [step]. unfold processQueue_resume. rewrite Ha, Hset.
    match goal with
    | |- context [processQueue ?u now'] =>
        destruct (processQueue_frame u now') as (_ & _ & _ & _ & _ & _ & _ & ->)
    end.
    unfold processQueue_finally, processQueue_try.
    cbn [unlinks set_isProcessing set_unlinks].
    destruct transcript as [s|e]; [|reflexivity].
    destruct (truthy s && truthy (trim s)); [|reflexivity].
    unfold emit_transcription, saveTranscription, writeTranscript. cbn.
    destruct (sessions t !! job_roomId (act_item a)); reflexivity.
  - intros u k path Hk. cbn [step]. unfold run_unlink. rewrite Hk. cbn.
    split; [apply lookup_delete_eq|]. split; [|reflexivity].
    intros other Hne. apply lookup_delete_ne. congruence.
Qed.

End FurtherProperties.

(** * The room registry *)

Lemma rooms_get_app (rooms : list (string * roomData)) (id id' : string)
    (d : roomData) :
  rooms_get (rooms ++ [(id', d)]) id =
  match rooms_get rooms id with
  | Some x => Some x
  | None => if String.eqb id' id then Some d else None
  end.
Proof.
  unfold rooms_get. induction rooms as [|[k v] rooms IH]; cbn.
  - destruct (String.eqb id' id); reflexivity.
  - destruct (String.eqb k id); [reflexivity|exact IH].
Qed.

Lemma rooms_get_delete (rooms : list (string * roomData)) (id id' : string) :
  rooms_get (rooms_delete rooms id') id =
  if String.eqb id' id then None else rooms_get rooms id.
Proof.
  unfold rooms_get, rooms_delete. induction rooms as [|[k v] rooms IH]; cbn.
  - destruct (String.eqb id' id); reflexivity.
  - destruct (String.eqb_spec k id') as [->|Hk]; cbn.
    + rewrite IH. destruct (String.eqb id' id); reflexivity.
    + destruct (String.eqb_spec k id) as [->|Hk'].
      * destruct (String.eqb_spec id' id); [congruence|reflexivity].
      * exact IH.
Qed.

Lemma rooms_delete_absent (rooms : list (string * roomData)) (id : string) :
  rooms_get rooms id = None -> rooms_delete rooms id = rooms.
Proof.
  unfold rooms_delete, rooms_get.
  induction rooms as [|[k v] rooms IH]; [reflexivity|].
  cbn. destruct (String.eqb k id) eqn:Hk; [discriminate|].
  intros Hnone. cbn. rewrite IH by exact Hnone. reflexivity.
Qed.

Lemma rooms_set_fresh (rooms : list (string * roomData)) (id : string)
    (d : roomData) :
  rooms_has rooms id = false -> rooms_set rooms id d = rooms ++ [(id, d)].
Proof. intros H. unfold rooms_set. rewrite H. reflexivity. Qed.

(** One request leaves the data of a registered room alone unless it
    deletes the room. *)
Lemma handle_keeps (rooms : list (string * roomData)) (r : request) (id : string)
    (d : roomData) :
  rooms_get rooms id = Some d -> deletes id r = false ->
  rooms_get (handle rooms r).1 id = Some d.
Proof.
  intros Hg Hd.
  assert (Hfresh : forall id' d', rooms_has rooms id' = false ->
            rooms_get (rooms_set rooms id' d') id = Some d).
  { intros id' d' Hf. rewrite rooms_set_fresh by exact Hf.
    rewrite rooms_get_app, Hg. reflexivity. }
  destruct r as [sockets | id' name now | id' sockets | socketId roomId now
                | socketId roomId]; cbn [handle fst].
  - exact Hg.
  - destruct (negb (truthy _)); [exact Hg|].
    destruct (rooms_has rooms _) eqn:Hh; [exact Hg|]. cbn [fst]. apply Hfresh, Hh.
  - cbn [deletes] in Hd. destruct (String.eqb id' "default"); [exact Hg|].
    destruct sockets as [[|n]|]; cbn [fst]; try exact Hg;
      rewrite rooms_get_delete, Hd; exact Hg.
  - destruct (rooms_has rooms roomId) eqn:Hh; cbn [negb]; [exact Hg|].
    apply Hfresh, Hh.
  - exact Hg.
Qed.

(** X23. Whatever is posted, joined or left, a registered room keeps its
    name and its creation time for as long as no request deletes it. *)
Theorem registered_room_keeps_data (rs : list request)
    (rooms : list (string * roomData)) (id : string) (d : roomData) :
  rooms_get rooms id = Some d ->
  forallb (fun r => negb (deletes id r)) rs = true ->
  rooms_get (serve rooms rs) id = Some d.
Proof.
  revert rooms. induction rs as [|r rs IH]; intros rooms Hg Hnd; [exact Hg|].
  cbn [forallb] in Hnd. apply andb_true_iff in Hnd as [Hr Hrs].
  change (serve rooms (r :: rs)) with (serve (handle rooms r).1 rs).
  apply IH; [|exact Hrs]. apply handle_keeps; [exact Hg|].
  destruct (deletes id r); [discriminate|reflexivity].
Qed.

(** X24. The room "default" that the server registers when it starts is
    there after any sequence of requests, with the name "Default Room" and
    the time of the start: a request to delete it is refused. *)
Theorem default_room_persists (now : Z) (rs : list request) :
  rooms_get (serve (rooms_initial now) rs) "default"
  = Some {| room_name := "Default Room"; room_createdAt := now |}
  /\ forall rooms sockets,
       handle rooms (DeleteRoom "default" sockets)
       = (rooms, Status 400 "Cannot delete default room").
Proof.
  split; [|reflexivity].
  revert rs. generalize (rooms_initial now), (eq_refl : rooms_get (rooms_initial now) "default" = Some {| room_name := "Default Room"; room_createdAt := now |}).
  intros rooms Hg rs. revert rooms Hg.
  induction rs as [|r rs IH]; intros rooms Hg; [exact Hg|].
  change (serve rooms (r :: rs)) with (serve (handle rooms r).1 rs).
  apply IH.
  destruct r as [sockets | id' name t | id' sockets | socketId roomId t
                | socketId roomId];
    try (apply handle_keeps; [exact Hg|reflexivity]).
  destruct (String.eqb_spec id' "default") as [->|Hne]; [exact Hg|].
  apply handle_keeps; [exact Hg|]. cbn [deletes].
  apply String.eqb_neq. exact Hne.
Qed.

(** X25. Creating a room: a request without an id is answered 400 and one
    for a registered id 409, both without any change; otherwise the room
    is registered last, under the given name or, without one, under its
    id, and posting the same id again is answered 409. *)
Theorem post_room (rooms : list (string * roomData)) (id name : option string)
    (now : Z) :
  let key := or_default id "" in
  let rooms' := (handle rooms (PostRoom id name now)).1 in
  (key = ""%string ->
   handle rooms (PostRoom id name now) = (rooms, Status 400 "Room ID required"))
  /\ (key <> ""%string -> rooms_has rooms key = true ->
      handle rooms (PostRoom id name now) = (rooms, Status 409 "Room already exists"))
  /\ (key <> ""%string -> rooms_has rooms key = false ->
      handle rooms (PostRoom id name now)
      = (rooms ++ [(key, {| room_name := or_default name key;
                            room_createdAt := now |})],
         Created key (or_default name key))
      /\ rooms_get rooms' key
         = Some {| room_name := or_default name key; room_createdAt := now |}
      /\ forall name' now',
           handle rooms' (PostRoom id name' now')
           = (rooms', Status 409 "Room already exists")).
Proof.
  intros key rooms'. subst rooms'. unfold handle. cbv zeta. fold key.
  split; [intros ->; reflexivity|].
  assert (Ht : key <> ""%string -> negb (truthy key) = false).
  { destruct key; [congruence|reflexivity]. }
  split.
  - intros Hk Hh. rewrite (Ht Hk), Hh. reflexivity.
  - intros Hk Hh. rewrite (Ht Hk), Hh. cbn [fst].
    rewrite rooms_set_fresh by exact Hh.
    assert (Hget : rooms_get (rooms ++ [(key, {| room_name := or_default name key;
                                                 room_createdAt := now |})]) key
                   = Some {| room_name := or_default name key; room_createdAt := now |}).
    { rewrite rooms_get_app. unfold rooms_has in Hh.
      destruct (rooms_get rooms key); [discriminate|].
      rewrite String.eqb_refl. reflexivity. }
    split; [reflexivity|]. split; [exact Hget|].
    intros name' now'. unfold rooms_has. rewrite Hget. reflexivity.
Qed.

(** X26. Deleting a room: a room with sockets in it is not deleted; a room
    other than "default" without sockets is removed from the registry and
    the others are kept; and the answer is "deleted" whether or not the
    room was registered. *)
Theorem delete_room (rooms : list (string * roomData)) (id : string)
    (socketsInRoom : option nat) :
  id <> "default"%string ->
  (forall n, socketsInRoom = Some (S n) ->
     handle rooms (DeleteRoom id socketsInRoom) = (rooms, Status 400 "Room not empty"))
  /\ (socketsInRoom = None \/ socketsInRoom = Some 0%nat ->
      (handle rooms (DeleteRoom id socketsInRoom)).2 = Deleted id
      /\ rooms_get (handle rooms (DeleteRoom id socketsInRoom)).1 id = None
      /\ (forall other, other <> id ->
            rooms_get (handle rooms (DeleteRoom id socketsInRoom)).1 other
            = rooms_get rooms other)
      /\ (rooms_get rooms id = None ->
          (handle rooms (DeleteRoom id socketsInRoom)).1 = rooms)).
Proof.
  intros Hne. cbn [handle].
  rewrite (proj2 (String.eqb_neq id "default") Hne).
  split; [intros n ->; reflexivity|].
  intros Hs.
  assert (Hd : (match socketsInRoom with
                | Some (S _) => (rooms, Status 400 "Room not empty")
                | _ => (rooms_delete rooms id, Deleted id)
                end) = (rooms_delete rooms id, Deleted id))
    by (destruct Hs as [-> | ->]; reflexivity).
  rewrite Hd. cbn [fst snd]. split; [reflexivity|].
  split; [rewrite rooms_get_delete, String.eqb_refl; reflexivity|].
  split.
  - intros other Ho. rewrite rooms_get_delete.
    rewrite (proj2 (String.eqb_neq id other)) by congruence. reflexivity.
  - apply rooms_delete_absent.
Qed.

(** * Worked examples *)

#[local] Existing Instance exampleRuntime.

Lemma writeWav_container_witness :
  exists (dir' : gmap string (list byte)) (file : list byte),
    writeWav ∅ "s1-2000.wav" (loud 4) 48000 1 = Ok dir'
    /\ dir' = <["s1-2000.wav"%string := file]> ∅
    /\ readUInt32LE file 40 = 8 /\ readUInt32LE file 28 = 96000
    /\ readUInt16LE file 32 = 2 /\ readUInt32LE file 4 = 44
    /\ wavPayload file = loud 4.
Proof.
  destruct (writeWav_container ∅ "s1-2000.wav" (loud 4) 48000 1) as [Hex Hc].
  destruct Hex as [dir' Hw]; [simpl; lia..|].
  destruct (Hc dir' Hw) as (file & Hd & _ & H40 & H28 & H32 & H4 & _ & Hp).
  exists dir', file. auto 10.
Defined.

Lemma single_flight_witness :
  let t := run ex_local [ex_join; ex_speech 2000; ex_speech 3000] in
  (inFlight t <= 1)%nat
  /\ processQueue t 3500 = t
  /\ isProcessing (step t (EvSettled 0 WhisperError 4000 4001)) = true
  /\ queue (step t (EvSettled 0 WhisperError 4000 4001)) = [].
Proof.
  intros t.
  destruct (single_flight (RT := exampleRuntime) (Some "local-whisper"%string) None
              ∅ ∅ [ex_join; ex_speech 2000; ex_speech 3000]) as (H1 & H2 & H3).
  split; [exact H1|].
  split; [apply H2; vm_compute; reflexivity|].
  pose proof (H3 0%nat (ex_activation AwaitWhisper) WhisperError
                (Throw ProviderError) 4000 4001 eq_refl eq_refl) as H.
  vm_compute in H. destruct H as (Hp & Hq & _).
  split; [vm_compute; exact Hp|vm_compute; exact Hq].
Defined.

Lemma queue_bounded_drop_oldest_witness :
  let t := run ex_local
             [ex_join; ex_speech 2000; ex_speech 3000; ex_speech 4000;
              ex_speech 5000; EvData "s1" 0 (frame (loud 4) 480) 6000] in
  let peerData :=
    {| pd_buffer := [loud 4];
       pd_bufferDuration :=
         num_add (num_of_Z 0) (num_div (num_of_Z 480) (num_of_Z 48000));
       pd_userId := "A"; pd_roomId := "standup";
       pd_sampleRate := 48000; pd_channelCount := 1 |} in
  length (queue t) = 3%nat
  /\ exists oldest rest,
       queue t = oldest :: rest
       /\ queue (queueTranscription t "s1" 0 7000)
          = rest ++ [job_of "s1" peerData (loud 4)].
Proof.
  intros t peerData. split; [vm_compute; reflexivity|].
  destruct (queue_bounded_drop_oldest (RT := exampleRuntime)
              (Some "local-whisper"%string) None ∅ ∅
              [ex_join; ex_speech 2000; ex_speech 3000; ex_speech 4000;
               ex_speech 5000; EvData "s1" 0 (frame (loud 4) 480) 6000])
    as [_ Hfull].
  apply (Hfull "s1"%string 0%nat 7000 peerData).
  - vm_compute. reflexivity.
  - discriminate.
  - vm_compute. reflexivity.
  - vm_compute. reflexivity.
Defined.

Lemma gate_before_queue_and_before_groq_witness :
  let t := run ex_groq [ex_join; ex_speech 2000;
                        EvData "s1" 0 (frame (loud 2) 480) 2500] in
  let u := set_queue [ex_job] ex_groq in
  (hasVoiceActivity (job_audioBuffer ex_job) = true
   /\ job_audioBuffer ex_job ∈ gateLog t)
  /\ (exists later,
        gateLog (queueTranscription t "s1" 0 3000) = gateLog t ++ loud 2 :: later)
  /\ exists file,
       ex_tmpDir !! "s1-2000.wav"%string = Some file
       /\ drop 44 file = loud 4
       /\ gateLog (processQueue u 2000) = [file]
       /\ hasVoiceActivity file = true
       /\ suspended (processQueue u 2000) = [ex_activation AwaitGroq].
Proof.
  intros t u.
  destruct (gate_before_queue_and_before_groq (RT := exampleRuntime)
              (Some "groq"%string) (Some "gsk"%string) ∅ ∅
              [ex_join; ex_speech 2000; EvData "s1" 0 (frame (loud 2) 480) 2500])
    as (Hj & Hq & Hw).
  split; [|split].
  - apply Hj. apply list_elem_of_In. vm_compute. left. reflexivity.
  - apply (Hq "s1"%string 0%nat 3000
             {| pd_buffer := [loud 2];
                pd_bufferDuration :=
                  num_add (num_of_Z 0) (num_div (num_of_Z 480) (num_of_Z 48000));
                pd_userId := "A"; pd_roomId := "standup";
                pd_sampleRate := 48000; pd_channelCount := 1 |});
      [vm_compute; reflexivity | discriminate].
  - destruct (Hw u 2000 ex_job [] ex_tmpDir) as (file & Hl & _ & Hd & Hg & Hv & Hs);
      [reflexivity | reflexivity | reflexivity | vm_compute; reflexivity
      | vm_compute; reflexivity |].
    exists file. auto 10.
Defined.

Lemma provider_failure_dropped_witness :
  let t := run ex_local [ex_join; ex_speech 2000; ex_speech 3000] in
  let t' := step t (EvSettled 0 (WhisperClose 1 None) 4000 4001) in
  sessions t' = sessions t /\ transcriptsDir t' = transcriptsDir t
  /\ emitted t' = emitted t /\ queue t' = tail (queue t).
Proof.
  intros t t'.
  destruct (provider_failure_dropped (RT := exampleRuntime) t 0
              (ex_activation AwaitWhisper) (WhisperClose 1 None)
              (Throw ProviderError) 4000 4001)
    as (_ & _ & Hs & Hd & He & Hq & _);
    [vm_compute; reflexivity | reflexivity | reflexivity | reflexivity |].
  auto.
Defined.

Lemma flush_once_at_threshold_witness :
  let t := run ex_local [ex_join] in
  let frames := [(frame (loud 2) 120000, 1500)] in
  let last := (frame (loud 2) 120000, 2000) in
  flushes t "s1" 0 frames = 0%nat
  /\ flushes t "s1" 0 (frames ++ [last]) = 1%nat
  /\ exists peerData',
       heap (deliver t "s1" 0 (frames ++ [last])) !! 0%nat = Some peerData'
       /\ pd_buffer peerData' = []
       /\ pd_bufferDuration peerData' = num_of_Z 0.
Proof.
  intros t frames last.
  apply (flush_once_at_threshold (RT := exampleRuntime) t "s1" 0 ex_peer frames last).
  - vm_compute. reflexivity.
  - intros k Hk. assert (k = 1%nat) as -> by (simpl in Hk; lia).
    vm_compute. reflexivity.
  - vm_compute. reflexivity.
Defined.

Lemma startSession_idempotent_witness :
  let t := run ex_local [ex_join] in
  startSession t "standup" 9999 = (t, ex_session).
Proof.
  intros t.
  destruct (startSession_idempotent (RT := exampleRuntime) t "standup" 9999 9999)
    as (Hopen & _ & _).
  apply Hopen. vm_compute. reflexivity.
Defined.

Lemma broadcast_without_session_witness :
  let t := run ex_local [ex_join; ex_speech 2000; EvRemovePeer "s1" 2500] in
  let t' := step t (EvSettled 0 (WhisperClose 0 (Some " hello world "%string))
                      3000 3001) in
  emitted t' = [("standup"%string,
                 {| msg_userId := "A"; msg_text := "hello world";
                    msg_timestamp := 3000 |})]
  /\ sessions t' = ∅
  /\ transcriptsDir t' = transcriptsDir t.
Proof.
  intros t t'.
  destruct (broadcast_without_session (RT := exampleRuntime) t 0
              (ex_activation AwaitWhisper)
              (WhisperClose 0 (Some " hello world "%string))
              " hello world "%string 3000 3001)
    as (He & Hs & Hd & _);
    [vm_compute; reflexivity | reflexivity | reflexivity | vm_compute; reflexivity |].
  fold t' in He, Hs, Hd. rewrite He, Hs. split; [vm_compute; reflexivity|].
  split; [vm_compute; reflexivity|exact Hd].
Defined.

Lemma empty_segment_rejected_witness :
  let t := run ex_local [ex_join; EvData "s1" 0 (frame [] 0) 2000] in
  queue (queueTranscription t "s1" 0 3000) = queue t
  /\ suspended (queueTranscription t "s1" 0 3000) = suspended t.
Proof.
  intros t.
  destruct (empty_segment_rejected (RT := exampleRuntime)) as (_ & _ & _ & Hq).
  apply (Hq t "s1"%string 0%nat 3000
           {| pd_buffer := [[]];
              pd_bufferDuration :=
                num_add (num_of_Z 0) (num_div (num_of_Z 0) (num_of_Z 48000));
              pd_userId := "A"; pd_roomId := "standup";
              pd_sampleRate := 48000; pd_channelCount := 1 |}).
  - vm_compute. reflexivity.
  - reflexivity.
Defined.

(** C3, counterexample.  One segment of speech reaches the worker.  Under
    the local provider the gate has been called once when the subprocess
    runs.  Under the "groq" provider it has been called twice, and the
    second call was on the 52 bytes of the container, not on the 8 bytes of
    the payload. *)
Lemma gate_twice_same_payload_counterexample :
  let es := [ex_join; ex_speech 2000] in
  let tL := run ex_local es in
  let tG := run ex_groq es in
  (suspended tL = [ex_activation AwaitWhisper] /\ gateLog tL = [loud 4])
  /\ (suspended tG = [ex_activation AwaitGroq]
      /\ exists file, gateLog tG = [loud 4; file]
                      /\ length file = 52%nat /\ file <> loud 4).
Proof.
  intros es tL tG. split; [split; vm_compute; reflexivity|].
  split; [vm_compute; reflexivity|].
  eexists. split; [vm_compute; reflexivity|].
  split; [reflexivity|discriminate].
Qed.

(** C4, at the failing input.  Under the local provider the subprocess
    prints " Thank you. "; trimmed and lower-cased this is "thank you.",
    the first phrase of the deny-list with a trailing period, and yet the
    transcript is saved in the session and emitted to the room. *)
Lemma local_whisper_hallucination_kept :
  let t := run ex_local [ex_join; ex_speech 2000] in
  let t' := step t (EvSettled 0 (WhisperClose 0 (Some " Thank you. "%string))
                      3000 3001) in
  toLowerCase (trim " Thank you. ") = ("thank you" +:+ ".")%string
  /\ In "thank you"%string hallucinations
  /\ emitted t' = [("standup"%string,
                    {| msg_userId := "A"; msg_text := "Thank you.";
                       msg_timestamp := 3000 |})]
  /\ (transcriptions <$> sessions t' !! "standup"%string)
     = Some [{| entry_timestamp := "1970-01-01T00:00:3.0Z"; entry_userId := "A";
                entry_text := "Thank you." |}].
Proof.
  intros t t'. split; [vm_compute; reflexivity|].
  split; [left; reflexivity|]. split; vm_compute; reflexivity.
Qed.

(** The same answer under the "groq" provider is dropped, and "hello there"
    is kept. *)
Lemma groq_hallucination_example :
  let t := run ex_groq [ex_join; ex_speech 2000] in
  emitted (step t (EvSettled 0 (GroqResolved " Thank you. ") 3000 3001)) = []
  /\ transcribeWithGroq_resume "hello there" = "hello there"%string.
Proof. intros t. split; vm_compute; reflexivity. Qed.

(** The scenario of the "standup" room: 5.2 s of silence are flushed and
    rejected by the gate; 5.0 s of amplitude 80 are flushed, queued, encoded
    as a 48 kHz mono container and handed to the provider; its answer
    "hello world" is appended to the session, whose file then lists one
    entry, and emitted to the room. *)
Example standup_scenario :
  let silence := EvData "s1" 0 (frame (quiet 4) 249600) 1500 in
  let t1 := run ex_local [ex_join; silence] in
  let t2 := step t1 (ex_speech 2000) in
  let t3 := step t2 (EvSettled 0 (WhisperClose 0 (Some "hello world"%string))
                       3000 3001) in
  (queue t1 = [] /\ suspended t1 = [] /\ emitted t1 = []
   /\ (transcriptions <$> sessions t1 !! "standup"%string) = Some [])
  /\ (suspended t2 = [ex_activation AwaitWhisper]
      /\ (wavPayload <$> tmpDir t2 !! "s1-2000.wav"%string) = Some (loud 4)
      /\ (fun f => (readUInt32LE f 24, readUInt16LE f 22, readUInt16LE f 34))
           <$> tmpDir t2 !! "s1-2000.wav"%string = Some (48000, 1, 16))
  /\ (emitted t3 = [("standup"%string,
                     {| msg_userId := "A"; msg_text := "hello world";
                        msg_timestamp := 3000 |})]
      /\ (length ∘ transcriptions <$> sessions t3 !! "standup"%string) = Some 1%nat
      /\ isProcessing t3 = false).
Proof. repeat split; vm_compute; reflexivity. Qed.

(** ** Worked examples of the further properties *)

Lemma quiet_segment_rejected_witness : hasVoiceActivity (quiet 4) = false.
Proof.
  apply quiet_segment_rejected.
  assert (E : Int16Array (quiet 4) = [0; 0; 0; 0]) by (vm_compute; reflexivity).
  rewrite E. repeat (constructor; [cbn; lia|]). constructor.
Defined.

Lemma loud_segment_accepted_witness : hasVoiceActivity (loud 4) = true.
Proof.
  apply loud_segment_accepted; [cbn; lia|].
  assert (E : Int16Array (loud 4) = [80; 80; 80; 80]) by (vm_compute; reflexivity).
  rewrite E. repeat (constructor; [cbn; lia|]). constructor.
Defined.

Lemma trailing_byte_ignored_witness :
  hasVoiceActivity (loud 4 ++ [xff]) = hasVoiceActivity (loud 4).
Proof.
  apply trailing_byte_ignored. exists 4%nat. reflexivity.
Defined.

Lemma writeWav_throws_iff_witness :
  writeWav ∅ "s1-2000.wav" (loud 4) 48000 40000 = Throw RangeError.
Proof.
  apply (writeWav_throws_iff ∅ "s1-2000.wav" (loud 4) 48000 40000).
  unfold wav_fields_fit. lia.
Defined.

Lemma writeWav_format_fields_witness :
  exists file,
    ex_tmpDir !! "s1-2000.wav"%string = Some file
    /\ length file = 52%nat
    /\ readUInt16LE file 22 = 1 /\ readUInt32LE file 24 = 48000.
Proof.
  destruct (writeWav_format_fields ∅ "s1-2000.wav" (loud 4) 48000 1 ex_tmpDir)
    as (file & Hl & Hlen & _ & _ & _ & _ & _ & Hc & Hr & _);
    [vm_compute; reflexivity|].
  exists file. auto.
Defined.

(** A job whose sample rate does not fit the 32 bits of its header field. *)
Lemma stuck_after_RangeError_witness :
  let bad := {| job_socketId := "s1"; job_userId := "A"; job_roomId := "standup";
                job_audioBuffer := loud 4; job_sampleRate := 2 ^ 32;
                job_channelCount := 1 |} in
  let t' := run (processQueue (set_queue [bad] ex_local) 1500)
                [ex_join; ex_speech 2000] in
  isProcessing t' = true /\ suspended t' = [] /\ inFlight t' = 0%nat
  /\ emitted t' = [] /\ rejections t' = 1%nat.
Proof.
  intros bad t'.
  apply (stuck_after_RangeError (set_queue [bad] ex_local) 1500 bad []
           [ex_join; ex_speech 2000]); try reflexivity.
  unfold wav_fields_fit. cbn. lia.
Defined.

Lemma provider_chosen_at_startup_witness :
  provider (run (new_Transcriber (Some "groq"%string) None ∅ ∅)
                [ex_join; ex_speech 2000]) = "local-whisper"%string
  /\ provider (run (new_Transcriber (Some "whisper-x"%string) None ∅ ∅)
                  [ex_join; ex_speech 2000]) = "whisper-x"%string
  /\ provider (run (new_Transcriber None (Some "gsk"%string) ∅ ∅)
                  [ex_join; ex_speech 2000]) = "groq"%string.
Proof.
  destruct (provider_chosen_at_startup (Some "groq"%string) None ∅ ∅
              [ex_join; ex_speech 2000]) as (_ & Hfall & _).
  destruct (provider_chosen_at_startup (Some "whisper-x"%string) None ∅ ∅
              [ex_join; ex_speech 2000]) as (_ & _ & Hkeep & _).
  destruct (provider_chosen_at_startup None (Some "gsk"%string) ∅ ∅
              [ex_join; ex_speech 2000]) as (Hgroq & _).
  split; [apply Hfall; reflexivity|].
  split; [apply Hkeep; discriminate|].
  apply Hgroq. split; [reflexivity|discriminate].
Defined.

Lemma blank_transcript_dropped_witness :
  let t := run ex_local [ex_join; ex_speech 2000] in
  let t' := step t (EvSettled 0 (WhisperClose 0 None) 3000 3001) in
  emitted t' = emitted t /\ sessions t' = sessions t
  /\ transcriptsDir t' = transcriptsDir t.
Proof.
  intros t t'.
  destruct (blank_transcript_dropped t 0 (ex_activation AwaitWhisper)
              (WhisperClose 0 None) "" 3000 3001)
    as (He & Hs & Hd & _); [vm_compute; reflexivity | reflexivity | reflexivity |].
  auto.
Defined.

Lemma accepted_transcript_saved_and_emitted_witness :
  let t := run ex_local [ex_join; ex_speech 2000] in
  let t' := step t (EvSettled 0 (WhisperClose 0 (Some " hello world "%string))
                      3000 3001) in
  (transcriptions <$> sessions t' !! "standup"%string)
  = Some [{| entry_timestamp := toISOString 3000; entry_userId := "A";
             entry_text := "hello world" |}]
  /\ emitted t' = [message_of ex_job " hello world " 3000].
Proof.
  intros t t'.
  destruct (accepted_transcript_saved_and_emitted t 0 (ex_activation AwaitWhisper)
              (WhisperClose 0 (Some " hello world "%string)) " hello world "
              3000 3001 ex_session)
    as (Hs & _ & He & _);
    [vm_compute; reflexivity | reflexivity | vm_compute; discriminate
    | vm_compute; reflexivity |].
  fold t' in Hs, He.
  replace (sessions t' !! "standup"%string)
    with (sessions t' !! job_roomId (act_item (ex_activation AwaitWhisper)))
    by reflexivity.
  rewrite Hs, He. split; reflexivity.
Defined.

Lemma groq_never_emits_denylisted_witness :
  toLowerCase "Hello" <> "bye"%string
  /\ toLowerCase "Hello" <> ("bye" +:+ ".")%string.
Proof.
  apply (groq_never_emits_denylisted (Some "groq"%string) (Some "gsk"%string) ∅ ∅
           [ex_join; ex_speech 2000; EvSettled 0 (GroqResolved " Hello ") 3000 3001]
           eq_refl
           ("standup"%string,
            {| msg_userId := "A"; msg_text := "Hello"; msg_timestamp := 3000 |})
           "bye"%string).
  - apply list_elem_of_In. vm_compute. left. reflexivity.
  - vm_compute. tauto.
Defined.

Lemma occupied_room_has_session_witness :
  is_Some (sessions (run ex_local [ex_join; ex_speech 2000]) !! "standup"%string).
Proof.
  destruct (occupied_room_has_session (Some "local-whisper"%string) None ∅ ∅
              [ex_join; ex_speech 2000] "standup") as [_ Hopen].
  apply Hopen. vm_compute. reflexivity.
Defined.

Lemma removePeer_idempotent_witness :
  removePeer ex_local "nobody" 1000 = ex_local.
Proof.
  destruct (removePeer_idempotent ex_local "nobody" 1000 1000) as [_ Hnone].
  apply Hnone. reflexivity.
Defined.

Lemma cleanup_closes_everything_witness :
  let t := run ex_local [ex_join; ex_speech 2000] in
  peers (cleanup t [("s1"%string, 5000)]) = ∅
  /\ sessions (cleanup t [("s1"%string, 5000)]) !! "standup"%string = None.
Proof.
  intros t.
  destruct (cleanup_closes_everything (Some "local-whisper"%string) None ∅ ∅
              [ex_join; ex_speech 2000] [("s1"%string, 5000)]) as [Hp Hs].
  - intros s Hsome. cbn [fmap list_fmap fst]. apply list_elem_of_singleton.
    destruct (decide (s = "s1"%string)) as [Heq|Hne]; [exact Heq|].
    exfalso. replace (peers (run (new_Transcriber (Some "local-whisper"%string) None
                                    ∅ ∅) [ex_join; ex_speech 2000]))
      with (<["s1"%string := 0%nat]> (∅ : gmap string nat)) in Hsome
      by (vm_compute; reflexivity).
    rewrite lookup_insert_ne, lookup_empty in Hsome by congruence.
    destruct Hsome as [? ?]. discriminate.
  - split; [exact Hp|]. apply Hs. vm_compute. reflexivity.
Defined.

Lemma transcript_saved_while_room_occupied_witness :
  let t := run ex_local [ex_join; ex_speech 2000] in
  exists s : session,
    sessions t !! "standup"%string = Some s
    /\ (transcriptions <$>
          sessions (step t (EvSettled 0 (WhisperClose 0 (Some "hello"%string))
                              3000 3001)) !! "standup"%string)
       = Some (transcriptions s ++
                 [{| entry_timestamp := toISOString 3000; entry_userId := "A";
                     entry_text := "hello" |}]).
Proof.
  intros t.
  destruct (transcript_saved_while_room_occupied (Some "local-whisper"%string) None
              ∅ ∅ [ex_join; ex_speech 2000] 0 (ex_activation AwaitWhisper)
              (WhisperClose 0 (Some "hello"%string)) "hello" 3000 3001)
    as (s & Hs & Hs');
    [vm_compute; reflexivity | reflexivity | vm_compute; discriminate
    | vm_compute; reflexivity |].
  exists s. split; [exact Hs|].
  exact (f_equal (fmap transcriptions) Hs').
Defined.



Lemma saved_in_order_witness :
  let t := run ex_local [ex_join] in
  (transcriptions <$>
     sessions (save_all t "standup"
                 [("A"%string, "one"%string, 2000); ("B"%string, "two"%string, 3000)])
       !! "standup"%string)
  = Some [entry_of ("A"%string, "one"%string, 2000);
          entry_of ("B"%string, "two"%string, 3000)].
Proof.
  intros t.
  destruct (saved_in_order
              [("A"%string, "one"%string, 2000); ("B"%string, "two"%string, 3000)]
              t "standup" ex_session) as [Hs _]; [vm_compute; reflexivity|].
  rewrite Hs. reflexivity.
Defined.

Lemma flush_payload_in_arrival_order_witness :
  let t := run ex_local [ex_join; ex_speech 1200] in
  let frames := [(frame (loud 2) 120000, 1500)] in
  let last := (frame (loud 3) 120000, 2000) in
  let t' := deliver t "s1" 0 (frames ++ [last]) in
  (exists later, gateLog t' = gateLog t ++ loud 5 :: later)
  /\ queue t' = [job_of "s1" ex_peer (loud 5)].
Proof.
  intros t frames last t'.
  destruct (flush_payload_in_arrival_order t "s1" 0 ex_peer frames last)
    as (Hlog & _ & Hacc).
  - vm_compute. reflexivity.
  - intros k Hk. assert (k = 1%nat) as -> by (simpl in Hk; lia).
    vm_compute. reflexivity.
  - vm_compute. reflexivity.
  - split; [exact Hlog|].
    apply Hacc; vm_compute; reflexivity.
Defined.



Lemma registered_room_keeps_data_witness :
  rooms_get
    (serve (rooms_initial 0)
       [JoinRoom "s1" "retro" 10; PostRoom (Some "retro"%string) (Some "Retro"%string) 20;
        DeleteRoom "standup" None; JoinRoom "s2" "retro" 30])
    "retro"
  = Some {| room_name := "retro"; room_createdAt := 10 |}.
Proof.
  change (serve (rooms_initial 0)
            [JoinRoom "s1" "retro" 10;
             PostRoom (Some "retro"%string) (Some "Retro"%string) 20;
             DeleteRoom "standup" None; JoinRoom "s2" "retro" 30])
    with (serve (serve (rooms_initial 0) [JoinRoom "s1" "retro" 10])
            [PostRoom (Some "retro"%string) (Some "Retro"%string) 20;
             DeleteRoom "standup" None; JoinRoom "s2" "retro" 30]).
  apply registered_room_keeps_data; reflexivity.
Defined.

Lemma post_room_witness :
  handle (rooms_initial 0) (PostRoom (Some "default"%string) None 5)
  = (rooms_initial 0, Status 409 "Room already exists")
  /\ handle (rooms_initial 0) (PostRoom None (Some "x"%string) 5)
     = (rooms_initial 0, Status 400 "Room ID required")
  /\ rooms_get (handle (rooms_initial 0) (PostRoom (Some "retro"%string) None 5)).1
       "retro"
     = Some {| room_name := "retro"; room_createdAt := 5 |}.
Proof.
  destruct (post_room (rooms_initial 0) (Some "default"%string) None 5)
    as (_ & Hdup & _).
  destruct (post_room (rooms_initial 0) None (Some "x"%string) 5) as (Hmiss & _).
  destruct (post_room (rooms_initial 0) (Some "retro"%string) None 5)
    as (_ & _ & Hnew).
  split; [apply Hdup; [discriminate|reflexivity]|].
  split; [apply Hmiss; reflexivity|].
  destruct Hnew as (_ & Hget & _); [discriminate|reflexivity|]. exact Hget.
Defined.

Lemma delete_room_witness :
  let rooms := rooms_initial 0
                 ++ [("retro"%string, {| room_name := "retro"; room_createdAt := 10 |})] in
  rooms_get (handle rooms (DeleteRoom "retro" None)).1 "retro" = None
  /\ handle rooms (DeleteRoom "retro" (Some 2%nat))
     = (rooms, Status 400 "Room not empty").
Proof.
  intros rooms.
  destruct (delete_room rooms "retro" None) as [_ Hdel]; [discriminate|].
  destruct (delete_room rooms "retro" (Some 2%nat)) as [Hocc _]; [discriminate|].
  destruct Hdel as (_ & Hgone & _); [left; reflexivity|].
  split; [exact Hgone|]. apply (Hocc 1%nat). reflexivity.
Defined.

Lemma wav_file_unlinked_witness :
  let t := run ex_local [ex_join; ex_speech 2000] in
  let t' := step t (EvSettled 0 WhisperError 3000 3001) in
  unlinks t' = ["s1-2000.wav"%string]
  /\ tmpDir (step t' (EvUnlinked 0)) !! "s1-2000.wav"%string = None.
Proof.
  intros t t'.
  destruct (wav_file_unlinked t 0 (ex_activation AwaitWhisper) WhisperError
              (Throw ProviderError) 3000 3001) as [Hu Hrm];
    [vm_compute; reflexivity | reflexivity |].
  fold t' in Hu. split; [rewrite Hu; vm_compute; reflexivity|].
  apply (Hrm t' 0%nat "s1-2000.wav"%string). rewrite Hu. vm_compute. reflexivity.
Defined.
